(** * Confluence upload plugin: conversion engine and publish pipeline

    A shallow embedding of the TypeScript sources
      - [src/converter.ts]        (class MarkdownToConfluenceConverter),
      - [src/mermaidRenderer.ts]  (class MermaidRenderer),
      - [unnamed/part_002]        (class SimpleConfluenceConverter, imported
                                   by main.ts as [./simpleConverter]),
      - [src/confluenceApi.ts]    (class ConfluenceAPI),
      - [src/main.ts]             (class ConfluenceUploadPlugin),
    followed by the properties established about them.

    Conventions.  A JavaScript string is modelled by [string]: the sequence
    of its code units, restricted to code units below 256.  Regular
    expressions are kept as syntax trees and run by a backtracking matcher
    that follows the priorities of the ECMAScript matcher (greedy and lazy
    quantifiers, captures, multi-line anchors, single-character negative
    look-behind).  Calls that leave the program (the HTTP transport, the
    mermaid library, the marked library, the host application) are answered
    by an environment that every theorem quantifies over. *)

From Stdlib Require Import Bool Arith List Lia NArith.
From Stdlib Require Import Strings.Ascii Strings.String.
From Stdlib Require Import Numbers.DecimalString Numbers.DecimalNat.
From Stdlib Require Import FinFun.
Import ListNotations.

Open Scope bool_scope.
Open Scope string_scope.

(* ================================================================= *)
(** ** JavaScript string primitives *)

Module JS.

Definition code (c : ascii) : nat := nat_of_ascii c.

Definition in_range (lo hi : nat) (c : ascii) : bool :=
  Nat.leb lo (code c) && Nat.leb (code c) hi.

Definition is_char (a c : ascii) : bool := Ascii.eqb a c.

(** [\n], [\r]: the line terminators below U+0100. *)
Definition is_line_terminator (c : ascii) : bool :=
  Nat.eqb (code c) 10 || Nat.eqb (code c) 13.

(** [\s], and the set stripped by [String.prototype.trim]: TAB, LF, VT, FF,
    CR, SPACE and NBSP. *)
Definition is_space (c : ascii) : bool :=
  in_range 9 13 c || Nat.eqb (code c) 32 || Nat.eqb (code c) 160.

(** [\d] *)
Definition is_digit (c : ascii) : bool := in_range 48 57 c.

(** [\w] *)
Definition is_word (c : ascii) : bool :=
  in_range 97 122 c || in_range 65 90 c || is_digit c || Nat.eqb (code c) 95.

(** [.] without the [s] flag *)
Definition is_dot (c : ascii) : bool := negb (is_line_terminator c).

Definition to_lower (c : ascii) : ascii :=
  if in_range 65 90 c then ascii_of_nat (code c + 32) else c.

Definition to_upper (c : ascii) : ascii :=
  if in_range 97 122 c then ascii_of_nat (code c - 32) else c.

Fixpoint toLowerCase (s : string) : string :=
  match s with
  | EmptyString => EmptyString
  | String c s' => String (to_lower c) (toLowerCase s')
  end.

(** Truthiness of a string value: only the empty string is falsy. *)
Definition truthy (s : string) : bool :=
  match s with EmptyString => false | String _ _ => true end.

(** [a || b] on strings *)
Definition or_else (a b : string) : string := if truthy a then a else b.

Fixpoint starts_with (p s : string) : bool :=
  match p, s with
  | EmptyString, _ => true
  | String a p', String b s' => Ascii.eqb a b && starts_with p' s'
  | String _ _, EmptyString => false
  end.

Fixpoint drop (n : nat) (s : string) : string :=
  match n, s with
  | O, _ => s
  | S n', String _ s' => drop n' s'
  | S _, EmptyString => EmptyString
  end.

Fixpoint take (n : nat) (s : string) : string :=
  match n, s with
  | O, _ => EmptyString
  | S n', String c s' => String c (take n' s')
  | S _, EmptyString => EmptyString
  end.

Fixpoint last_char (prev : option ascii) (s : string) : option ascii :=
  match s with
  | EmptyString => prev
  | String c s' => last_char (Some c) s'
  end.

(** [s.split(sep)] for a one-character separator. *)
Fixpoint split_on (sep : ascii) (s : string) : list string :=
  match s with
  | EmptyString => [EmptyString]
  | String c s' =>
      if Ascii.eqb c sep then EmptyString :: split_on sep s'
      else match split_on sep s' with
           | [] => [String c EmptyString]
           | w :: ws => String c w :: ws
           end
  end.

(** [xs.join(sep)] *)
Fixpoint join (sep : string) (xs : list string) : string :=
  match xs with
  | [] => EmptyString
  | [x] => x
  | x :: rest => x ++ sep ++ join sep rest
  end.

(** [xs.slice(1, -1)] *)
Definition slice_1_m1 {A} (xs : list A) : list A := removelast (tl xs).

Fixpoint trim_start (s : string) : string :=
  match s with
  | EmptyString => EmptyString
  | String c s' => if is_space c then trim_start s' else s
  end.

Fixpoint all_space (s : string) : bool :=
  match s with
  | EmptyString => true
  | String c s' => is_space c && all_space s'
  end.

Fixpoint trim_end (s : string) : string :=
  match s with
  | EmptyString => EmptyString
  | String c s' => if all_space s then EmptyString else String c (trim_end s')
  end.

(** [s.trim()] *)
Definition trim (s : string) : string := trim_end (trim_start s).

(** Decimal rendering of a number inside a template literal. *)
Definition of_nat (n : nat) : string := NilEmpty.string_of_uint (Nat.to_uint n).

(** Numbers.  A JavaScript number is a double; the one number that the
    program computes with is a revision count, a non-negative integer.
    [to_double n] is the double nearest to the integer [n]: integers up to
    2^53 are doubles, and beyond them the parse of a number and the sum of
    two numbers are rounded to 53 significant bits, a tie going to the even
    significand.  [None] stands for [Infinity], which [JSON.stringify] writes
    as [null]. *)
Definition to_double (n : N) : option N :=
  if (n <=? 9007199254740992)%N then Some n
  else
    let e := (N.size n - 53)%N in
    let q := N.shiftr n e in
    let r := (n - N.shiftl q e)%N in
    let half := N.shiftl 1 (e - 1) in
    let q := if (half <? r)%N || ((half =? r)%N && N.odd q) then (q + 1)%N else q in
    let d := N.shiftl q e in
    if (1024 <? N.size d)%N then None else Some d.

(** [x + 1] *)
Definition plus_one (x : option N) : option N :=
  match x with
  | Some n => to_double (n + 1)
  | None => None
  end.

(** [s.indexOf(p)]: the text before and after the first occurrence of [p]. *)
Fixpoint find_first (p : string) (before s : string) : option (string * string) :=
  if starts_with p s then Some (before, drop (String.length p) s)
  else match s with
       | EmptyString => None
       | String c s' => find_first p (before ++ String c EmptyString) s'
       end.

(** [GetSubstitution] of ECMA-262: the expansion of a replacement template.
    [caps] holds the captures of the match, [None] for a group that did not
    take part; a string pattern has no capture. *)
Definition digit_val (c : ascii) : nat := code c - 48.

Definition capture (caps : list (option string)) (n : nat) : option string :=
  if Nat.leb 1 n && Nat.leb n (List.length caps)
  then Some (match nth (n - 1) caps None with Some s => s | None => EmptyString end)
  else None.

Fixpoint get_substitution (matched before after : string)
         (caps : list (option string)) (tpl : string) : string :=
  match tpl with
  | EmptyString => EmptyString
  | String c t1 =>
      if negb (is_char "$" c) then String c (get_substitution matched before after caps t1)
      else
        match t1 with
        | EmptyString => String c EmptyString
        | String d t2 =>
            if is_char "$" d then String "$" (get_substitution matched before after caps t2)
            else if is_char "&" d then matched ++ get_substitution matched before after caps t2
            else if is_char "`" d then before ++ get_substitution matched before after caps t2
            else if is_char "'" d then after ++ get_substitution matched before after caps t2
            else if is_digit d then
              let one :=
                match capture caps (digit_val d) with
                | Some s => s ++ get_substitution matched before after caps t2
                | None => String c (String d (get_substitution matched before after caps t2))
                end in
              match t2 with
              | String e t3 =>
                  if is_digit e then
                    match capture caps (10 * digit_val d + digit_val e) with
                    | Some s => s ++ get_substitution matched before after caps t3
                    | None => one
                    end
                  else one
              | EmptyString => one
              end
            else String c (get_substitution matched before after caps t1)
        end
  end.

(** [s.replace(pattern, replacement)] with a string pattern: the first
    occurrence only, the replacement expanded by [get_substitution]. *)
Definition replace_str (s pattern replacement : string) : string :=
  match find_first pattern EmptyString s with
  | None => s
  | Some (before, after) =>
      before ++ get_substitution pattern before after [] replacement ++ after
  end.

End JS.

(* ================================================================= *)
(** ** Regular expressions *)

Module Regex.

Import JS.

(** The constructs used by the sources.  [Group n r] is the [n]-th capturing
    group, numbered from 1 by its opening parenthesis.  [Bol m] and [Eol m]
    are [^] and [$], [m] telling whether the regex carries the [m] flag.
    [NotBehind p] is a negative look-behind on one character. *)
Inductive regex : Type :=
| Eps
| Chr (p : ascii -> bool)
| Cat (r1 r2 : regex)
| Star (greedy : bool) (r : regex)
| Group (n : nat) (r : regex)
| Bol (m : bool)
| Eol (m : bool)
| NotBehind (p : ascii -> bool).

Definition Plus (greedy : bool) (r : regex) : regex := Cat r (Star greedy r).

Fixpoint cats (rs : list regex) : regex :=
  match rs with
  | [] => Eps
  | [r] => r
  | r :: rest => Cat r (cats rest)
  end.

(** A literal run of characters; [liti] is the same under the [i] flag. *)
Fixpoint lit (s : string) : regex :=
  match s with
  | EmptyString => Eps
  | String c EmptyString => Chr (is_char c)
  | String c s' => Cat (Chr (is_char c)) (lit s')
  end.

Definition is_char_i (a c : ascii) : bool := Ascii.eqb (to_upper a) (to_upper c).

Fixpoint liti (s : string) : regex :=
  match s with
  | EmptyString => Eps
  | String c EmptyString => Chr (is_char_i c)
  | String c s' => Cat (Chr (is_char_i c)) (liti s')
  end.

Record mstate : Type := MState {
  m_prev : option ascii;          (* the character just before the position *)
  m_rest : string;                (* the input from the position on *)
  m_caps : list (nat * string)    (* captures so far, latest first *)
}.

Definition consumed (from to : mstate) : string :=
  take (String.length (m_rest from) - String.length (m_rest to)) (m_rest from).

Definition at_bol (m : bool) (st : mstate) : bool :=
  match m_prev st with
  | None => true
  | Some c => m && is_line_terminator c
  end.

Definition at_eol (m : bool) (st : mstate) : bool :=
  match m_rest st with
  | EmptyString => true
  | String c _ => m && is_line_terminator c
  end.

Definition first_of {A} (a b : option A) : option A :=
  match a with Some x => Some x | None => b end.

(** The backtracking matcher, in continuation-passing style: [k] is the rest
    of the pattern.  A quantifier refuses an iteration that consumes
    nothing, so the number of iterations is bounded by the length of the
    remaining input. *)
Fixpoint rmatch (r : regex) (st : mstate) (k : mstate -> option mstate)
  {struct r} : option mstate :=
  match r with
  | Eps => k st
  | Chr p =>
      match m_rest st with
      | String c s' =>
          if p c then k (MState (Some c) s' (m_caps st)) else None
      | EmptyString => None
      end
  | Cat r1 r2 => rmatch r1 st (fun st1 => rmatch r2 st1 k)
  | Star greedy r1 =>
      (fix loop (n : nat) (st : mstate) {struct n} : option mstate :=
         match n with
         | O => k st
         | S n' =>
             let again :=
               rmatch r1 st (fun st1 =>
                 if Nat.ltb (String.length (m_rest st1)) (String.length (m_rest st))
                 then loop n' st1 else None) in
             if greedy then first_of again (k st) else first_of (k st) again
         end) (String.length (m_rest st)) st
  | Group n r1 =>
      rmatch r1 st (fun st1 =>
        k (MState (m_prev st1) (m_rest st1) ((n, consumed st st1) :: m_caps st1)))
  | Bol m => if at_bol m st then k st else None
  | Eol m => if at_eol m st then k st else None
  | NotBehind p =>
      match m_prev st with
      | Some c => if p c then None else k st
      | None => k st
      end
  end.

Fixpoint ngroups (r : regex) : nat :=
  match r with
  | Cat r1 r2 => Nat.max (ngroups r1) (ngroups r2)
  | Star _ r1 => ngroups r1
  | Group n r1 => Nat.max n (ngroups r1)
  | _ => 0
  end.

Fixpoint lookup_cap (n : nat) (caps : list (nat * string)) : option string :=
  match caps with
  | [] => None
  | (i, s) :: rest => if Nat.eqb i n then Some s else lookup_cap n rest
  end.

(** The result of a successful match: the matched text, the captures
    [$1 .. $n], and the input left after the match. *)
Record result : Type := Result {
  matched : string;
  groups : list (option string);
  after : string
}.

Definition group (m : result) (n : nat) : string :=
  match nth (n - 1) (groups m) None with Some s => s | None => EmptyString end.

(** One attempt at the current position. *)
Definition exec_at (r : regex) (prev : option ascii) (s : string) : option result :=
  let st0 := MState prev s [] in
  match rmatch r st0 (fun st => Some st) with
  | None => None
  | Some st =>
      Some (Result (consumed st0 st)
                   (map (fun i => lookup_cap i (m_caps st)) (seq 1 (ngroups r)))
                   (m_rest st))
  end.

(** [regex.exec(s)] / [s.match(regex)] without the [g] flag: the leftmost
    match, with the text before it. *)
Fixpoint search (r : regex) (before s : string) : option (string * result) :=
  match exec_at r (last_char None before) s with
  | Some m => Some (before, m)
  | None =>
      match s with
      | EmptyString => None
      | String c s' => search r (before ++ String c EmptyString) s'
      end
  end.

Definition test (r : regex) (s : string) : bool :=
  match search r EmptyString s with Some _ => true | None => false end.

(** The scan of a [g]-flagged regex over the input, left to right: [hit] is
    called on each match with the text before it, every other character goes
    through [keep].  After an empty match the scan moves on by one
    character. *)
Section Scan.
Context {A : Type} (r : regex).
Context (hit : string -> result -> A) (keep : ascii -> A).

Fixpoint scan (skip : nat) (before s : string) {struct s} : list A :=
  match skip with
  | S n =>
      match s with
      | String c s' => scan n (before ++ String c EmptyString) s'
      | EmptyString => []
      end
  | O =>
      match exec_at r (last_char None before) s with
      | Some m =>
          hit before m ::
          match s with
          | EmptyString => []
          | String c s' =>
              match String.length (matched m) with
              | O => keep c :: scan 0 (before ++ String c EmptyString) s'
              | S n => scan n (before ++ String c EmptyString) s'
              end
          end
      | None =>
          match s with
          | EmptyString => []
          | String c s' => keep c :: scan 0 (before ++ String c EmptyString) s'
          end
      end
  end.
End Scan.

Definition concat_all (xs : list string) : string :=
  fold_right String.append EmptyString xs.

(** [s.replace(regex, fn)] with the [g] flag and a callback. *)
Definition replace_all_with (r : regex) (fn : result -> string) (s : string) : string :=
  concat_all (scan r (fun _ m => fn m) (fun c => String c EmptyString) 0 EmptyString s).

(** [s.replace(regex, template)] with the [g] flag and a template string. *)
Definition replace_all (r : regex) (tpl : string) (s : string) : string :=
  concat_all (scan r (fun before m =>
                        get_substitution (matched m) before (after m) (groups m) tpl)
                     (fun c => String c EmptyString) 0 EmptyString s).

(** The scan as a list of pieces, for a callback that keeps state. *)
Inductive piece : Type :=
| Kept (c : ascii)
| Hit (m : result).

Definition pieces (r : regex) (s : string) : list piece :=
  scan r (fun _ m => Hit m) Kept 0 EmptyString s.

(** The successive results of [regex.exec(s)] under the [g] flag. *)
Definition match_all (r : regex) (s : string) : list result :=
  List.concat (scan r (fun _ m => [m]) (fun _ => []) 0 EmptyString s).

(** [s.replace(regex, template)] without the [g] flag: the leftmost match
    only. *)
Definition replace_first (r : regex) (tpl : string) (s : string) : string :=
  match search r EmptyString s with
  | None => s
  | Some (before, m) =>
      before ++ get_substitution (matched m) before (after m) (groups m) tpl
      ++ after m
  end.

End Regex.

(** Characters that string literals here do not spell out. *)
Definition LF : ascii := ascii_of_nat 10.
Definition nl : string := String LF EmptyString.
Definition dq : string := String (ascii_of_nat 34) EmptyString.

(* ================================================================= *)
(** ** src/converter.ts: MarkdownToConfluenceConverter *)

Module Converter.

Import JS Regex.

(** The fields [codeBlockCounter] and [codeBlocks].  The [Map] is iterated
    in insertion order and every key is set once, so it is kept as the list
    of its entries, oldest first. *)
Record state : Type := State {
  codeBlockCounter : nat;
  codeBlocks : list (string * string)
}.

Definition createCodeBlockPlaceholder (st : state) : string * state :=
  ("__CODEBLOCK_" ++ of_nat (codeBlockCounter st) ++ "__",
   State (S (codeBlockCounter st)) (codeBlocks st)).

(** [array.push(x)] and [map.set(k, v)] with a fresh key: one more element
    at the end. *)
Definition push {A : Type} (xs : list A) (x : A) : list A := (xs ++ [x])%list.

Definition set_block (placeholder block : string) (st : state) : state :=
  State (codeBlockCounter st) (push (codeBlocks st) (placeholder, block)).

Definition languageMap : list (string * string) :=
  [("js", "javascript"); ("ts", "typescript"); ("tsx", "typescript");
   ("jsx", "javascript"); ("bash", "bash"); ("shell", "bash"); ("sh", "bash");
   ("py", "python"); ("yml", "yaml"); ("json", "javascript"); ("xml", "xml");
   ("html", "html"); ("css", "css"); ("sql", "sql"); ("java", "java");
   ("c", "c"); ("cpp", "cpp"); ("c++", "cpp"); ("cs", "csharp");
   ("c#", "csharp"); ("go", "go"); ("rust", "rust"); ("ruby", "ruby");
   ("rb", "ruby"); ("php", "php"); ("swift", "swift"); ("kotlin", "kotlin");
   ("r", "r"); ("matlab", "matlab"); ("scala", "scala"); ("perl", "perl");
   ("lua", "lua"); ("haskell", "haskell"); ("clojure", "clojure");
   ("groovy", "groovy"); ("powershell", "powershell"); ("ps1", "powershell");
   ("dockerfile", "docker"); ("makefile", "makefile"); ("nginx", "nginx");
   ("apache", "apache"); ("ini", "ini"); ("toml", "toml");
   ("properties", "properties"); ("diff", "diff"); ("patch", "diff")].

(** The functions that an object literal inherits from [Object.prototype]. *)
Definition prototype_functions : list string :=
  ["constructor"; "hasOwnProperty"; "isPrototypeOf"; "propertyIsEnumerable";
   "toLocaleString"; "toString"; "valueOf"; "__defineGetter__";
   "__defineSetter__"; "__lookupGetter__"; "__lookupSetter__"].

(** [table[key]] for a key that the object literal does not hold itself, as
    a template literal renders the value: an inherited function, in the
    words of V8 ([constructor] is the function [Object]); the prototype
    itself under [__proto__]; the empty string standing for [undefined]. *)
Definition inherited (key : string) : string :=
  if String.eqb key "__proto__" then "[object Object]"
  else if existsb (String.eqb key) prototype_functions then
    "function " ++ (if String.eqb key "constructor" then "Object" else key) ++
    "() { [native code] }"
  else EmptyString.

(** [table[key]] on an object literal, the empty string standing for
    [undefined] (every value of the tables here is a non-empty string). *)
Fixpoint lookup (key : string) (table : list (string * string)) : string :=
  match table with
  | [] => inherited key
  | (k, v) :: rest => if String.eqb k key then v else lookup key rest
  end.

Definition createConfluenceCodeBlock (language content : string) : string :=
  let mappedLanguage :=
    or_else (or_else (lookup (toLowerCase language) languageMap) language) "text" in
  "<ac:structured-macro ac:name=" ++ dq ++ "code" ++ dq ++ ">" ++ nl ++
  "<ac:parameter ac:name=" ++ dq ++ "language" ++ dq ++ ">" ++ mappedLanguage ++
  "</ac:parameter>" ++ nl ++
  "<ac:parameter ac:name=" ++ dq ++ "linenumbers" ++ dq ++ ">true</ac:parameter>" ++ nl ++
  "<ac:plain-text-body><![CDATA[" ++ content ++ "]]></ac:plain-text-body>" ++ nl ++
  "</ac:structured-macro>".

Definition escapeMap (c : ascii) : string :=
  if is_char "&" c then "&amp;"
  else if is_char "<" c then "&lt;"
  else if is_char ">" c then "&gt;"
  else if Ascii.eqb c (ascii_of_nat 34) then "&quot;"
  else if is_char "'" c then "&#39;"
  else String c EmptyString.

(** The class of [&], [<], [>], the double quote and the single quote,
    under the [g] flag. *)
Definition re_escape : regex :=
  Chr (fun c => is_char "&" c || is_char "<" c || is_char ">" c
                || Ascii.eqb c (ascii_of_nat 34) || is_char "'" c).

Definition escapeHtml (text : string) : string :=
  replace_all_with re_escape
    (fun m => match matched m with
              | String c _ => escapeMap c
              | EmptyString => EmptyString
              end) text.

Definition any_char (c : ascii) : bool := true.
Definition not_char (a c : ascii) : bool := negb (is_char a c).

(** The fenced-block regex of [extractCodeBlocks], flag [g]: three
    backticks, group 1 [\w*], a line feed, group 2 [[\s\S]*?] (lazy), three
    backticks. *)
Definition re_fenced : regex :=
  cats [lit "```"; Group 1 (Star true (Chr is_word)); Chr (is_char LF);
        Group 2 (Star false (Chr any_char)); lit "```"].

(** The inline-code regex of [extractCodeBlocks], flag [g]: a backtick,
    group 1 [[^`\n]+], a backtick. *)
Definition re_inline : regex :=
  cats [lit "`";
        Group 1 (Plus true (Chr (fun c => not_char "`" c && not_char LF c)));
        lit "`"].

(** A [replace] whose callback mints a placeholder and records a block. *)
Fixpoint extract_pieces (block_of : result -> string) (ps : list piece)
         (st : state) : string * state :=
  match ps with
  | [] => (EmptyString, st)
  | Kept c :: rest =>
      let '(out, st') := extract_pieces block_of rest st in
      (String c out, st')
  | Hit m :: rest =>
      let '(placeholder, st1) := createCodeBlockPlaceholder st in
      let st2 := set_block placeholder (block_of m) st1 in
      let '(out, st') := extract_pieces block_of rest st2 in
      (placeholder ++ out, st')
  end.

Definition extractCodeBlocks (content : string) (st : state) : string * state :=
  let '(content1, st1) :=
    extract_pieces
      (fun m => createConfluenceCodeBlock (or_else (group m 1) "text") (group m 2))
      (pieces re_fenced content) st in
  extract_pieces
    (fun m => "<code>" ++ escapeHtml (group m 1) ++ "</code>")
    (pieces re_inline content1) st1.

Inductive list_type : Type := ul | ol.

Definition list_type_eqb (a b : list_type) : bool :=
  match a, b with
  | ul, ul | ol, ol => true
  | _, _ => false
  end.

Definition tag_name (t : list_type) : string :=
  match t with ul => "ul" | ol => "ol" end.

Definition open_tag (t : list_type) : string := "<" ++ tag_name t ++ ">".
Definition close_tag (t : list_type) : string := "</" ++ tag_name t ++ ">".

(** An entry of [listStack]. *)
Record frame : Type := Frame { type : list_type; indent : nat }.

(** [listStack] is kept with its top (the last element of the array) at the
    head of the list; [result] is the array of output lines, in order. *)
Definition list_state : Type := (list string * list frame)%type.

(** [while (listStack.length > 0 && top.indent > indent) pop, push closing
    tag] *)
Fixpoint close_deeper (indent0 : nat) (result : list string) (stack : list frame)
  : list_state :=
  match stack with
  | top :: below =>
      if Nat.ltb indent0 (indent top)
      then close_deeper indent0 (push result (close_tag (type top))) below
      else (result, stack)
  | [] => (result, stack)
  end.

Definition handleListItem (st : list_state) (type0 : list_type) (indent0 : nat)
           (text : string) : list_state :=
  let '(result, stack) := close_deeper indent0 (fst st) (snd st) in
  let '(result, stack) :=
    match stack with
    | [] => (push result (open_tag type0), [Frame type0 indent0])
    | top :: below =>
        if Nat.ltb (indent top) indent0
        then (push result (open_tag type0), Frame type0 indent0 :: stack)
        else if negb (list_type_eqb (type top) type0)
        then (push (push result (close_tag (type top))) (open_tag type0),
              Frame type0 indent0 :: below)
        else (result, stack)
    end in
  (push result ("<li>" ++ text ++ "</li>"), stack).

(** [while (listStack.length > 0) pop, push closing tag] *)
Fixpoint close_all (result : list string) (stack : list frame) : list string :=
  match stack with
  | top :: below => close_all (push result (close_tag (type top))) below
  | [] => result
  end.

(** [unorderedMatch]: [^], group 1 [\s*], one of [-*+], [\s+], group 2
    [.+], [$]; no flag. *)
Definition re_unordered : regex :=
  cats [Bol false; Group 1 (Star true (Chr is_space));
        Chr (fun c => is_char "-" c || is_char "*" c || is_char "+" c);
        Plus true (Chr is_space); Group 2 (Plus true (Chr is_dot)); Eol false].

(** [orderedMatch]: [^], group 1 [\s*], group 2 [\d+], a dot, [\s+],
    group 3 [.+], [$]; no flag. *)
Definition re_ordered : regex :=
  cats [Bol false; Group 1 (Star true (Chr is_space));
        Group 2 (Plus true (Chr is_digit)); Chr (is_char ".");
        Plus true (Chr is_space); Group 3 (Plus true (Chr is_dot)); Eol false].

(** What the two [line.match] calls of the loop body decide about a line. *)
Inductive line_kind : Type :=
| Item (t : list_type) (indent0 : nat) (text : string)
| Other.

Definition classify (line : string) : line_kind :=
  match search re_unordered EmptyString line with
  | Some (_, m) => Item ul (String.length (group m 1)) (group m 2)
  | None =>
      match search re_ordered EmptyString line with
      | Some (_, m) => Item ol (String.length (group m 1)) (group m 3)
      | None => Other
      end
  end.

(** One turn of the [for (const line of lines)] loop. *)
Definition list_step (st : list_state) (line : string) : list_state :=
  match classify line with
  | Item t i text => handleListItem st t i text
  | Other => (push (close_all (fst st) (snd st)) line, [])
  end.

Definition convertLists (content : string) : string :=
  let lines := split_on LF content in
  let '(result, stack) := fold_left list_step lines ([], []) in
  join nl (close_all result stack).

(** [/^\|.*\|$/] *)
Definition re_row : regex :=
  cats [Bol false; Chr (is_char "|"); Star true (Chr is_dot); Chr (is_char "|");
        Eol false].

(** [/^\|[\s-:|]+\|$/]: in the class, [-] after the escape [\s] is a literal
    dash. *)
Definition re_separator : regex :=
  cats [Bol false; Chr (is_char "|");
        Plus true (Chr (fun c => is_space c || is_char "-" c || is_char ":" c
                                 || is_char "|" c));
        Chr (is_char "|"); Eol false].

Definition is_row (line : string) : bool := test re_row line.
Definition is_separator (line : string) : bool := test re_separator line.

(** [line.split('|').slice(1, -1).map(cell => cell.trim())] *)
Definition cells (line : string) : list string :=
  map trim (slice_1_m1 (split_on "|" line)).

Definition th (cell : string) : string := "<th>" ++ cell ++ "</th>".
Definition td (cell : string) : string := "<td>" ++ cell ++ "</td>".

Definition header_row (line : string) : list string :=
  ("<tr>" :: map th (cells line) ++ ["</tr>"])%list.

Definition body_row (line : string) : list string :=
  ("<tr>" :: map td (cells line) ++ ["</tr>"])%list.

(** The variables of the loop of [convertTables]. *)
Record table_state : Type := TableState {
  t_i : nat;
  t_inTable : bool;
  t_headerRow : bool;
  t_result : list string
}.

(** One turn of [for (let i = 0; i < lines.length; i++)]: the body at
    [lines[i]], then the [i++] of the loop header. *)
Definition table_step (lines : list string) (st : table_state) : table_state :=
  let i := t_i st in
  let line := nth i lines EmptyString in
  if is_row line then
    if Nat.ltb (i + 1) (List.length lines)
       && is_separator (nth (i + 1) lines EmptyString)
    then
      let opened :=
        if negb (t_inTable st)
        then push (push (t_result st) "<table>") "<thead>"
        else t_result st in
      let with_row := (opened ++ header_row line)%list in
      (* i++ skips the separator line *)
      TableState (i + 1 + 1) true false
                 (push (push with_row "</thead>") "<tbody>")
    else if t_inTable st then
      TableState (i + 1) (t_inTable st) (t_headerRow st)
                 (t_result st ++ body_row line)%list
    else
      TableState (i + 1) (t_inTable st) (t_headerRow st) (push (t_result st) line)
  else if t_inTable st then
    TableState (i + 1) false true
               (push (push (push (t_result st) "</tbody>") "</table>") line)
  else
    TableState (i + 1) (t_inTable st) (t_headerRow st) (push (t_result st) line).

(** The loop: at most [fuel] turns, stopping when [i < lines.length] fails.
    Every turn moves [i] forward, so [lines.length] turns are enough. *)
Fixpoint table_run (fuel : nat) (lines : list string) (st : table_state)
  : table_state :=
  match fuel with
  | O => st
  | S fuel' =>
      if Nat.ltb (t_i st) (List.length lines)
      then table_run fuel' lines (table_step lines st)
      else st
  end.

Definition table_init : table_state := TableState 0 false true [].

(** The lines of the output: [result] after the loop and the closing tags
    pushed after it. *)
Definition table_lines (lines : list string) : list string :=
  let st := table_run (List.length lines) lines table_init in
  if t_inTable st
  then push (push (t_result st) "</tbody>") "</table>"
  else t_result st.

Definition convertTables (content : string) : string :=
  join nl (table_lines (split_on LF content)).

(** The regexes of [convertMarkdownToConfluence], in the order of use. *)

(** [^#{n}\s+(.+)$] with flags [gm], for [n] number signs *)
Definition re_heading (marks : string) : regex :=
  cats [Bol true; lit marks; Plus true (Chr is_space);
        Group 1 (Plus true (Chr is_dot)); Eol true].

(** [d(.+?)d] with flag [g], for a delimiter [d] *)
Definition re_delimited (d : string) : regex :=
  cats [lit d; Group 1 (Plus false (Chr is_dot)); lit d].

(** [\[([^\]]+)\]\(([^)]+)\)] with flag [g] *)
Definition re_link : regex :=
  cats [lit "["; Group 1 (Plus true (Chr (not_char "]"))); lit "]("; 
        Group 2 (Plus true (Chr (not_char ")"))); lit ")"].

(** The image regex, flag [g]: [!\[], group 1 [[^\]]*], [\]\(], group 2
    [[^)]+], [\)]. *)
Definition re_image : regex :=
  cats [lit "!["; Group 1 (Star true (Chr (not_char "]"))); lit "]("; 
        Group 2 (Plus true (Chr (not_char ")"))); lit ")"].

(** [^---+$] and [^\*\*\*+$] with flags [gm] *)
Definition re_rule (c : ascii) : regex :=
  cats [Bol true; Chr (is_char c); Chr (is_char c); Plus true (Chr (is_char c));
        Eol true].

(** [^>\s+(.+)$] with flags [gm] *)
Definition re_blockquote : regex :=
  cats [Bol true; lit ">"; Plus true (Chr is_space);
        Group 1 (Plus true (Chr is_dot)); Eol true].

(** [\n\n+] and [\n] with flag [g] *)
Definition re_blank_lines : regex :=
  cats [Chr (is_char LF); Plus true (Chr (is_char LF))].
Definition re_newline : regex := Chr (is_char LF).

(** [<p><\/p>], [<p>(<h[1-6]>)] and [(<\/h[1-6]>)<\/p>] with flag [g] *)
Definition re_empty_p : regex := lit "<p></p>".
Definition re_p_heading : regex :=
  cats [lit "<p>"; Group 1 (cats [lit "<h"; Chr (in_range 49 54); lit ">"])].
Definition re_heading_p : regex :=
  cats [Group 1 (cats [lit "</h"; Chr (in_range 49 54); lit ">"]); lit "</p>"].

Definition convertMarkdownToConfluence (content : string) : string :=
  let content := replace_all (re_heading "######") "<h6>$1</h6>" content in
  let content := replace_all (re_heading "#####") "<h5>$1</h5>" content in
  let content := replace_all (re_heading "####") "<h4>$1</h4>" content in
  let content := replace_all (re_heading "###") "<h3>$1</h3>" content in
  let content := replace_all (re_heading "##") "<h2>$1</h2>" content in
  let content := replace_all (re_heading "#") "<h1>$1</h1>" content in
  let content := replace_all (re_delimited "***") "<strong><em>$1</em></strong>" content in
  let content := replace_all (re_delimited "**") "<strong>$1</strong>" content in
  let content := replace_all (re_delimited "*") "<em>$1</em>" content in
  let content := replace_all (re_delimited "___") "<strong><em>$1</em></strong>" content in
  let content := replace_all (re_delimited "__") "<strong>$1</strong>" content in
  let content := replace_all (re_delimited "_") "<em>$1</em>" content in
  let content := replace_all (re_delimited "~~") "<del>$1</del>" content in
  let content :=
    replace_all re_link ("<a href=" ++ dq ++ "$2" ++ dq ++ ">$1</a>") content in
  let content :=
    replace_all re_image
      ("<ac:image><ri:url ri:value=" ++ dq ++ "$2" ++ dq ++ " /></ac:image>")
      content in
  let content := replace_all (re_rule "-") "<hr />" content in
  let content := replace_all (re_rule "*") "<hr />" content in
  let content := replace_all re_blockquote "<blockquote>$1</blockquote>" content in
  let content := convertLists content in
  let content := convertTables content in
  let content := replace_all re_blank_lines "</p><p>" content in
  let content := replace_all re_newline "<br />" content in
  let content :=
    if negb (starts_with "<" content) then "<p>" ++ content ++ "</p>" else content in
  let content := replace_all re_empty_p "" content in
  let content := replace_all re_p_heading "$1" content in
  let content := replace_all re_heading_p "$1" content in
  content.

(** [this.codeBlocks.forEach((block, placeholder) => ...)], in insertion
    order; [content.replace(placeholder, block)] has a string pattern. *)
Definition restoreCodeBlocks (content : string) (st : state) : string :=
  fold_left (fun content entry => replace_str content (fst entry) (snd entry))
            (codeBlocks st) content.

Definition convert (markdown : string) : string :=
  let st := State 0 [] in
  let '(processed, st) := extractCodeBlocks markdown st in
  let processed := convertMarkdownToConfluence processed in
  restoreCodeBlocks processed st.

End Converter.

(* ================================================================= *)
(** ** The world outside the program *)

Module World.

(** A thrown value: an [Error] with its message; [null]; [undefined]; or any
    other value, one without a [message] property, kept by its string
    rendering. *)
Inductive exn : Type :=
| Err (message : string)
| Thrown (value : string)
| Null
| Undefined.

Definition is_Error (e : exn) : bool :=
  match e with Err _ => true | _ => false end.

Definition nullish (e : exn) : bool :=
  match e with Null | Undefined => true | _ => false end.

(** [String(error)], which is also what a template literal makes of
    [error]. *)
Definition string_of (e : exn) : string :=
  match e with
  | Err m => if JS.truthy m then "Error: " ++ m else "Error"
  | Thrown v => v
  | Null => "null"
  | Undefined => "undefined"
  end.

Inductive outcome (A : Type) : Type :=
| Return (a : A)
| Throw (e : exn).
Arguments Return {A} a.
Arguments Throw {A} e.

(** The [TypeError] of reading a property of [null] or [undefined], in the
    words of V8. *)
Definition type_error (e : exn) (property : string) : exn :=
  Err ("Cannot read properties of " ++ string_of e ++ " (reading '" ++ property ++
       "')").

(** [error.message || error] inside a template literal.  Reading [message]
    throws when [error] is [null] or [undefined]; an [Error] without a
    message is rendered by its name. *)
Definition message_or_value (e : exn) : outcome string :=
  match e with
  | Err m => Return (if JS.truthy m then m else "Error")
  | Thrown v => Return v
  | Null | Undefined => Throw (type_error e "message")
  end.

(** [error.message || fallback] *)
Definition message_or (fallback : string) (e : exn) : outcome string :=
  match e with
  | Err m => Return (JS.or_else m fallback)
  | Thrown _ => Return fallback
  | Null | Undefined => Throw (type_error e "message")
  end.

(** [error.message] inside a template literal *)
Definition message_of (e : exn) : outcome string :=
  match e with
  | Err m => Return m
  | Thrown _ => Return "undefined"
  | Null | Undefined => Throw (type_error e "message")
  end.

(** unnamed/part_000 (types.ts) *)
Inductive auth_type : Type := bearer | basic.

Record ConfluenceSettings : Type := Settings {
  apiToken : string;
  baseUrl : string;
  useEnvironmentToken : bool;
  defaultSpaceKey : string;
  lastPageId : string;
  authType : auth_type;
  username : string;
  enableMermaid : bool
}.

(** The fields of [ConfluencePage] that the code reads.  The version is a
    page revision count, given by the integer that the response carries;
    [response.json] holds the double nearest to it. *)
Record ConfluencePage : Type := Page {
  id : string;
  title : string;
  version_number : N
}.

(** The [Authorization] header; the base-64 step of [btoa] stays symbolic.
    In the body of an update, [version] is the number as [JSON.stringify]
    writes it, [None] for [null]. *)
Inductive authorization : Type :=
| Bearer (token : string)
| Basic (user token : string).

Inductive body : Type :=
| NoBody
| UpdateRequest (version : option N) (page_title content : string)
| Multipart (field fileName mimeType content : string).

Record request : Type := Req {
  method : string;
  url : string;
  auth : authorization;
  payload : body
}.

(** A response of [requestUrl], by the fields the code reads: the status,
    the text, and of the parsed body the page ([response.json as
    ConfluencePage]), the error message, the message of the first entry of
    [data.errors] (empty strings when absent), the length of [results] and
    the id of its first entry. *)
Record response : Type := Resp {
  status : nat;
  text : string;
  page : ConfluencePage;
  json_message : string;
  json_first_error : string;
  results_length : nat;
  first_result_id : string
}.

(** What the mermaid library and the DOM do during one call of
    [renderToSvg]. *)
Record mermaid_run : Type := MermaidRun {
  document_available : bool;
  parse_ok : bool;
  render : outcome string;        (* [mermaid.render], its [svg] field *)
  init_svg : option string        (* [mermaid.init] and the [svg] it leaves *)
}.

(** The environment answers every call that leaves the program.  Calls are
    numbered by a clock kept in the state, so the answers may depend on
    everything that happened before. *)
Record env : Type := Env {
  http : nat -> request -> outcome response;       (* [requestUrl] *)
  mermaid : nat -> string -> mermaid_run;
  marked_parse : string -> outcome string;         (* [marked.parse] *)
  saveData : nat -> option exn;                    (* host: [saveData] *)
  clipboard : nat -> option exn                    (* host: clipboard write *)
}.

Inductive event : Type :=
| CallRender (code : string)
| CallUpdatePage (pageId content : string)
| CallUploadAttachment (pageId fileName content : string)
| Http (req : request) (answer : outcome response)
| SaveData
| ClipboardWrite (text : string)
| Notice (success : bool) (message : string).

Record state : Type := St {
  clock : nat;
  settings : ConfluenceSettings;
  renderCounter : nat
}.

(** Computations: a state, exceptions, and the list of events emitted. *)
Definition M (A : Type) : Type := state -> outcome A * state * list event.

Definition ret {A} (a : A) : M A := fun s => (Return a, s, []).

Definition throw {A} (e : exn) : M A := fun s => (Throw e, s, []).

Definition bind {A B} (c : M A) (k : A -> M B) : M B :=
  fun s =>
    match c s with
    | (Return a, s1, t1) =>
        let '(r, s2, t2) := k a s1 in (r, s2, (t1 ++ t2)%list)
    | (Throw e, s1, t1) => (Throw e, s1, t1)
    end.

(** [try { c } catch (e) { handler e }] *)
Definition try_catch {A} (c : M A) (handler : exn -> M A) : M A :=
  fun s =>
    match c s with
    | (Return a, s1, t1) => (Return a, s1, t1)
    | (Throw e, s1, t1) =>
        let '(r, s2, t2) := handler e s1 in (r, s2, (t1 ++ t2)%list)
    end.

Definition emit (e : event) : M unit := fun s => (Return tt, s, [e]).

Definition get : M state := fun s => (Return s, s, []).

Definition tick : M nat :=
  fun s => (Return (clock s), St (S (clock s)) (settings s) (renderCounter s), []).

Definition set_lastPageId (pageId : string) : M unit :=
  fun s =>
    let c := settings s in
    (Return tt,
     St (clock s)
        (Settings (apiToken c) (baseUrl c) (useEnvironmentToken c)
                  (defaultSpaceKey c) pageId (authType c) (username c)
                  (enableMermaid c))
        (renderCounter s),
     []).

Definition next_renderCounter : M nat :=
  fun s => (Return (renderCounter s),
            St (clock s) (settings s) (S (renderCounter s)), []).

Definition lift_outcome {A} (o : outcome A) : M A :=
  match o with Return a => ret a | Throw e => throw e end.

Definition events_of {A} (r : outcome A * state * list event) : list event := snd r.
Definition result_of {A} (r : outcome A * state * list event) : outcome A := fst (fst r).
Definition state_of {A} (r : outcome A * state * list event) : state := snd (fst r).

End World.

Notation "x <- c ;; k" := (World.bind c (fun x => k))
  (at level 61, c at next level, right associativity).
Notation "c ;;; k" := (World.bind c (fun _ => k))
  (at level 61, right associativity).

(* ================================================================= *)
(** ** src/mermaidRenderer.ts: MermaidRenderer *)

Module Mermaid.

Import JS Regex World.

(** An entry of [mermaidData]. *)
Record item : Type := Item {
  index : nat;
  svg : option string;     (* [string | null] *)
  code : string
}.

(** [if (v)] on a [string | null]. *)
Definition truthy_opt (v : option string) : bool :=
  match v with Some s => truthy s | None => false end.

Section WithEnv.
Context (E : env).

(** [renderToSvg].  The ways out, in the order of the source: no [document];
    [mermaid.parse] rejects; [mermaid.render] gives the image; the retry
    through [mermaid.init] leaves an [svg] element; the render error is
    thrown again and caught by the outer [catch], which logs
    [error.message || 'Unknown error'] and [error.stack] and returns [null],
    unless reading [message] throws. *)
Definition renderToSvg (code0 : string) : M (option string) :=
  emit (CallRender code0) ;;;
  n <- tick ;;
  let run := mermaid E n code0 in
  try_catch
    (if negb (document_available run) then ret None
     else
       _ <- next_renderCounter ;;
       if negb (parse_ok run) then ret None
       else
         try_catch
           (s <- lift_outcome (render run) ;; ret (Some s))
           (fun renderError =>
              match init_svg run with
              | Some s => ret (Some s)
              | None => throw renderError
              end))
    (fun error =>
       _ <- lift_outcome (message_or "Unknown error" error) ;;
       ret None).

(** The regex of [processMermaidBlocks], flag [g]: three backticks,
    [mermaid], a line feed, group 1 [[\s\S]*?] (lazy), three backticks. *)
Definition mermaidRegex : regex :=
  cats [lit "```mermaid"; Chr (is_char LF);
        Group 1 (Star false (Chr (fun _ => true))); lit "```"].

Definition placeholder (i : nat) : string :=
  "<!--MERMAID_PLACEHOLDER_" ++ of_nat i ++ "-->".

(** The [for (const { code, fullMatch } of matches)] loop. *)
Fixpoint process_matches (matches : list result) (index0 : nat)
         (processedMarkdown : string) (mermaidData : list item)
  : M (string * list item) :=
  match matches with
  | [] => ret (processedMarkdown, mermaidData)
  | m :: rest =>
      let code0 := trim (group m 1) in
      let fullMatch := matched m in
      s <- renderToSvg code0 ;;
      let entry :=
        if truthy_opt s then Item index0 s code0 else Item index0 None code0 in
      process_matches rest (S index0)
        (replace_str processedMarkdown fullMatch (placeholder index0))
        (mermaidData ++ [entry])%list
  end.

Definition processMermaidBlocks (markdown : string) : M (string * list item) :=
  process_matches (match_all mermaidRegex markdown) 0 markdown [].

End WithEnv.

(** [generateConfluenceMarkup(filename, code)] *)
Definition generateConfluenceMarkup (filename : option string) (code0 : string)
  : string :=
  if truthy_opt filename then
    "<ac:image ac:height=" ++ dq ++ "400" ++ dq ++ "><ri:attachment ri:filename=" ++
    dq ++ match filename with Some f => f | None => EmptyString end ++ dq ++
    " /></ac:image>"
  else
    "<ac:structured-macro ac:name=" ++ dq ++ "code" ++ dq ++ ">" ++ nl ++
    "                <ac:parameter ac:name=" ++ dq ++ "language" ++ dq ++
    ">mermaid</ac:parameter>" ++ nl ++
    "                <ac:parameter ac:name=" ++ dq ++ "title" ++ dq ++
    ">Mermaid Diagram</ac:parameter>" ++ nl ++
    "                <ac:plain-text-body><![CDATA[" ++ code0 ++
    "]]></ac:plain-text-body>" ++ nl ++
    "            </ac:structured-macro>".

End Mermaid.

(* ================================================================= *)
(** ** unnamed/part_002 (./simpleConverter): SimpleConfluenceConverter *)

Module Simple.

Import JS Regex World.

(** The value [convert] resolves to. *)
Record converted : Type := Converted {
  html : string;
  mermaidData : option (list Mermaid.item)     (* an array, or [null] *)
}.

(** The regexes of the clean-up at the end of [convert]; all carry the flags
    [gi]. *)

(** [<hr\s*>] and [<br\s*>] *)
Definition re_open (name : string) : regex :=
  cats [liti ("<" ++ name); Star true (Chr is_space); liti ">"].

(** [<hr\s*\/\s*>] and [<br\s*\/\s*>] *)
Definition re_slashed (name : string) : regex :=
  cats [liti ("<" ++ name); Star true (Chr is_space); liti "/";
        Star true (Chr is_space); liti ">"].

(** [<img([^>]+)(?<!\/)\s*>] *)
Definition re_img : regex :=
  cats [liti "<img"; Group 1 (Plus true (Chr (fun c => negb (is_char ">" c))));
        NotBehind (is_char "/"); Star true (Chr is_space); liti ">"].

(** [<\/hr>] and [<\/br>] *)
Definition re_closing (name : string) : regex := liti ("</" ++ name ++ ">").

(** The chain of [replace] calls applied to [cleaned]. *)
Definition cleanup (cleaned : string) : string :=
  let cleaned := replace_all (re_open "hr") "<hr/>" cleaned in
  let cleaned := replace_all (re_slashed "hr") "<hr/>" cleaned in
  let cleaned := replace_all (re_open "br") "<br/>" cleaned in
  let cleaned := replace_all (re_slashed "br") "<br/>" cleaned in
  let cleaned := replace_all re_img "<img$1/>" cleaned in
  let cleaned := replace_all (re_closing "hr") "" cleaned in
  let cleaned := replace_all (re_closing "br") "" cleaned in
  cleaned.

(** The placeholder regex of [convert], flag [g]: the start marker, group 1
    [[\s\S]*?] (lazy), the end marker. *)
Definition mermaidPlaceholderRegex : regex :=
  cats [lit "<!--MERMAID_BLOCK_PLACEHOLDER_START-->";
        Group 1 (Star false (Chr (fun _ => true)));
        lit "<!--MERMAID_BLOCK_PLACEHOLDER_END-->"].

(** The value returned from the [catch] block. *)
Definition fallback (markdown : string) : converted :=
  Converted ("<p>" ++ replace_all (Chr (is_char LF)) "<br />" markdown ++ "</p>")
            None.

Section WithEnv.
Context (E : env).

(** [this.mermaidRenderer], set by the constructor exactly when
    [enableMermaid] holds. *)
Definition getMermaidRenderer : M (option unit) :=
  s <- get ;;
  ret (if enableMermaid (settings s) then Some tt else None).

(** The [try] block of [convert]. *)
Definition convert_try (markdown : string) : M converted :=
  renderer <- getMermaidRenderer ;;
  s <- get ;;
  start <-
    (match enableMermaid (settings s), renderer with
     | true, Some _ =>
         result <- Mermaid.processMermaidBlocks E markdown ;;
         ret (fst result, Some (snd result))
     | _, _ => ret (markdown, None)
     end) ;;
  let processedMarkdown := fst start in
  let data := snd start in
  parsed <- lift_outcome (marked_parse E processedMarkdown) ;;
  let parsed :=
    replace_all_with mermaidPlaceholderRegex
      (fun m => "<pre><code>mermaid" ++ nl ++ group m 1 ++ "</code></pre>")
      parsed in
  let cleaned := trim parsed in
  ret (Converted (cleanup cleaned) data).

Definition convert (markdown : string) : M converted :=
  try_catch (convert_try markdown) (fun _ => ret (fallback markdown)).

End WithEnv.

End Simple.

(* ================================================================= *)
(** ** unnamed/part_002: the renderer that the constructor configures *)

Module Renderer.
Import JS Regex.

(** The overrides that the constructor installs on the renderer of marked.
    A token is given by the fields that the override reads, the empty string
    standing for a field that is absent. *)

Definition languageMap : list (string * string) :=
  [("js", "javascript"); ("ts", "typescript"); ("tsx", "typescript");
   ("jsx", "javascript"); ("py", "python"); ("yml", "yaml"); ("yaml", "yaml");
   ("sh", "bash"); ("shell", "bash"); ("bash", "bash"); ("json", "javascript");
   ("xml", "xml"); ("html", "html"); ("css", "css"); ("sql", "sql");
   ("java", "java")].

Definition placeholder_start : string := "<!--MERMAID_BLOCK_PLACEHOLDER_START-->".
Definition placeholder_end : string := "<!--MERMAID_BLOCK_PLACEHOLDER_END-->".

(** [renderer.code] *)
Definition code (text raw lang : string) : string :=
  let code := or_else (or_else text raw) EmptyString in
  let lang := or_else lang "text" in
  if String.eqb (toLowerCase lang) "mermaid"
  then placeholder_start ++ code ++ placeholder_end
  else
    let mappedLang := or_else (Converter.lookup (toLowerCase lang) languageMap) lang in
    "<ac:structured-macro ac:name=" ++ dq ++ "code" ++ dq ++ ">" ++ nl ++
    "<ac:parameter ac:name=" ++ dq ++ "language" ++ dq ++ ">" ++ mappedLang ++
    "</ac:parameter>" ++ nl ++
    "<ac:parameter ac:name=" ++ dq ++ "linenumbers" ++ dq ++ ">true</ac:parameter>" ++ nl ++
    "<ac:plain-text-body><![CDATA[" ++ code ++ "]]></ac:plain-text-body>" ++ nl ++
    "</ac:structured-macro>".

(** [renderer.codespan] *)
Definition codespan (text raw : string) : string :=
  "<code>" ++ or_else (or_else text raw) EmptyString ++ "</code>".

(** [renderer.hr] and [renderer.br] *)
Definition hr : string := "<hr/>".
Definition br : string := "<br/>".

(** [renderer.image] *)
Definition image (href : string) : string :=
  "<ac:image><ri:url ri:value=" ++ dq ++ or_else href EmptyString ++ dq ++
  " /></ac:image>".

(** [renderer.listitem]: [inline] is what the parser makes of the inline
    tokens of the item, when it has any. *)
Definition checkbox (checked : bool) : string :=
  if checked
  then "<input type=" ++ dq ++ "checkbox" ++ dq ++ " checked=" ++ dq ++ "checked" ++
       dq ++ " disabled=" ++ dq ++ "disabled" ++ dq ++ " />"
  else "<input type=" ++ dq ++ "checkbox" ++ dq ++ " disabled=" ++ dq ++ "disabled" ++
       dq ++ " />".

Definition listitem (inline : option string) (text : string) (task checked : bool)
  : string :=
  let text :=
    match inline with
    | Some parsed => parsed
    | None => or_else text EmptyString
    end in
  let text := if task then checkbox checked ++ " " ++ text else text in
  "<li>" ++ text ++ "</li>" ++ nl.

(** The callback of [convert] for a block that came through marked between
    the two markers. *)
Definition preformatted (m : result) : string :=
  "<pre><code>mermaid" ++ nl ++ group m 1 ++ "</code></pre>".

End Renderer.

(* ================================================================= *)
(** ** src/confluenceApi.ts: ConfluenceAPI *)

Module Api.

Import JS World.

(** [catch (error) { if (error instanceof Error) throw error;
    throw new Error(prefix + error) }] *)
Definition rethrow {A} (prefix : string) (c : M A) : M A :=
  try_catch c (fun error =>
    if is_Error error then throw error
    else throw (Err (prefix ++ string_of error))).

(** [error.message] as a value, where it can be read (the empty string
    standing for [undefined]). *)
Definition message_of' (e : exn) : string :=
  match e with Err m => m | _ => EmptyString end.

Definition is_2xx (st : nat) : bool := Nat.leb 200 st && Nat.ltb st 300.

Section WithEnv.
Context (E : env).

(** [getAuthToken]: both branches return the token of the settings. *)
Definition getAuthToken (c : ConfluenceSettings) : string := apiToken c.

Definition headers_of (c : ConfluenceSettings) : outcome authorization :=
  let token := getAuthToken c in
  match authType c with
  | basic =>
      if negb (truthy (username c)) || negb (truthy token)
      then Throw (Err "Username and API token/password are required for Basic authentication. Please check settings.")
      else Return (Basic (username c) token)
  | bearer =>
      if negb (truthy token)
      then Throw (Err "API token not configured. Please check settings.")
      else Return (Bearer token)
  end.

(** [getHeaders] reads [this.settings]. *)
Definition getHeaders : M authorization :=
  s <- get ;;
  lift_outcome (headers_of (settings s)).

(** [requestUrl]: the environment answers; unless the call passes
    [throw: false], an answer with a status of 400 or more is thrown. *)
Definition requestUrl (throw_on_error : bool) (req : request) : M response :=
  n <- tick ;;
  let answer := http E n req in
  emit (Http req answer) ;;;
  match answer with
  | Return resp =>
      if throw_on_error && Nat.leb 400 (status resp)
      then throw (Err ("Request failed, status " ++ of_nat (status resp)))
      else ret resp
  | Throw e => throw e
  end.

Definition page_url (pageId : string) : M string :=
  s <- get ;;
  ret (baseUrl (settings s) ++ "/rest/api/content/" ++ pageId).

Definition getPage (pageId : string) : M ConfluencePage :=
  if negb (truthy pageId) then throw (Err "Page ID is required")
  else
    rethrow "Failed to fetch page: "
      (u <- page_url pageId ;;
       headers <- getHeaders ;;
       resp <- requestUrl true
                 (Req "GET" (u ++ "?expand=version,body.storage") headers NoBody) ;;
       if negb (Nat.eqb (status resp) 200)
       then throw (Err ("Failed to fetch page: " ++ of_nat (status resp) ++ " - " ++
                        text resp))
       else ret (page resp)).

(** The message built from a rejected update. *)
Definition update_error (resp : response) : string :=
  let errorMessage := "Failed to update page: " ++ of_nat (status resp) in
  let errorMessage :=
    if truthy (json_message resp)
    then errorMessage ++ ": " ++ json_message resp else errorMessage in
  if truthy (json_first_error resp)
  then errorMessage ++ ": " ++ json_first_error resp else errorMessage.

Definition updatePage (pageId content title0 : string) : M unit :=
  emit (CallUpdatePage pageId content) ;;;
  if negb (truthy pageId) then throw (Err "Page ID is required")
  else
    rethrow "Failed to update page: "
      (currentPage <- getPage pageId ;;
       let newVersion := plus_one (to_double (version_number currentPage)) in
       let pageTitle := or_else title0 (title currentPage) in
       let updateRequest := UpdateRequest newVersion pageTitle content in
       resp <-
         try_catch
           (u <- page_url pageId ;;
            headers <- getHeaders ;;
            requestUrl false (Req "PUT" u headers updateRequest))
           (fun networkError =>
              m <- lift_outcome (message_or_value networkError) ;;
              throw (Err ("Network error: " ++ m))) ;;
       if Nat.ltb (status resp) 200 || Nat.leb 300 (status resp)
       then throw (Err (update_error resp))
       else set_lastPageId pageId).

Definition uploadAttachment (pageId fileName content mimeType : string)
  : M string :=
  emit (CallUploadAttachment pageId fileName content) ;;;
  if negb (truthy pageId) || negb (truthy fileName) || negb (truthy content)
  then throw (Err "Page ID, file name, and content are required")
  else
    rethrow "Failed to upload attachment: "
      (headers <- getHeaders ;;
       s <- get ;;
       let base := baseUrl (settings s) in
       let checkUrl := base ++ "/rest/api/content/" ++ pageId ++
                       "/child/attachment?filename=" ++ fileName in
       let uploadUrl := base ++ "/rest/api/content/" ++ pageId ++
                        "/child/attachment?X-Atlassian-Token=nocheck" in
       resp <-
         try_catch
           (checkHeaders <- getHeaders ;;
            checkResponse <- requestUrl false (Req "GET" checkUrl checkHeaders NoBody) ;;
            (if Nat.eqb (status checkResponse) 200
                && Nat.ltb 0 (results_length checkResponse)
             then
               deleteHeaders <- getHeaders ;;
               deleteResponse <-
                 requestUrl false
                   (Req "DELETE"
                        (base ++ "/rest/api/content/" ++ first_result_id checkResponse)
                        deleteHeaders NoBody) ;;
               if negb (Nat.eqb (status deleteResponse) 204)
                  && negb (Nat.eqb (status deleteResponse) 200)
               then throw (Err ("Failed to delete existing attachment: " ++
                                of_nat (status deleteResponse)))
               else ret tt
             else ret tt) ;;;
            requestUrl false
              (Req "POST" uploadUrl headers (Multipart "file" fileName mimeType content)))
           (fun networkError =>
              m <- lift_outcome (message_or_value networkError) ;;
              throw (Err ("Network error: " ++ m))) ;;
       if String.eqb (text resp) "XSRF check failed" then
         try_catch
           (oldResponse <-
              requestUrl false
                (Req "POST"
                     (base ++ "/plugins/drag-and-drop/upload.action?pageId=" ++ pageId)
                     headers (Multipart "file-0" fileName mimeType content)) ;;
            if is_2xx (status oldResponse) then ret fileName
            else throw (Err ("Both upload endpoints failed. Old endpoint returned: " ++
                             of_nat (status oldResponse))))
           (fun oldError =>
              m <- lift_outcome (message_of oldError) ;;
              throw (Err ("XSRF check failed on modern API, old endpoint also failed: " ++
                          m)))
       else if Nat.eqb (status resp) 403 then
         throw (Err ("403 Forbidden: You don't have permission to add attachments to page " ++
                     pageId))
       else if Nat.ltb (status resp) 200 || Nat.leb 300 (status resp) then
         throw (Err ("Failed to upload attachment: " ++ of_nat (status resp) ++ " - " ++
                     text resp))
       else if Nat.ltb 0 (results_length resp) then ret fileName
       else throw (Err "No attachment created")).

(** [getPageUrl] *)
Definition getPageUrl (pageId : string) : M string :=
  s <- get ;;
  ret (baseUrl (settings s) ++ "/pages/viewpage.action?pageId=" ++ pageId).

(** [testConnection]; its request does not pass [throw: false]. *)
Definition testConnection : M bool :=
  rethrow "Unexpected error: "
    (headers <- getHeaders ;;
     s <- get ;;
     let u := baseUrl (settings s) ++ "/rest/api/content?limit=1" in
     response <- requestUrl true (Req "GET" u headers NoBody) ;;
     if is_2xx (status response) then ret true
     else if Nat.eqb (status response) 401 then
       throw (Err ("Authentication failed (401). " ++
                   match authType (settings s) with
                   | basic => "Check username and API token/password."
                   | bearer => "Check API token."
                   end))
     else if Nat.eqb (status response) 404 then
       throw (Err ("API endpoint not found (404). Check the base URL. Tried: " ++ u))
     else if Nat.eqb (status response) 403 then
       throw (Err "Access forbidden (403). You may not have permissions or the API might be disabled.")
     else throw (Err ("Connection failed with status " ++ of_nat (status response)))).

End WithEnv.

End Api.

(* ================================================================= *)
(** ** src/main.ts: ConfluenceUploadPlugin *)

Module Plugin.

Import JS World.

Section WithEnv.
Context (E : env).

Definition host_call (answer : nat -> option exn) (ev : event) : M unit :=
  n <- tick ;;
  emit ev ;;;
  match answer n with
  | Some e => throw e
  | None => ret tt
  end.

(** [saveSettings]: the host stores the settings; the API client and the
    converter are then built again from the same settings. *)
Definition saveSettings : M unit := host_call (saveData E) SaveData.

Definition filename_of (i : nat) : string := "mermaid-" ++ of_nat i ++ ".svg".

(** The body of [for (const item of mermaidData)]: the new value of
    [finalHtml]. *)
Definition resolve_item (pageId : string) (item : Mermaid.item)
           (finalHtml : string) : M string :=
  let slot := Mermaid.placeholder (Mermaid.index item) in
  let fallbackMarkup := Mermaid.generateConfluenceMarkup None (Mermaid.code item) in
  if Mermaid.truthy_opt (Mermaid.svg item) then
    try_catch
      (let filename := filename_of (Mermaid.index item) in
       _ <- Api.uploadAttachment E pageId filename
              (match Mermaid.svg item with Some s => s | None => EmptyString end)
              "image/svg+xml" ;;
       let attachmentMarkup :=
         Mermaid.generateConfluenceMarkup (Some filename) (Mermaid.code item) in
       ret (replace_str finalHtml slot attachmentMarkup))
      (fun attachError => ret (replace_str finalHtml slot fallbackMarkup))
  else ret (replace_str finalHtml slot fallbackMarkup).

Fixpoint resolve_items (pageId : string) (items : list Mermaid.item)
         (finalHtml : string) : M string :=
  match items with
  | [] => ret finalHtml
  | item :: rest =>
      finalHtml <- resolve_item pageId item finalHtml ;;
      resolve_items pageId rest finalHtml
  end.

(** The part of [performUpload] that publishes: from the conversion to the
    last [updatePage]. *)
Definition publish (pageId markdownContent : string) : M unit :=
  converted <- Simple.convert E markdownContent ;;
  let finalHtml := Simple.html converted in
  match Simple.mermaidData converted with
  | Some (first :: others) =>
      Api.updatePage E pageId finalHtml EmptyString ;;;
      mermaidRenderer <- Simple.getMermaidRenderer ;;
      match mermaidRenderer with
      | Some _ =>
          finalHtml <- resolve_items pageId (first :: others) finalHtml ;;
          Api.updatePage E pageId finalHtml EmptyString
      | None => ret tt
      end
  | _ => Api.updatePage E pageId finalHtml EmptyString
  end.

(** [performUpload]; the progress window is left out, and a [Notice]
    carries its text without the leading pictogram. *)
Definition performUpload (pageId markdownContent title0 : string) : M unit :=
  try_catch
    (publish pageId markdownContent ;;;
     set_lastPageId pageId ;;;
     saveSettings ;;;
     pageUrl <- Api.getPageUrl pageId ;;
     emit (Notice true "Page updated successfully!") ;;;
     host_call (clipboard E) (ClipboardWrite pageUrl) ;;;
     emit (Notice true "Page URL copied to clipboard"))
    (fun error =>
       m <- lift_outcome (message_or "Unknown error" error) ;;
       emit (Notice false ("Upload failed: " ++ m))).

End WithEnv.

End Plugin.

(* ================================================================= *)
(** ** unnamed/part_003 (./settings): ConfluenceSettingTab *)

Module SettingTab.

Import JS Regex World.

(** [/\/$/] *)
Definition re_trailing_slash : regex := cats [Chr (is_char "/"); Eol false].

(** What the handler of the base URL field stores for a typed value. *)
Definition normalize_baseUrl (value : string) : string :=
  replace_first re_trailing_slash EmptyString value.

Definition set_baseUrl (value : string) : M unit :=
  fun s =>
    let c := settings s in
    (Return tt,
     St (clock s)
        (Settings (apiToken c) value (useEnvironmentToken c) (defaultSpaceKey c)
                  (lastPageId c) (authType c) (username c) (enableMermaid c))
        (renderCounter s),
     []).

Section WithEnv.
Context (E : env).

(** The [onChange] handler of the base URL field. *)
Definition baseUrl_changed (value : string) : M unit :=
  set_baseUrl (normalize_baseUrl value) ;;;
  Plugin.saveSettings E.


(** The click handler of the Test button: one notice, by the outcome of
    [testConnection]; the label and the state of the button are left out,
    and a [Notice] carries its text without the leading pictogram. *)
Definition test_button : M unit :=
  try_catch
    (result <- Api.testConnection E ;;
     if (result : bool) then emit (Notice true "Connection successful!")
     else emit (Notice false "Connection failed. Please check your settings."))
    (fun error =>
       m <- lift_outcome (message_or "Unknown error" error) ;;
       emit (Notice false ("Connection failed: " ++ m))).

End WithEnv.

End SettingTab.

(* ================================================================= *)
(** ** Properties stated about the code, and sample inputs *)

Module ListSpec.

Import Converter.

(** The stack after the loop of [convertLists] has gone through [lines]. *)
Definition stack_after (lines : list string) : list frame :=
  snd (fold_left list_step lines ([], [])).

(** Indentation grows strictly from the bottom of the stack to its top (the
    head of the list). *)
Fixpoint increasing_to_top (stack : list frame) : Prop :=
  match stack with
  | [] => True
  | top :: rest =>
      match rest with
      | [] => True
      | below :: _ => indent below < indent top
      end /\ increasing_to_top rest
  end.

(** No two neighbours in the stack have the same kind and the same
    indentation. *)
Fixpoint adjacent_distinct (stack : list frame) : Prop :=
  match stack with
  | [] => True
  | top :: rest =>
      match rest with
      | [] => True
      | below :: _ => ~ (type top = type below /\ indent top = indent below)
      end /\ adjacent_distinct rest
  end.

End ListSpec.

Module TableSpec.

Import Converter.

(** The look-ahead of the loop of [convertTables]: [i + 1 < lines.length]
    and [lines[i + 1]] matches the separator pattern. *)
Definition separator_follows (lines : list string) (i : nat) : bool :=
  Nat.ltb (i + 1) (List.length lines)
  && is_separator (nth (i + 1) lines EmptyString).

(** How many output lines are exactly [tag]. *)
Definition count_tag (tag : string) (out : list string) : nat :=
  count_occ string_dec out tag.

(** The loop of [convertTables] gets to line [i]: it stands there after
    some number of turns. *)
Definition reached (lines : list string) (i : nat) : Prop :=
  exists k, t_i (table_run k lines table_init) = i.

(** Line [i] is skipped by the [i++] of the header branch: the loop got to
    the line in front of it, a pipe-delimited line, and took line [i] as its
    separator. *)
Definition consumed (lines : list string) (i : nat) : Prop :=
  exists j, i = j + 1 /\ reached lines j
            /\ is_row (nth j lines EmptyString) = true
            /\ separator_follows lines j = true.

(** A document with two header rows, each followed by a separator line. *)
Definition two_headers : list string := ["| a |"; "|---|"; "| b |"; "|---|"].


End TableSpec.

Module CodeSpec.

Import JS Converter.

(** Whether [needle] occurs in [text]. *)
Definition occurs (needle text : string) : bool :=
  match find_first needle EmptyString text with
  | Some _ => true
  | None => false
  end.

(** A sentence with one inline code span, and a fenced block. *)
Definition inline_sample : string := "Call `f(x)` now".
Definition fenced_sample : string :=
  "```js" ++ nl ++ "let a = b * c;" ++ nl ++ "```".

End CodeSpec.

Module TraceSpec.

Import JS World.

(** The HTTP exchanges of a run, in order. *)
Definition https (evs : list event) : list (request * outcome response) :=
  flat_map (fun ev => match ev with Http r a => [(r, a)] | _ => [] end) evs.

(** The calls of a run into the renderer and the API client, in order. *)
Definition is_call (ev : event) : bool :=
  match ev with
  | CallRender _ | CallUpdatePage _ _ | CallUploadAttachment _ _ _ => true
  | _ => false
  end.

Definition calls (evs : list event) : list event := filter is_call evs.

(** The publish calls of a run: target id and content of every
    [updatePage]. *)
Definition publishes (evs : list event) : list (string * string) :=
  flat_map (fun ev => match ev with
                      | CallUpdatePage p c => [(p, c)]
                      | _ => []
                      end) evs.

(** The outcome of [updatePage] that goes with the answer to its PUT: the
    call returns on a 2xx status and throws on any other; a request that was
    rejected is reported as a network error, unless the rejection is [null]
    or [undefined], when the handler itself fails. *)
Definition update_outcome (answer : outcome response) : outcome unit :=
  match answer with
  | Return resp =>
      if Api.is_2xx (status resp) then Return tt
      else Throw (Err (Api.update_error resp))
  | Throw e =>
      match message_or_value e with
      | Return m => Throw (Err ("Network error: " ++ m))
      | Throw t => Throw t
      end
  end.

(** The address of a page under the base URL [base]. *)
Definition content_url (base pageId : string) : string :=
  base ++ "/rest/api/content/" ++ pageId.

(** The version number that an update carries when it has read the version
    [v]: the sum [v + 1] as JavaScript computes it. *)
Definition next_version (v : N) : option N := plus_one (to_double v).

(** The three shapes a run of [updatePage pageId content title0] may have,
    [base] being the base URL of the settings: it fails before any request;
    it fails on the read of the page; or it reads the page with status 200
    and then sends one PUT to the same page that carries the next version
    after the one just read, its outcome decided by the answer to that
    PUT. *)
Inductive update_shape (base pageId content title0 : string) (r : outcome unit)
  : list (request * outcome response) -> Prop :=
| shape_no_request :
    (exists e, r = Throw e) ->
    update_shape base pageId content title0 r []
| shape_read_failed (get : request) (a : outcome response) :
    method get = "GET" ->
    url get = content_url base pageId ++ "?expand=version,body.storage" ->
    (exists e, r = Throw e) ->
    (forall current, a = Return current -> status current <> 200) ->
    update_shape base pageId content title0 r [(get, a)]
| shape_read_then_write (get put : request) (current : response)
                        (a : outcome response) :
    method get = "GET" ->
    url get = content_url base pageId ++ "?expand=version,body.storage" ->
    status current = 200 ->
    method put = "PUT" ->
    url put = content_url base pageId ->
    payload put = UpdateRequest (next_version (version_number (page current)))
                                (or_else title0 (title (page current))) content ->
    r = update_outcome a ->
    update_shape base pageId content title0 r [(get, Return current); (put, a)].

End TraceSpec.

Module PipelineSpec.

Import JS World.

(** The diagram blocks of a source text, in document order: the trimmed
    body of every match of [mermaidRegex]. *)
Definition diagram_blocks (markdown : string) : list string :=
  map (fun m => trim (Regex.group m 1))
      (Regex.match_all Mermaid.mermaidRegex markdown).

(** [marked.parse] returns on every input. *)
Definition marked_total (E : env) : Prop :=
  forall x, exists h, marked_parse E x = Return h.

(** The diagrams that came out of conversion with an image. *)
Definition rendered (items : list Mermaid.item) : list Mermaid.item :=
  filter (fun it => Mermaid.truthy_opt (Mermaid.svg it)) items.

(** The upload attempt made for a diagram. *)
Definition upload_call (pageId : string) (it : Mermaid.item) : event :=
  CallUploadAttachment pageId (Plugin.filename_of (Mermaid.index it))
    (match Mermaid.svg it with Some v => v | None => EmptyString end).

(** The markup that takes the place of a diagram's placeholder: the image
    reference when the diagram has an image and its upload returned, the
    fallback code block otherwise. *)
Definition resolved_markup (it : Mermaid.item) (uploaded : bool) : string :=
  if Mermaid.truthy_opt (Mermaid.svg it) && uploaded
  then Mermaid.generateConfluenceMarkup
         (Some (Plugin.filename_of (Mermaid.index it))) (Mermaid.code it)
  else Mermaid.generateConfluenceMarkup None (Mermaid.code it).

Definition returned {A} (o : outcome A) : bool :=
  match o with Return _ => true | Throw _ => false end.

(** Whether the upload of a diagram, started in state [s], returns. *)
Definition uploaded (E : env) (pageId : string) (it : Mermaid.item) (s : state)
  : bool :=
  returned (result_of (Api.uploadAttachment E pageId
                         (Plugin.filename_of (Mermaid.index it))
                         (match Mermaid.svg it with
                          | Some v => v
                          | None => EmptyString
                          end)
                         "image/svg+xml" s)).

(** No [$] in a string: the replacement patterns of [String.replace] leave
    it alone. *)
Fixpoint dollar_free (s : string) : bool :=
  match s with
  | EmptyString => true
  | String c s' => negb (is_char "$" c) && dollar_free s'
  end.

End PipelineSpec.

Module Samples.

Import JS World.

Definition page0 : ConfluencePage := Page "123" "Note" 7.

Definition answer (st results : nat) : outcome response :=
  Return (Resp st EmptyString page0 EmptyString EmptyString results EmptyString).

(** A server that reads and updates pages, knows no attachment yet, and
    answers an attachment upload with [post_status]. *)
Definition server (post_status : nat) (n : nat) (req : request)
  : outcome response :=
  if String.eqb (method req) "POST" then answer post_status 1
  else if String.eqb (method req) "DELETE" then answer 204 0
  else answer 200 0.

Definition renders (n : nat) (code0 : string) : mermaid_run :=
  MermaidRun true true (Return "<svg/>") None.

Definition quiet (n : nat) : option exn := None.

(** A server whose page has gone through 2^53 revisions. *)
Definition old_page : ConfluencePage := Page "123" "Note" 9007199254740992.

Definition old_answer : outcome response :=
  Return (Resp 200 EmptyString old_page EmptyString EmptyString 0 EmptyString).

(** Everything works; [marked.parse] hands its input back. *)
Definition E_ok : env := Env (server 200) renders (fun x => Return x) quiet quiet.

Definition E_old : env :=
  Env (fun _ _ => old_answer) renders (fun x => Return x) quiet quiet.

(** [mermaid.render] is rejected with [null], and [mermaid.init] leaves no
    image. *)
Definition E_render_null : env :=
  Env (server 200) (fun _ _ => MermaidRun true true (Throw Null) None)
      (fun x => Return x) quiet quiet.

(** The host rejects the save of the settings with [undefined]. *)
Definition E_save_undefined : env :=
  Env (server 200) renders (fun x => Return x) (fun _ => Some Undefined) quiet.

(** Attachment uploads are refused with 403. *)
Definition E_forbidden : env :=
  Env (server 403) renders (fun x => Return x) quiet quiet.


Definition start (mermaid : bool) : state :=
  St 0 (Settings "token" "https://wiki.example" false EmptyString EmptyString
                 bearer EmptyString mermaid) 0.

Definition fence (body : string) : string :=
  "```mermaid" ++ nl ++ body ++ nl ++ "```".

Definition one_diagram : string := fence "graph TD; A-->B".

Definition two_diagrams : string :=
  fence "graph TD; A-->B" ++ nl ++ "and" ++ nl ++ fence "graph TD; C-->D".

(** A diagram whose label holds two dollar signs. *)
Definition priced_diagram : string := fence "graph TD; A[Cost in $$]-->B".

End Samples.

Module NormSpec.

Import JS Regex.

Fixpoint all_in (p : ascii -> bool) (s : string) : bool :=
  match s with
  | EmptyString => true
  | String c s' => p c && all_in p s'
  end.

Definition not_lt (c : ascii) : bool := negb (is_char "<" c).

(** Text without [<]: no tag starts in it. *)
Definition plain (s : string) : bool := all_in not_lt s.


(** [name] is [canonical] up to the case of its letters. *)
Fixpoint spelled (canonical name : string) : bool :=
  match canonical, name with
  | EmptyString, EmptyString => true
  | String x canonical', String c name' => is_char_i x c && spelled canonical' name'
  | _, _ => false
  end.


Definition ends_with_slash (s : string) : bool :=
  match last_char None s with Some c => is_char "/" c | None => false end.

(** What makes a [replace] pass easy to follow through a document: the
    regex looks at nothing in front of the position it is tried at, it can
    only match at a [<], and the template uses neither the text before the
    match nor the text after it. *)
Definition tag_pass (r : regex) (tpl : string) : Prop :=
  (forall prev prev' s, exec_at r prev s = exec_at r prev' s) /\
  (forall prev c s, not_lt c = true -> exec_at r prev (String c s) = None) /\
  (forall m b a g b' a',
     get_substitution m b a g tpl = get_substitution m b' a' g tpl).

(** The scan behind [replace_all], from any point of the input. *)
Definition subst_hit (tpl before : string) (m : result) : string :=
  get_substitution (matched m) before (after m) (groups m) tpl.

Definition keep (c : ascii) : string := String c EmptyString.

Definition rescan (r : regex) (tpl : string) (skip : nat) (before s : string)
  : string :=
  concat_all (scan r (subst_hit tpl) keep skip before s).

End NormSpec.

Module ScanSpec.

Import JS Regex.

(** The 256 code units of the model. *)
Definition all_ascii : list ascii := map ascii_of_nat (seq 0 256).

(** A computable reason for a regex to match nowhere in a text whose
    characters all satisfy [P]: whichever way the match goes, it has to take
    a character that [P] excludes. *)
Fixpoint needs (P : ascii -> bool) (r : regex) : bool :=
  match r with
  | Chr p => forallb (fun c => negb (P c && p c)) all_ascii
  | Cat r1 r2 => needs P r1 || needs P r2
  | Group _ r1 => needs P r1
  | _ => false
  end.

(** What a scan makes of a text in which nothing matches. *)
Fixpoint chars {A : Type} (keep : ascii -> A) (s : string) : list A :=
  match s with
  | EmptyString => []
  | String c s' => keep c :: chars keep s'
  end.

(** [p] is a prefix of [s], up to the case of the letters. *)
Fixpoint prefix_ci (p s : string) : bool :=
  match p, s with
  | EmptyString, _ => true
  | String a p', String b s' => is_char_i a b && prefix_ci p' s'
  | String _ _, EmptyString => false
  end.

End ScanSpec.

Module EscapeSpec.

Import JS Regex Converter.

(** The characters that [escapeHtml] rewrites, and those among them that
    could open or close a tag or an attribute value. *)
Definition is_special (c : ascii) : bool :=
  is_char "&" c || is_char "<" c || is_char ">" c
  || Ascii.eqb c (ascii_of_nat 34) || is_char "'" c.

Definition is_markup_char (c : ascii) : bool :=
  is_char "<" c || is_char ">" c || Ascii.eqb c (ascii_of_nat 34) || is_char "'" c.

(** The scan of [escapeHtml], from any point of the text. *)
Definition escape_run (before s : string) : string :=
  concat_all (scan re_escape
                (fun _ m => match matched m with
                            | String c _ => escapeMap c
                            | EmptyString => EmptyString
                            end)
                (fun c => String c EmptyString) 0 before s).

(** The placeholder minted when the counter stands at [i]. *)
Definition placeholder_of (i : nat) : string := "__CODEBLOCK_" ++ of_nat i ++ "__".

(** The keys of [codeBlocks] are the placeholders minted so far, in order. *)
Definition keys_in_order (st : state) : Prop :=
  map fst (codeBlocks st) = map placeholder_of (seq 0 (codeBlockCounter st)).

End EscapeSpec.

Module NestingSpec.

Import JS Converter.

(** The lines of the output of [convertLists], before they are joined. *)
Definition list_lines (lines : list string) : list string :=
  let '(result, stack) := fold_left list_step lines ([], []) in
  close_all result stack.

(** An output line that opens ([true]) or closes ([false]) a list. *)
Definition list_tag (line : string) : option (bool * list_type) :=
  if String.eqb line "<ul>" then Some (true, ul)
  else if String.eqb line "<ol>" then Some (true, ol)
  else if String.eqb line "</ul>" then Some (false, ul)
  else if String.eqb line "</ol>" then Some (false, ol)
  else None.

(** Reading the output lines in order, with the lists open so far (the
    innermost first): a closing tag must close the innermost open list. *)
Fixpoint nesting (out : list string) (open : list list_type)
  : option (list list_type) :=
  match out with
  | [] => Some open
  | line :: rest =>
      match list_tag line with
      | Some (true, t) => nesting rest (t :: open)
      | Some (false, t) =>
          match open with
          | t' :: below => if list_type_eqb t t' then nesting rest below else None
          | [] => None
          end
      | None => nesting rest open
      end
  end.

(** The invariant of the loop of [convertLists]: the output so far is well
    nested, and the lists it leaves open are those of the stack. *)
Definition agrees (st : list_state) : Prop :=
  nesting (fst st) [] = Some (map type (snd st)).

(** A line whose first character after the leading white space is neither
    a bullet nor a digit. *)
Definition is_bullet (c : ascii) : bool :=
  is_char "-" c || is_char "*" c || is_char "+" c.

Definition no_marker (line : string) : bool :=
  match trim_start line with
  | EmptyString => true
  | String c _ => negb (is_bullet c) && negb (is_digit c)
  end.

(** An output line that opens ([true]) or closes ([false]) a table. *)
Definition table_tag (line : string) : option bool :=
  if String.eqb line "<table>" then Some true
  else if String.eqb line "</table>" then Some false
  else None.

(** Reading the output lines in order, [inside] telling whether a table is
    open: a table is opened only outside a table and closed only inside
    one. *)
Fixpoint table_nesting (out : list string) (inside : bool) : option bool :=
  match out with
  | [] => Some inside
  | line :: rest =>
      match table_tag line with
      | Some true => if inside then None else table_nesting rest true
      | Some false => if inside then table_nesting rest false else None
      | None => table_nesting rest inside
      end
  end.

(** A row written out from its cells, and a cell without a bar. *)
Definition row_of (cells : list string) : string := "|" ++ join "|" cells ++ "|".

Definition no_bar (cell : string) : bool :=
  NormSpec.all_in (fun c => negb (is_char "|" c)) cell.

End NestingSpec.

Module ProseSpec.

Import JS Regex Converter NormSpec.

(** The characters that start or make up a Markdown construct for the
    converter, the line feed among them. *)
Definition is_markup (c : ascii) : bool :=
  is_char "#" c || is_char "*" c || is_char "_" c || is_char "~" c
  || is_char "[" c || is_char "!" c || is_char "-" c || is_char ">" c
  || is_char "+" c || is_char "|" c || is_char "<" c || is_char "`" c
  || is_char LF c.

(** Prose: no markup character and, so that the text does not read as an
    item of an ordered list, no full stop or no digit. *)
Definition no_stop (c : ascii) : bool := negb (is_markup c) && negb (is_char "." c).
Definition no_digit (c : ascii) : bool := negb (is_markup c) && negb (is_digit c).

Definition prose (s : string) : bool := all_in no_stop s || all_in no_digit s.

(** The regexes that [convert] runs before it wraps the paragraph. *)
Definition markdown_regexes : list regex :=
  [re_fenced; re_inline;
   re_heading "######"; re_heading "#####"; re_heading "####"; re_heading "###";
   re_heading "##"; re_heading "#";
   re_delimited "***"; re_delimited "**"; re_delimited "*";
   re_delimited "___"; re_delimited "__"; re_delimited "_"; re_delimited "~~";
   re_link; re_image; re_rule "-"; re_rule "*"; re_blockquote;
   re_unordered; re_ordered; re_row; re_blank_lines; re_newline].

End ProseSpec.

Module EffectSpec.

Import JS World TraceSpec.

Definition is_notice (ev : event) : bool :=
  match ev with Notice _ _ => true | _ => false end.

(** What the user and the host see of a run: notices, saved settings,
    clipboard writes. *)
Definition is_host (ev : event) : bool :=
  match ev with
  | Notice _ _ | SaveData | ClipboardWrite _ => true
  | _ => false
  end.

Definition host_events (evs : list event) : list event := filter is_host evs.

(** Every event of every run of [c] satisfies [P]. *)
Definition only {A : Type} (P : event -> bool) (c : M A) : Prop :=
  forall s, forallb P (events_of (c s)) = true.

(** The settings with [lastPageId] replaced. *)
Definition with_lastPageId (c : ConfluenceSettings) (pageId : string)
  : ConfluenceSettings :=
  Settings (apiToken c) (baseUrl c) (useEnvironmentToken c) (defaultSpaceKey c)
           pageId (authType c) (username c) (enableMermaid c).

(** Every run of [c] leaves the settings as they are. *)
Definition keeps_settings {A : Type} (c : M A) : Prop :=
  forall s, settings (state_of (c s)) = settings s.

(** The last element of a list. *)
Definition final {A : Type} (l : list A) : option A :=
  match rev l with x :: _ => Some x | [] => None end.

(** The events of the API client. *)
Definition api_event (ev : event) : bool :=
  match ev with
  | Http _ _ | CallUpdatePage _ _ | CallUploadAttachment _ _ _ => true
  | _ => false
  end.

(** An event that neither the user nor the host sees. *)
Definition inner_event (ev : event) : bool := negb (is_host ev).

(** The notice shown when [performUpload] fails with [e]. *)
Definition upload_failed (e : exn) : event :=
  Notice false ("Upload failed: " ++ or_else (Api.message_of' e) "Unknown error").

(** What the [catch] of [performUpload] shows for the thrown value [e], and
    how the call ends: the failure notice, and the call returns; but when
    [e] is [null] or [undefined] the handler fails on reading [e.message],
    so there is no notice and the call throws a [TypeError]. *)
Definition failure_notice (e : exn) : list event :=
  if nullish e then [] else [upload_failed e].

Definition failure_result (e : exn) : outcome unit :=
  if nullish e then Throw (type_error e "message") else Return tt.

(** Whatever a run of [c] throws is an [Error]. *)
Definition throws_errors {A : Type} (c : M A) : Prop :=
  forall s e, result_of (c s) = Throw e -> is_Error e = true.

(** What a run may do to the settings: nothing, or set [lastPageId] to
    [pageId]. *)
Definition touched (pageId : string) (c c' : ConfluenceSettings) : Prop :=
  c' = c \/ c' = with_lastPageId c pageId.

Definition within {A : Type} (pageId : string) (c : M A) : Prop :=
  forall s, touched pageId (settings s) (settings (state_of (c s))).

(** The methods of the requests of a run, in order. *)
Definition methods (evs : list event) : list string :=
  map (fun x => method (fst x)) (https evs).

(** The request sequences of [uploadAttachment]: the check; the removal of
    an attachment of the same name; the upload; the upload again through
    the older endpoint. *)
Definition upload_sequences : list (list string) :=
  [[]; ["GET"]; ["GET"; "DELETE"]; ["GET"; "POST"]; ["GET"; "DELETE"; "POST"];
   ["GET"; "POST"; "POST"]; ["GET"; "DELETE"; "POST"; "POST"]].

(** What one call of [renderToSvg] resolves to, by what the mermaid library
    and the DOM do during it. *)
Definition svg_of (run : mermaid_run) : option string :=
  if negb (document_available run) then None
  else if negb (parse_ok run) then None
  else match render run with
       | Return s => Some s
       | Throw _ => init_svg run
       end.

(** What one call of [renderToSvg] throws, if it throws: the [TypeError] of
    its outer [catch], when [mermaid.render] was rejected with [null] or
    [undefined] and [mermaid.init] left no image. *)
Definition render_failure (run : mermaid_run) : option exn :=
  if document_available run && parse_ok run then
    match render run, init_svg run with
    | Throw e, None => if nullish e then Some (type_error e "message") else None
    | _, _ => None
    end
  else None.

Definition render_outcome (run : mermaid_run) : outcome (option string) :=
  match render_failure run with
  | Some t => Throw t
  | None => Return (svg_of run)
  end.

(** The notices of a run. *)
Definition notices (evs : list event) : list event := filter is_notice evs.

(** A state whose settings hold no API token. *)
Definition start_without_token : state :=
  St 0 (Settings EmptyString "https://wiki.example" false EmptyString EmptyString
                 bearer EmptyString true) 0.

End EffectSpec.

Module BlockSpec.

Import JS Regex NormSpec ScanSpec.

(** The text at this point starts, up to case, like a tag that the clean-up
    of [convert] looks for. *)
Definition void_start (s : string) : bool :=
  prefix_ci "<hr" s || prefix_ci "<br" s || prefix_ci "<img" s
  || prefix_ci "</hr>" s || prefix_ci "</br>" s.

(** No such start anywhere in the text. *)
Fixpoint no_void (s : string) : bool :=
  negb (void_start s)
  && match s with
     | EmptyString => true
     | String _ s' => no_void s'
     end.

Definition no_tick (c : ascii) : bool := negb (is_char "`" c).

(** A diagram block: the opening fence, the lines of the diagram, and the
    closing fence right behind them. *)
Definition diagram (inner : string) : string :=
  "```mermaid" ++ nl ++ inner ++ "```".

End BlockSpec.

Module TagSpec.

Import JS Regex NormSpec ScanSpec BlockSpec.




Inductive void : Type := hr | br.

Definition void_name (v : void) : string :=
  match v with hr => "hr" | br => "br" end.

(** A tag of one of the three elements, as a document may spell it. *)
Inductive tag : Type :=
| Open (v : void) (name ws : string)           (* [<hr>], [<BR  >] *)
| Slashed (v : void) (name ws ws' : string)    (* [<hr/>], [<br / >] *)
| Closing (v : void) (name : string)           (* [</hr>] *)
| Image (img attrs : string)                   (* [<img src=a>], [<img src=a />] *)
| BareImage (img : string)                     (* [<img>] *)
| ClosingImage (img : string).                 (* [</img>] *)

Definition written (t : tag) : string :=
  match t with
  | Open _ name ws => "<" ++ name ++ ws ++ ">"
  | Slashed _ name ws ws' => "<" ++ name ++ ws ++ "/" ++ ws' ++ ">"
  | Closing _ name => "</" ++ name ++ ">"
  | Image img attrs => "<" ++ img ++ attrs ++ ">"
  | BareImage img => "<" ++ img ++ ">"
  | ClosingImage img => "</" ++ img ++ ">"
  end.


(** What the clean-up makes of a tag. *)
Definition cleaned (t : tag) : string :=
  match t with
  | Open v _ _ | Slashed v _ _ _ => "<" ++ void_name v ++ "/>"
  | Closing _ _ => EmptyString
  | Image img attrs =>
      if ends_with_slash attrs then "<" ++ img ++ attrs ++ ">"
      else "<img" ++ attrs ++ "/>"
  | BareImage img => "<" ++ img ++ ">"
  | ClosingImage img => "</" ++ img ++ ">"
  end.

(** A document: tags of the three elements, each behind a stretch of other
    text, and the text behind the last of them. *)
Fixpoint source (d : list (string * tag)) (rest : string) : string :=
  match d with
  | [] => rest
  | (pre, t) :: d' => pre ++ written t ++ source d' rest
  end.

Fixpoint normal (d : list (string * tag)) (rest : string) : string :=
  match d with
  | [] => rest
  | (pre, t) :: d' => pre ++ cleaned t ++ normal d' rest
  end.


(** A converted note: headings, paragraphs, a table cell and an image
    macro around tags in several spellings. *)
Definition sample_document : list (string * tag) :=
  [("<h1>Notes</h1><p>first", Open br "BR" " ");
   ("second</p>", Slashed hr "hr" " " " ");
   ("<table><tr><td>", Image "img" " src=a.png");
   ("", ClosingImage "img");
   ("</td><td>", Image "IMG" " src=b.png /");
   ("</td><td>", BareImage "img");
   ("</td></tr></table><p>end", Closing br "br")].

Definition sample_rest : string := "</p><ac:image/>".

End TagSpec.

Module HeadingSpec.
Import JS Regex Converter NormSpec.

(** [n] number signs, and the digit of a heading level. *)
Fixpoint marks (n : nat) : string :=
  match n with
  | O => EmptyString
  | S n' => String "#" (marks n')
  end.

Definition level_digit (n : nat) : ascii := ascii_of_nat (48 + n).

(** A heading line made of number signs, one space and a title; and the
    element of that level around the title. *)
Definition heading_line (n : nat) (title : string) : string :=
  marks n ++ " " ++ title.

Definition heading_element (n : nat) (title : string) : string :=
  "<h" ++ String (level_digit n) (">" ++ title ++ "</h" ++ String (level_digit n) ">").

(** The characters of a plain title: no markup character, no full stop, no
    line terminator. *)
Definition title_char (c : ascii) : bool :=
  ProseSpec.no_stop c && negb (is_line_terminator c).

Definition same_line (c : ascii) : bool := negb (is_line_terminator c).

(** The characters of a heading line, and those of a heading element. *)
Definition line_char (c : ascii) : bool := title_char c || is_char "#" c.

Definition element_char (c : ascii) : bool :=
  title_char c || is_char "<" c || is_char ">" c || is_char "/" c.

(** The regexes that need a character no heading element holds. *)
Definition inline_regexes : list regex :=
  [re_heading "######"; re_heading "#####"; re_heading "####"; re_heading "###";
   re_heading "##"; re_heading "#";
   re_delimited "***"; re_delimited "**"; re_delimited "*";
   re_delimited "___"; re_delimited "__"; re_delimited "_"; re_delimited "~~";
   re_link; re_image; re_rule "-"; re_rule "*";
   re_unordered; re_ordered; re_row; re_blank_lines; re_newline].

End HeadingSpec.

(* ================================================================= *)
(** * Theorems *)

Module ListFacts.

Import Converter ListSpec.

Lemma increasing_tail (top : frame) (rest : list frame) :
  increasing_to_top (top :: rest) -> increasing_to_top rest.
Proof. simpl. tauto. Qed.

Lemma increasing_distinct (stack : list frame) :
  increasing_to_top stack -> adjacent_distinct stack.
Proof.
  induction stack as [|top rest IH]; simpl; [trivial|].
  intros [Hlt Hrest]. split; [|auto].
  destruct rest as [|below rest']; [trivial|].
  intros [_ Heq]. lia.
Qed.

(** [close_deeper] leaves an increasing stack whose top, if any, is not
    deeper than the new item. *)
Lemma close_deeper_spec (n : nat) (stack : list frame) (result : list string) :
  increasing_to_top stack ->
  let stack' := snd (close_deeper n result stack) in
  increasing_to_top stack' /\
  match stack' with
  | [] => True
  | top :: _ => indent top <= n
  end.
Proof.
  revert result. induction stack as [|top below IH]; intros result Hinc; simpl.
  - split; trivial.
  - destruct (Nat.ltb n (indent top)) eqn:Hcmp.
    + apply IH. exact (increasing_tail _ _ Hinc).
    + apply Nat.ltb_ge in Hcmp. simpl. split; [exact Hinc | exact Hcmp].
Qed.

Lemma handleListItem_spec (st : list_state) (t : list_type) (n : nat) (text : string) :
  increasing_to_top (snd st) ->
  let stack' := snd (handleListItem st t n text) in
  increasing_to_top stack' /\ hd_error stack' = Some (Frame t n).
Proof.
  intros Hinc. unfold handleListItem.
  pose proof (close_deeper_spec n (snd st) (fst st) Hinc) as Hclose.
  destruct (close_deeper n (fst st) (snd st)) as [result stack]. simpl in Hclose.
  destruct Hclose as [Hinc' Htop].
  destruct stack as [|top below]; simpl.
  - split; [split|]; trivial.
  - destruct (Nat.ltb (indent top) n) eqn:Hlt; simpl.
    + apply Nat.ltb_lt in Hlt. split; [|reflexivity]. split; [exact Hlt | exact Hinc'].
    + apply Nat.ltb_ge in Hlt.
      assert (Heq : indent top = n) by lia.
      destruct (list_type_eqb (type top) t) eqn:Hty; simpl.
      * split; [exact Hinc'|].
        destruct top as [ty ind]; simpl in *. subst ind.
        destruct ty, t; simpl in Hty; try discriminate; reflexivity.
      * split; [|reflexivity].
        simpl in Hinc'. destruct Hinc' as [Hbelow Hrest].
        split; [|exact Hrest].
        destruct below as [|b below']; [trivial | lia].
Qed.

Lemma list_step_increasing (st : list_state) (line : string) :
  increasing_to_top (snd st) -> increasing_to_top (snd (list_step st line)).
Proof.
  intros Hinc. unfold list_step. destruct (classify line) as [t n text|].
  - apply handleListItem_spec. exact Hinc.
  - simpl. trivial.
Qed.

Lemma fold_list_step_increasing (lines : list string) (st : list_state) :
  increasing_to_top (snd st) ->
  increasing_to_top (snd (fold_left list_step lines st)).
Proof.
  revert st. induction lines as [|line rest IH]; intros st Hinc; simpl.
  - exact Hinc.
  - apply IH. apply list_step_increasing. exact Hinc.
Qed.

(** C5. After the loop of [convertLists] has processed any line of any
    input ([before] are the lines in front of it), the stack of open lists
    has strictly increasing indentation from bottom to top, no two adjacent
    frames agree on both kind and indentation, the stack is empty when the
    line is not a list item, and its top is the frame of the item when it is
    one. *)
Theorem C5_list_stack_invariant (before : list string) (line : string) :
  let stack := stack_after (before ++ [line]) in
  increasing_to_top stack /\
  adjacent_distinct stack /\
  match classify line with
  | Other => stack = []
  | Item t n _ => hd_error stack = Some (Frame t n)
  end.
Proof.
  intros stack.
  assert (Hinc : increasing_to_top stack).
  { apply fold_list_step_increasing. simpl. trivial. }
  split; [exact Hinc|]. split; [apply increasing_distinct; exact Hinc|].
  unfold stack, stack_after. rewrite fold_left_app. simpl.
  set (st := fold_left list_step before ([], [])).
  assert (Hst : increasing_to_top (snd st)).
  { apply fold_list_step_increasing. simpl. trivial. }
  unfold list_step. destruct (classify line) as [t n text|].
  - apply handleListItem_spec. exact Hst.
  - reflexivity.
Qed.

End ListFacts.

Module TableFacts.

Import JS Converter TableSpec.

Lemma table_step_advances (lines : list string) (st : table_state) :
  t_i st < t_i (table_step lines st).
Proof.
  unfold table_step.
  destruct (is_row _); [destruct (_ && _); [|destruct (t_inTable st)]
                       | destruct (t_inTable st)]; simpl; lia.
Qed.




Lemma table_run_index (lines : list string) (fuel : nat) (st : table_state) :
  t_i st + fuel <= t_i (table_run fuel lines st)
  \/ List.length lines <= t_i (table_run fuel lines st).
Proof.
  revert st. induction fuel as [|fuel IH]; intros st; simpl.
  - left. lia.
  - destruct (Nat.ltb (t_i st) (List.length lines)) eqn:Hlt.
    + pose proof (table_step_advances lines st) as Hadv.
      destruct (IH (table_step lines st)) as [H|H]; [left; lia | right; exact H].
    + apply Nat.ltb_ge in Hlt. right. exact Hlt.
Qed.

(** The fuel given by [table_lines] is enough: the loop has left through its
    guard [i < lines.length]. *)
Lemma table_run_finishes (lines : list string) :
  List.length lines <= t_i (table_run (List.length lines) lines table_init).
Proof.
  destruct (table_run_index lines (List.length lines) table_init) as [H|H];
    simpl in *; lia.
Qed.








(** C7. On a document where a second pipe-delimited row followed by a
    separator comes while the table is still open, [convertTables] emits one
    [<table>] holding two header rows, [</thead>] twice and [<tbody>] twice
    under a single [<thead>]. *)
Theorem C7_second_header_in_open_table :
  table_lines two_headers
  = ["<table>"; "<thead>"; "<tr>"; "<th>a</th>"; "</tr>"; "</thead>"; "<tbody>";
     "<tr>"; "<th>b</th>"; "</tr>"; "</thead>"; "<tbody>";
     "</tbody>"; "</table>"] /\
  count_tag "<table>" (table_lines two_headers) = 1 /\
  count_tag "<thead>" (table_lines two_headers) = 1 /\
  count_tag "</thead>" (table_lines two_headers) = 2 /\
  count_tag "<th>b</th>" (table_lines two_headers) = 1.
Proof. vm_compute. repeat split. Qed.

End TableFacts.

Module CodeFacts.

Import JS Converter CodeSpec.

(** The placeholder minted for a code span is itself bold syntax. *)
Lemma placeholder_is_rewritten :
  extractCodeBlocks inline_sample (State 0 [])
  = ("Call __CODEBLOCK_0__ now",
     State 1 [("__CODEBLOCK_0__", "<code>f(x)</code>")]) /\
  convertMarkdownToConfluence "Call __CODEBLOCK_0__ now"
  = "<p>Call <strong>CODEBLOCK_0</strong> now</p>".
Proof. vm_compute. split; reflexivity. Qed.

(** C4. [convert] loses code: the bold rule rewrites the placeholder
    [__CODEBLOCK_0__] before [restoreCodeBlocks] looks for it, so neither the
    inline span [f(x)] nor the fenced line [let a = b * c;] reaches the
    output. *)
Theorem C4_code_is_lost :
  convert inline_sample = "<p>Call <strong>CODEBLOCK_0</strong> now</p>" /\
  occurs "f(x)" (convert inline_sample) = false /\
  convert fenced_sample = "<strong>CODEBLOCK_0</strong>" /\
  occurs "let a = b * c;" (convert fenced_sample) = false.
Proof. vm_compute. repeat split. Qed.

End CodeFacts.

Module NormFacts.

Import JS Regex Simple NormSpec.

Lemma append_assoc (a b c : string) : (a ++ b) ++ c = a ++ (b ++ c).
Proof. induction a as [|x a IH]; cbn; [reflexivity | now rewrite IH]. Qed.

Lemma append_nil_r (a : string) : a ++ "" = a.
Proof. induction a as [|x a IH]; cbn; [reflexivity | now rewrite IH]. Qed.

Lemma length_append (a b : string) :
  String.length (a ++ b) = String.length a + String.length b.
Proof. induction a as [|x a IH]; cbn; [reflexivity | now rewrite IH]. Qed.

Lemma take_append (a b : string) :
  take (String.length (a ++ b) - String.length b) (a ++ b) = a.
Proof.
  rewrite length_append.
  replace (String.length a + String.length b - String.length b)
    with (String.length a) by lia.
  induction a as [|x a IH]; cbn; [now destruct b | now rewrite IH].
Qed.

(** The equations of the matcher that the proofs step through. *)
Lemma rmatch_cat r1 r2 st k :
  rmatch (Cat r1 r2) st k = rmatch r1 st (fun st1 => rmatch r2 st1 k).
Proof. reflexivity. Qed.

Lemma rmatch_chr_hit p prev c s caps k :
  p c = true ->
  rmatch (Chr p) (MState prev (String c s) caps) k = k (MState (Some c) s caps).
Proof. intros H. cbn. now rewrite H. Qed.

Lemma rmatch_chr_miss p prev c s caps k :
  p c = false ->
  rmatch (Chr p) (MState prev (String c s) caps) k = None.
Proof. intros H. cbn. now rewrite H. Qed.

Lemma rmatch_star_cons p prev c s caps k :
  rmatch (Star true (Chr p)) (MState prev (String c s) caps) k
  = if p c
    then first_of (rmatch (Star true (Chr p)) (MState (Some c) s caps) k)
                  (k (MState prev (String c s) caps))
    else k (MState prev (String c s) caps).
Proof.
  cbn. destruct (p c); [|reflexivity].
  assert (H : Nat.ltb (String.length s) (S (String.length s)) = true)
    by (apply Nat.ltb_lt; lia).
  cbn in H. rewrite H. reflexivity.
Qed.



(** A pass that satisfies [tag_pass], followed through a document. *)
Section ScanFacts.
Context (r : regex) (tpl : string).
Hypothesis Hpass : tag_pass r tpl.

Let Hprev := proj1 Hpass.
Let Hstart := proj1 (proj2 Hpass).
Let Hsub := proj2 (proj2 Hpass).

Lemma replace_all_rescan s : replace_all r tpl s = rescan r tpl 0 EmptyString s.
Proof. reflexivity. Qed.

(** The scan does not depend on the text already gone through. *)
Lemma rescan_before s :
  forall skip b b', rescan r tpl skip b s = rescan r tpl skip b' s.
Proof.
  unfold rescan.
  induction s as [|c s IH]; intros skip b b'; destruct skip as [|n]; cbn [scan].
  - rewrite (Hprev (last_char None b) (last_char None b')).
    destruct (exec_at r (last_char None b') EmptyString) as [m|]; [|reflexivity].
    cbn. unfold subst_hit. now rewrite (Hsub _ b _ _ b' (after m)).
  - reflexivity.
  - rewrite (Hprev (last_char None b) (last_char None b')).
    destruct (exec_at r (last_char None b') (String c s)) as [m|].
    + cbn [concat_all fold_right]. unfold subst_hit at 1 3.
      rewrite (Hsub _ b _ _ b' (after m)). f_equal.
      destruct (String.length (matched m)); cbn [concat_all fold_right].
      * f_equal. apply IH.
      * apply IH.
    + cbn [concat_all fold_right]. f_equal. apply IH.
  - apply IH.
Qed.

Lemma rescan_text pre : forall rest b,
  all_in not_lt pre = true ->
  rescan r tpl 0 b (pre ++ rest) = pre ++ rescan r tpl 0 EmptyString rest.
Proof.
  induction pre as [|c pre IH]; intros rest b Hall.
  - cbn [String.append]. apply rescan_before.
  - cbn in Hall. apply andb_true_iff in Hall as [Hc Hpre].
    cbn [String.append]. unfold rescan at 1. cbn [scan].
    rewrite (Hstart _ c (pre ++ rest) Hc). cbn [concat_all fold_right].
    unfold keep at 1. cbn [String.append]. f_equal.
    apply (IH rest _ Hpre).
Qed.



Lemma rescan_miss c s b :
  exec_at r None (String c s) = None ->
  rescan r tpl 0 b (String c s) = String c (rescan r tpl 0 EmptyString s).
Proof.
  intros Hex. unfold rescan at 1. cbn [scan]. rewrite (Hprev _ None), Hex.
  cbn [concat_all fold_right]. unfold keep at 1. cbn [String.append]. f_equal.
  apply rescan_before.
Qed.

(** Plain text in front of a tag is copied; the tag is then replaced, if the
    regex matches it, or copied; the pass goes on behind it. *)
Lemma pass_text pre rest :
  all_in not_lt pre = true ->
  replace_all r tpl (pre ++ rest) = pre ++ replace_all r tpl rest.
Proof. intros H. rewrite !replace_all_rescan. now apply rescan_text. Qed.


Lemma pass_miss pre F rest :
  all_in not_lt pre = true ->
  all_in not_lt F = true ->
  exec_at r None (String "<" (F ++ rest)) = None ->
  replace_all r tpl (pre ++ String "<" (F ++ rest))
  = pre ++ String "<" (F ++ replace_all r tpl rest).
Proof.
  intros Hpre HF Hex. rewrite pass_text by exact Hpre. f_equal.
  rewrite !replace_all_rescan. rewrite rescan_miss by exact Hex. f_equal.
  now apply rescan_text.
Qed.

End ScanFacts.

(** Facts about single characters, by enumeration. *)
Lemma ci_lt c : is_char_i "<" c = is_char "<" c.
Proof. destruct c as [[] [] [] [] [] [] [] []]; reflexivity. Qed.













Lemma consumed_app prev tag rest p caps caps' :
  consumed (MState prev (tag ++ rest) caps) (MState p rest caps') = tag.
Proof. unfold consumed. cbn [m_rest]. apply take_append. Qed.

Lemma exec_at_hit r prev tag rest p caps :
  rmatch r (MState prev (tag ++ rest) []) (fun st => Some st)
  = Some (MState p rest caps) ->
  exec_at r prev (tag ++ rest)
  = Some (Result tag (map (fun i => lookup_cap i caps) (seq 1 (ngroups r))) rest).
Proof.
  intros H. unfold exec_at. rewrite H. cbn [m_rest m_caps]. now rewrite consumed_app.
Qed.


Lemma all_in_app p a b : all_in p (a ++ b) = all_in p a && all_in p b.
Proof. induction a as [|c a IH]; cbn; [reflexivity | now rewrite IH, andb_assoc]. Qed.

Lemma all_in_impl (p q : ascii -> bool) s :
  (forall c, p c = true -> q c = true) -> all_in p s = true -> all_in q s = true.
Proof.
  intros Hpq. induction s as [|c s IH]; cbn; [reflexivity|].
  intros H. apply andb_true_iff in H as [Hc Hs]. now rewrite (Hpq c Hc), IH.
Qed.






Lemma rmatch_group n r1 st k :
  rmatch (Group n r1) st k
  = rmatch r1 st (fun st1 =>
      k (MState (m_prev st1) (m_rest st1) ((n, consumed st st1) :: m_caps st1))).
Proof. reflexivity. Qed.

















Lemma last_char_app prev u v : last_char prev (u ++ v) = last_char (last_char prev u) v.
Proof. revert prev. induction u as [|c u IH]; intros prev; cbn; [reflexivity | apply IH]. Qed.




Lemma all_in_last p t prev :
  all_in p t = true -> t <> "" -> exists c, last_char prev t = Some c /\ p c = true.
Proof.
  revert prev. induction t as [|a t IH]; intros prev Hall Hne; [congruence|].
  cbn in Hall. apply andb_true_iff in Hall as [Ha Ht]. cbn [last_char].
  destruct t as [|b t'].
  - exists a. auto.
  - apply IH; [exact Ht | discriminate].
Qed.












End NormFacts.

Module EngineFacts.

Import JS Regex NormSpec ScanSpec.

Lemma in_all_ascii (c : ascii) : In c all_ascii.
Proof.
  unfold all_ascii. rewrite <- (ascii_nat_embedding c).
  apply in_map. apply in_seq. pose proof (nat_ascii_bounded c). lia.
Qed.

Lemma needs_chr P p c : needs P (Chr p) = true -> P c = true -> p c = false.
Proof.
  cbn [needs]. intros H Hc. rewrite forallb_forall in H.
  specialize (H c (in_all_ascii c)). rewrite Hc in H. cbn in H.
  now apply negb_true_iff in H.
Qed.

Lemma rmatch_outside P r : forall st k,
  all_in P (m_rest st) = true ->
  (needs P r = true \/ forall st1, all_in P (m_rest st1) = true -> k st1 = None) ->
  rmatch r st k = None.
Proof.
  induction r as [|p|r1 IH1 r2 IH2|g r1 IH1|n r1 IH1|m|m|p]; intros st k Hst Hk.
  - destruct Hk as [Hk|Hk]; [discriminate|]. cbn. now apply Hk.
  - cbn [rmatch]. destruct (m_rest st) as [|c s'] eqn:Hrest; [reflexivity|].
    cbn in Hst. apply andb_true_iff in Hst as [Hc Hs'].
    destruct Hk as [Hk|Hk].
    + now rewrite (needs_chr P p c Hk Hc).
    + destruct (p c); [|reflexivity]. now apply Hk.
  - cbn [rmatch]. apply IH1; [exact Hst|].
    destruct Hk as [Hk|Hk].
    + cbn [needs] in Hk. apply orb_true_iff in Hk as [Hk|Hk]; [now left|].
      right. intros st1 H1. apply IH2; [exact H1 | now left].
    + right. intros st1 H1. apply IH2; [exact H1 | now right].
  - destruct Hk as [Hk|Hk]; [discriminate|]. cbn [rmatch].
    generalize (String.length (m_rest st)). intros n. revert st Hst.
    induction n as [|n IHn]; intros st Hst; [now apply Hk|].
    rewrite (IH1 st _ Hst).
    + rewrite (Hk st Hst). now destruct g.
    + right. intros st1 H1.
      destruct (Nat.ltb _ _); [now apply IHn | reflexivity].
  - cbn [rmatch]. apply IH1; [exact Hst|].
    destruct Hk as [Hk|Hk]; [now left|]. right. intros st1 H1. now apply Hk.
  - destruct Hk as [Hk|Hk]; [discriminate|]. cbn [rmatch].
    destruct (at_bol m st); [now apply Hk | reflexivity].
  - destruct Hk as [Hk|Hk]; [discriminate|]. cbn [rmatch].
    destruct (at_eol m st); [now apply Hk | reflexivity].
  - destruct Hk as [Hk|Hk]; [discriminate|]. cbn [rmatch].
    destruct (m_prev st) as [c|]; [destruct (p c)|]; try reflexivity; now apply Hk.
Qed.

Lemma exec_outside P r prev s :
  needs P r = true -> all_in P s = true -> exec_at r prev s = None.
Proof.
  intros Hr Hs. unfold exec_at.
  rewrite (rmatch_outside P r); [reflexivity | exact Hs | now left].
Qed.

(** A scan in which no attempt succeeds copies the text. *)
Lemma scan_quiet {A} r (hit : string -> result -> A) keep : forall s before,
  (forall b t, s = b ++ t -> exec_at r (last_char None (before ++ b)) t = None) ->
  scan r hit keep 0 before s = chars keep s.
Proof.
  induction s as [|c s IH]; intros before H.
  - cbn [scan chars]. specialize (H "" "" eq_refl).
    rewrite NormFacts.append_nil_r in H. now rewrite H.
  - cbn [scan chars]. pose proof (H "" (String c s) eq_refl) as H0.
    rewrite NormFacts.append_nil_r in H0. rewrite H0. f_equal.
    apply IH. intros b t ->. rewrite NormFacts.append_assoc. cbn [String.append].
    apply (H (String c b) t). reflexivity.
Qed.

Lemma all_in_suffix P b t : all_in P (b ++ t) = true -> all_in P t = true.
Proof. rewrite NormFacts.all_in_app. intros H. now apply andb_true_iff in H. Qed.

Lemma scan_outside {A} P r (hit : string -> result -> A) keep s before :
  needs P r = true -> all_in P s = true ->
  scan r hit keep 0 before s = chars keep s.
Proof.
  intros Hr Hs. apply scan_quiet. intros b t ->.
  apply (exec_outside P); [exact Hr | now apply all_in_suffix in Hs].
Qed.

Lemma concat_chars s : concat_all (chars (fun c => String c "") s) = s.
Proof. induction s as [|c s IH]; cbn; [reflexivity | f_equal; exact IH]. Qed.

Lemma replace_all_outside P r tpl s :
  needs P r = true -> all_in P s = true -> replace_all r tpl s = s.
Proof.
  intros Hr Hs. unfold replace_all. rewrite (scan_outside P) by assumption.
  apply concat_chars.
Qed.

Lemma replace_all_with_outside P r fn s :
  needs P r = true -> all_in P s = true -> replace_all_with r fn s = s.
Proof.
  intros Hr Hs. unfold replace_all_with. rewrite (scan_outside P) by assumption.
  apply concat_chars.
Qed.

Lemma pieces_outside P r s :
  needs P r = true -> all_in P s = true -> pieces r s = chars Kept s.
Proof. intros Hr Hs. unfold pieces. now apply (scan_outside P). Qed.

Lemma match_all_outside P r s :
  needs P r = true -> all_in P s = true -> match_all r s = [].
Proof.
  intros Hr Hs. unfold match_all. rewrite (scan_outside P) by assumption.
  induction s as [|c s IH]; cbn; [reflexivity|]. apply IH.
  cbn in Hs. now apply andb_true_iff in Hs.
Qed.

Lemma search_outside P r : forall s before,
  needs P r = true -> all_in P s = true -> search r before s = None.
Proof.
  induction s as [|c s IH]; intros before Hr Hs; cbn [search];
    rewrite (exec_outside P) by assumption; [reflexivity|].
  apply IH; [exact Hr|]. cbn in Hs. now apply andb_true_iff in Hs.
Qed.

Section Scan.
Context {A : Type} (r : regex) (hit : string -> result -> A) (keep : ascii -> A).

Lemma scan_skip x : forall rest b,
  scan r hit keep (String.length x) b (x ++ rest) = scan r hit keep 0 (b ++ x) rest.
Proof.
  induction x as [|c x IH]; intros rest b.
  - cbn. now rewrite NormFacts.append_nil_r.
  - cbn [String.length String.append scan]. rewrite IH.
    now rewrite NormFacts.append_assoc.
Qed.

(** A match of a non-empty text: the scan goes on behind it. *)
Lemma scan_hit c F rest b m :
  exec_at r (last_char None b) (String c F ++ rest) = Some m ->
  matched m = String c F ->
  scan r hit keep 0 b (String c F ++ rest)
  = hit b m :: scan r hit keep 0 (b ++ String c F) rest.
Proof.
  intros Hex Hm. cbn [String.append] in *. cbn [scan]. rewrite Hex, Hm.
  cbn [String.length]. f_equal. rewrite scan_skip.
  now rewrite NormFacts.append_assoc.
Qed.

(** A stretch of text in which the regex cannot start. *)
Lemma scan_pass (P : ascii -> bool) pre : forall rest b,
  (forall prev c t, P c = true -> exec_at r prev (String c t) = None) ->
  all_in P pre = true ->
  scan r hit keep 0 b (pre ++ rest)
  = (chars keep pre ++ scan r hit keep 0 (b ++ pre) rest)%list.
Proof.
  induction pre as [|c pre IH]; intros rest b Hr Hpre.
  - cbn. now rewrite NormFacts.append_nil_r.
  - cbn in Hpre. apply andb_true_iff in Hpre as [Hc Hpre].
    cbn [String.append scan chars app]. rewrite (Hr _ c _ Hc). f_equal.
    rewrite (IH rest _ Hr Hpre). now rewrite NormFacts.append_assoc.
Qed.

Lemma scan_rest (P : ascii -> bool) s b :
  (forall prev c t, P c = true -> exec_at r prev (String c t) = None) ->
  (forall prev, exec_at r prev EmptyString = None) ->
  all_in P s = true ->
  scan r hit keep 0 b s = chars keep s.
Proof.
  intros Hr Hnil Hs. rewrite <- (NormFacts.append_nil_r s) at 1.
  rewrite (scan_pass P s "" b Hr Hs). cbn [scan]. rewrite Hnil.
  now rewrite app_nil_r.
Qed.

End Scan.

Lemma rmatch_lit_hit p : forall prev rest caps k,
  rmatch (lit p) (MState prev (p ++ rest) caps) k
  = k (MState (last_char prev p) rest caps).
Proof.
  induction p as [|a p IH]; intros prev rest caps k; [reflexivity|].
  destruct p as [|b p].
  - cbn [lit String.append last_char]. apply NormFacts.rmatch_chr_hit.
    apply Ascii.eqb_refl.
  - change (lit (String a (String b p))) with (Cat (Chr (is_char a)) (lit (String b p))).
    rewrite NormFacts.rmatch_cat. cbn [String.append].
    rewrite NormFacts.rmatch_chr_hit by apply Ascii.eqb_refl.
    change (String b (p ++ rest)) with (String b p ++ rest). rewrite IH. reflexivity.
Qed.

Lemma rmatch_lazy_cons p prev c s caps k :
  rmatch (Star false (Chr p)) (MState prev (String c s) caps) k
  = first_of (k (MState prev (String c s) caps))
             (if p c then rmatch (Star false (Chr p)) (MState (Some c) s caps) k
              else None).
Proof.
  cbn. destruct (p c); [|reflexivity].
  assert (H : Nat.ltb (String.length s) (S (String.length s)) = true)
    by (apply Nat.ltb_lt; lia).
  cbn in H. rewrite H. reflexivity.
Qed.

(** A lazy star over any character goes on as long as the rest of the
    pattern cannot start, and stops where it can. *)
Lemma lazy_until (P : ascii -> bool) k caps rest r : forall inner prev,
  (forall prev' c t, P c = true -> k (MState prev' (String c t) caps) = None) ->
  all_in P inner = true ->
  k (MState (last_char prev inner) rest caps) = Some r ->
  rmatch (Star false (Chr (fun _ => true))) (MState prev (inner ++ rest) caps) k
  = Some r.
Proof.
  induction inner as [|c inner IH]; intros prev Hk Hin Hend.
  - cbn [String.append last_char] in *. destruct rest as [|d rest].
    + cbn. exact Hend.
    + rewrite rmatch_lazy_cons, Hend. reflexivity.
  - cbn in Hin. apply andb_true_iff in Hin as [Hc Hin].
    cbn [String.append]. rewrite rmatch_lazy_cons, (Hk _ c _ Hc).
    cbn [first_of]. apply IH; assumption.
Qed.

End EngineFacts.

Module StringFacts.

Import JS.

Lemma split_on_nonempty sep s : split_on sep s <> [].
Proof.
  destruct s as [|c s]; cbn; [discriminate|].
  destruct (Ascii.eqb c sep); [discriminate|].
  destruct (split_on sep s); discriminate.
Qed.

Lemma join_cons_char sep c w ws :
  join sep (String c w :: ws) = String c (join sep (w :: ws)).
Proof. destruct ws; reflexivity. Qed.

(** [s.split(sep).join(sep)] gives [s] back. *)
Lemma join_split sep s : join (String sep "") (split_on sep s) = s.
Proof.
  induction s as [|c s IH]; [reflexivity|]. cbn [split_on].
  destruct (Ascii.eqb c sep) eqn:Hc.
  - apply Ascii.eqb_eq in Hc. subst c.
    pose proof (split_on_nonempty sep s) as Hne.
    destruct (split_on sep s) as [|w ws]; [contradiction|].
    change (join (String sep "") ("" :: w :: ws))
      with (String sep (join (String sep "") (w :: ws))).
    now rewrite IH.
  - pose proof (split_on_nonempty sep s) as Hne.
    destruct (split_on sep s) as [|w ws]; [contradiction|].
    rewrite join_cons_char. now rewrite IH.
Qed.

Lemma append_inj_r (a b c : string) : a ++ c = b ++ c -> a = b.
Proof.
  revert b. induction a as [|x a IH]; intros b H.
  - destruct b as [|y b]; [reflexivity|]. exfalso.
    apply (f_equal String.length) in H. rewrite !NormFacts.length_append in H.
    cbn in H. lia.
  - destruct b as [|y b].
    + exfalso. apply (f_equal String.length) in H.
      rewrite !NormFacts.length_append in H. cbn in H. lia.
    + cbn in H. injection H as -> H. f_equal. now apply IH.
Qed.

Lemma append_inj_l (a b c : string) : a ++ b = a ++ c -> b = c.
Proof. induction a as [|x a IH]; cbn; intros H; [exact H|]. injection H as H. auto. Qed.

Lemma of_nat_inj (n m : nat) : of_nat n = of_nat m -> n = m.
Proof.
  unfold of_nat. intros H.
  apply (f_equal NilEmpty.uint_of_string) in H. rewrite !NilEmpty.usu in H.
  injection H as H. now apply Unsigned.to_uint_inj.
Qed.

End StringFacts.

Module EscapeFacts.

Import JS Regex Converter NormSpec EscapeSpec StringFacts.

Lemma exec_chr p prev c s :
  exec_at (Chr p) prev (String c s)
  = if p c then Some (Result (String c "") [] s) else None.
Proof.
  unfold exec_at. cbn [rmatch m_rest m_caps]. destruct (p c); [|reflexivity].
  unfold consumed. cbn [m_rest String.length ngroups seq map].
  replace (S (String.length s) - String.length s) with 1 by lia. reflexivity.
Qed.

Lemma escapeMap_plain c : is_special c = false -> escapeMap c = String c "".
Proof. destruct c as [[] [] [] [] [] [] [] []]; cbn; congruence. Qed.

Lemma escape_run_cons c s before :
  escape_run before (String c s)
  = escapeMap c ++ escape_run (before ++ String c "") s.
Proof.
  unfold escape_run. change re_escape with (Chr is_special).
  cbn [scan]. rewrite exec_chr. destruct (is_special c) eqn:Hc.
  - reflexivity.
  - cbn [concat_all fold_right]. now rewrite (escapeMap_plain c Hc).
Qed.

Lemma escape_run_before s : forall b b', escape_run b s = escape_run b' s.
Proof.
  induction s as [|c s IH]; intros b b'; [reflexivity|].
  rewrite !escape_run_cons. f_equal. apply IH.
Qed.

(** [escapeHtml] works character by character. *)
Lemma escapeHtml_cons c s : escapeHtml (String c s) = escapeMap c ++ escapeHtml s.
Proof.
  change (escape_run "" (String c s) = escapeMap c ++ escape_run "" s).
  rewrite escape_run_cons. f_equal. apply escape_run_before.
Qed.

Lemma escapeMap_safe c : all_in (fun d => negb (is_markup_char d)) (escapeMap c) = true.
Proof. destruct c as [[] [] [] [] [] [] [] []]; reflexivity. Qed.

Lemma escapeMap_special c :
  is_special c = true -> exists t, escapeMap c = String "&" t.
Proof.
  destruct c as [[] [] [] [] [] [] [] []]; cbn; try discriminate; intros _;
    eexists; reflexivity.
Qed.

(** X1. Whatever the text, [escapeHtml] returns a string that holds none of
    the characters [<], [>], double quote and single quote: the escaped text
    cannot open or close a tag or end an attribute value. *)
Theorem X1_escapeHtml_output_is_text (text : string) :
  all_in (fun c => negb (is_markup_char c)) (escapeHtml text) = true.
Proof.
  induction text as [|c s IH]; [reflexivity|].
  rewrite escapeHtml_cons, NormFacts.all_in_app, escapeMap_safe, IH. reflexivity.
Qed.

Lemma escapeMap_inj c d r1 r2 :
  escapeMap c ++ r1 = escapeMap d ++ r2 -> c = d /\ r1 = r2.
Proof.
  destruct (is_special c) eqn:Hc, (is_special d) eqn:Hd.
  - revert Hc Hd.
    destruct c as [[] [] [] [] [] [] [] []]; cbn; try discriminate; intros _;
      destruct d as [[] [] [] [] [] [] [] []]; cbn; try discriminate; intros _ H;
      try discriminate; injection H as H; split; auto.
  - rewrite (escapeMap_plain d Hd). destruct (escapeMap_special c Hc) as [t ->].
    cbn. intros H. injection H as <- _. discriminate Hd.
  - rewrite (escapeMap_plain c Hc). destruct (escapeMap_special d Hd) as [t ->].
    cbn. intros H. injection H as -> _. discriminate Hc.
  - rewrite (escapeMap_plain c Hc), (escapeMap_plain d Hd). cbn.
    intros H. injection H as -> ->. auto.
Qed.

Lemma escapeHtml_injective (a b : string) :
  escapeHtml a = escapeHtml b -> a = b.
Proof.
  revert b. induction a as [|c a IH]; intros b H.
  - destruct b as [|d b]; [reflexivity|]. rewrite escapeHtml_cons in H.
    destruct (is_special d) eqn:Hd.
    + destruct (escapeMap_special d Hd) as [t Ht]. rewrite Ht in H. discriminate.
    + rewrite (escapeMap_plain d Hd) in H. discriminate.
  - destruct b as [|d b].
    + rewrite escapeHtml_cons in H. destruct (is_special c) eqn:Hc.
      * destruct (escapeMap_special c Hc) as [t Ht]. rewrite Ht in H. discriminate.
      * rewrite (escapeMap_plain c Hc) in H. discriminate.
    + rewrite !escapeHtml_cons in H. apply escapeMap_inj in H as [-> H].
      f_equal. now apply IH.
Qed.

(** X2. [escapeHtml] loses nothing: two different texts never escape to the
    same string, so the text can be recovered from its escaped form. *)
Theorem X2_escapeHtml_keeps_texts_apart (a b : string) :
  a <> b -> escapeHtml a <> escapeHtml b.
Proof. intros Hab H. apply Hab. now apply escapeHtml_injective. Qed.

(** A text and its own escaped form are told apart. *)
Lemma X2_escapeHtml_keeps_texts_apart_witness :
  "<" <> "&lt;" /\ escapeHtml "<" <> escapeHtml "&lt;".
Proof.
  assert (H : "<" <> "&lt;") by discriminate.
  exact (conj H (X2_escapeHtml_keeps_texts_apart "<" "&lt;" H)).
Defined.

End EscapeFacts.

Module BlockFacts.

Import JS Regex Converter EscapeSpec StringFacts.

Lemma placeholder_of_inj : Injective placeholder_of.
Proof.
  intros a b H. unfold placeholder_of in H.
  apply append_inj_l in H. apply append_inj_r in H. now apply of_nat_inj.
Qed.

(** Every placeholder minted is recorded under its own key. *)
Lemma extract_pieces_keys block_of ps : forall st,
  keys_in_order st -> keys_in_order (snd (extract_pieces block_of ps st)).
Proof.
  induction ps as [|p ps IH]; intros st Hst; cbn [extract_pieces].
  - exact Hst.
  - destruct p as [c|m].
    + specialize (IH st Hst).
      destruct (extract_pieces block_of ps st) as [out st']. exact IH.
    + cbn [createCodeBlockPlaceholder].
      set (st2 := set_block _ _ _).
      assert (H2 : keys_in_order st2).
      { subst st2. unfold keys_in_order, set_block, push in *.
        cbn [codeBlocks codeBlockCounter]. rewrite map_app, Hst.
        rewrite seq_S, map_app. reflexivity. }
      specialize (IH st2 H2).
      destruct (extract_pieces block_of ps st2) as [out st']. exact IH.
Qed.

(** X3. After [extractCodeBlocks] has gone through any text, starting from
    an empty map and a counter of 0, the keys of [codeBlocks] are exactly the
    placeholders [__CODEBLOCK_0__] up to [__CODEBLOCK_(n-1)__], in this
    order, [n] being the final value of the counter; no key occurs twice. *)
Theorem X3_extractCodeBlocks_keys (content : string) :
  let st := snd (extractCodeBlocks content (State 0 [])) in
  map fst (codeBlocks st) = map placeholder_of (seq 0 (codeBlockCounter st))
  /\ NoDup (map fst (codeBlocks st)).
Proof.
  cbv zeta. unfold extractCodeBlocks.
  match goal with
  | |- context [extract_pieces ?f (pieces re_fenced content) ?st0] =>
      pose proof (extract_pieces_keys f (pieces re_fenced content) st0 eq_refl) as H1;
      destruct (extract_pieces f (pieces re_fenced content) st0) as [c1 st1]
  end.
  cbn [snd] in H1.
  match goal with
  | |- context [extract_pieces ?f ?ps st1] =>
      pose proof (extract_pieces_keys f ps st1 H1) as H2
  end.
  split; [exact H2|]. rewrite H2.
  apply Injective_map_NoDup; [apply placeholder_of_inj | apply seq_NoDup].
Qed.

End BlockFacts.

Module AnchorFacts.

Import JS Regex NormSpec.

Lemma last_char_snoc prev b c : last_char prev (b ++ String c "") = Some c.
Proof. now rewrite NormFacts.last_char_app. Qed.

Lemma exec_bol_inside r c s : exec_at (Cat (Bol false) r) (Some c) s = None.
Proof. reflexivity. Qed.

(** A regex that starts with [^] and has no [m] flag matches at the start
    of the text or nowhere. *)
Lemma search_bol_inside r : forall s before c,
  last_char None before = Some c -> search (Cat (Bol false) r) before s = None.
Proof.
  induction s as [|d s IH]; intros before c Hb; cbn [search]; rewrite Hb;
    rewrite exec_bol_inside; [reflexivity|].
  apply (IH _ d). apply last_char_snoc.
Qed.

Lemma search_bol r s :
  exec_at (Cat (Bol false) r) None s = None ->
  search (Cat (Bol false) r) EmptyString s = None.
Proof.
  intros H. destruct s as [|d s]; cbn [search last_char]; rewrite H; [reflexivity|].
  apply (search_bol_inside r s _ d). reflexivity.
Qed.

Lemma rmatch_bol_start r s caps k :
  rmatch (Cat (Bol false) r) (MState None s caps) k = rmatch r (MState None s caps) k.
Proof. reflexivity. Qed.

Lemma rmatch_star_nil p prev caps k :
  rmatch (Star true (Chr p)) (MState prev "" caps) k = k (MState prev "" caps).
Proof. reflexivity. Qed.

(** The stops of [\s*] at the head of a line: all of them lie in the leading
    white space. *)
Lemma star_space_stops k caps : forall s prev,
  (forall prev' t, trim_start t = trim_start s -> k (MState prev' t caps) = None) ->
  rmatch (Star true (Chr is_space)) (MState prev s caps) k = None.
Proof.
  induction s as [|c s IH]; intros prev H.
  - rewrite rmatch_star_nil. now apply H.
  - rewrite NormFacts.rmatch_star_cons. rewrite (H prev (String c s) eq_refl).
    destruct (is_space c) eqn:Hc; [|reflexivity].
    rewrite IH; [reflexivity|]. intros prev' t Ht. apply H.
    rewrite Ht. cbn [trim_start]. now rewrite Hc.
Qed.

End AnchorFacts.

Module NestingFacts.

Import JS Regex Converter NormSpec NestingSpec StringFacts AnchorFacts.

Lemma space_no_marker c : is_space c = true -> is_bullet c = false /\ is_digit c = false.
Proof. destruct c as [[] [] [] [] [] [] [] []]; vm_compute; intuition congruence. Qed.

Lemma first_after_spaces line c t :
  no_marker line = true -> trim_start (String c t) = trim_start line ->
  is_bullet c = false /\ is_digit c = false.
Proof.
  intros Hn Ht. destruct (is_space c) eqn:Hc; [now apply space_no_marker|].
  unfold no_marker in Hn. rewrite <- Ht in Hn. cbn [trim_start] in Hn.
  rewrite Hc in Hn. apply andb_true_iff in Hn as [H1 H2].
  split; now apply negb_true_iff.
Qed.

Lemma classify_other line : no_marker line = true -> classify line = Other.
Proof.
  intros Hn. unfold classify, re_unordered, re_ordered. cbn [cats].
  rewrite search_bol.
  - rewrite search_bol; [reflexivity|].
    unfold exec_at. rewrite rmatch_bol_start.
    rewrite NormFacts.rmatch_cat, NormFacts.rmatch_group.
    rewrite star_space_stops; [reflexivity|].
    intros prev' t Ht. cbn [m_prev m_rest m_caps].
    destruct t as [|c t]; [reflexivity|].
    destruct (first_after_spaces line c t Hn Ht) as [_ Hd].
    unfold Plus. rewrite !NormFacts.rmatch_cat, NormFacts.rmatch_group.
    rewrite !NormFacts.rmatch_cat. now rewrite NormFacts.rmatch_chr_miss.
  - unfold exec_at. rewrite rmatch_bol_start.
    rewrite NormFacts.rmatch_cat, NormFacts.rmatch_group.
    rewrite star_space_stops; [reflexivity|].
    intros prev' t Ht. cbn [m_prev m_rest m_caps].
    destruct t as [|c t]; [reflexivity|].
    destruct (first_after_spaces line c t Hn Ht) as [Hb _].
    rewrite !NormFacts.rmatch_cat. now rewrite NormFacts.rmatch_chr_miss.
Qed.

Lemma fold_other lines : forall result,
  Forall (fun l => classify l = Other) lines ->
  fold_left list_step lines (result, []) = ((result ++ lines)%list, []).
Proof.
  induction lines as [|l lines IH]; intros result H; cbn [fold_left].
  - now rewrite app_nil_r.
  - inversion H as [|? ? Hl Hrest]; subst. unfold list_step at 2. rewrite Hl.
    cbn [fst snd close_all]. unfold push. rewrite (IH _ Hrest).
    now rewrite <- app_assoc.
Qed.

(** X5. A text in which no line has a bullet ([-], [*], [+]) or a digit as
    its first character after the leading white space goes through
    [convertLists] unchanged. *)
Theorem X5_convertLists_without_items (content : string) :
  Forall (fun line => no_marker line = true) (split_on LF content) ->
  convertLists content = content.
Proof.
  intros H. unfold convertLists. rewrite fold_other.
  - cbn [close_all app]. apply join_split.
  - eapply Forall_impl; [|exact H]. intros l. apply classify_other.
Qed.

Lemma X5_convertLists_without_items_witness :
  Forall (fun line => no_marker line = true)
         (split_on LF ("Title" ++ nl ++ "  a - b" ++ nl ++ nl ++ "x1"))
  /\ convertLists ("Title" ++ nl ++ "  a - b" ++ nl ++ nl ++ "x1")
     = "Title" ++ nl ++ "  a - b" ++ nl ++ nl ++ "x1".
Proof.
  assert (H : Forall (fun line => no_marker line = true)
                (split_on LF ("Title" ++ nl ++ "  a - b" ++ nl ++ nl ++ "x1")))
    by (vm_compute; repeat constructor).
  exact (conj H (X5_convertLists_without_items _ H)).
Defined.

Lemma convertLists_lines content :
  convertLists content = join nl (list_lines (split_on LF content)).
Proof.
  unfold convertLists, list_lines.
  now destruct (fold_left list_step (split_on LF content) ([], [])).
Qed.

Lemma nesting_app a : forall b o,
  nesting (a ++ b) o
  = match nesting a o with Some o' => nesting b o' | None => None end.
Proof.
  induction a as [|l a IH]; intros b o; cbn [nesting app]; [reflexivity|].
  destruct (list_tag l) as [[[] t]|]; [apply IH | | apply IH].
  destruct o as [|t' below]; [reflexivity|].
  destruct (list_type_eqb t t'); [apply IH | reflexivity].
Qed.

Lemma nesting_push result o o' line :
  nesting result o = Some o' ->
  nesting (push result line) o = nesting [line] o'.
Proof. intros H. unfold push. now rewrite nesting_app, H. Qed.

Lemma tag_open t : list_tag (open_tag t) = Some (true, t).
Proof. now destruct t. Qed.

Lemma tag_close t : list_tag (close_tag t) = Some (false, t).
Proof. now destruct t. Qed.

Lemma tag_item text : list_tag ("<li>" ++ text ++ "</li>") = None.
Proof. reflexivity. Qed.

Lemma eqb_refl_type t : list_type_eqb t t = true.
Proof. now destruct t. Qed.

Lemma close_deeper_agrees n stack : forall result,
  agrees (result, stack) -> agrees (close_deeper n result stack).
Proof.
  unfold agrees. induction stack as [|top below IH]; intros result H;
    cbn [close_deeper]; [exact H|].
  destruct (Nat.ltb n (indent top)); [|exact H].
  apply IH. cbn [fst snd map] in *.
  rewrite (nesting_push _ _ _ _ H). cbn [nesting]. rewrite tag_close.
  now rewrite eqb_refl_type.
Qed.

Lemma handleListItem_agrees st t n text :
  agrees st -> agrees (handleListItem st t n text).
Proof.
  intros H. unfold handleListItem.
  destruct st as [result0 stack0]. cbn [fst snd].
  pose proof (close_deeper_agrees n stack0 result0 H) as H1.
  destruct (close_deeper n result0 stack0) as [result stack].
  unfold agrees in *. cbn [fst snd] in *.
  assert (Hitem : forall r s, nesting r [] = Some (map type s) ->
            nesting (push r ("<li>" ++ text ++ "</li>")) [] = Some (map type s)).
  { intros r s Hr. rewrite (nesting_push _ _ _ _ Hr). cbn [nesting].
    now rewrite tag_item. }
  destruct stack as [|top below].
  - cbn [fst snd]. apply Hitem. rewrite (nesting_push _ _ _ _ H1).
    cbn [nesting]. now rewrite tag_open.
  - destruct (Nat.ltb (indent top) n).
    + cbn [fst snd]. apply Hitem. rewrite (nesting_push _ _ _ _ H1).
      cbn [nesting]. now rewrite tag_open.
    + destruct (negb (list_type_eqb (type top) t)).
      * cbn [fst snd]. apply Hitem.
        assert (H2 : nesting (push result (close_tag (type top))) []
                     = Some (map type below)).
        { rewrite (nesting_push _ _ _ _ H1). cbn [nesting map].
          rewrite tag_close. now rewrite eqb_refl_type. }
        rewrite (nesting_push _ _ _ _ H2). cbn [nesting]. now rewrite tag_open.
      * cbn [fst snd]. now apply Hitem.
Qed.

Lemma close_all_nested stack : forall result,
  agrees (result, stack) -> nesting (close_all result stack) [] = Some [].
Proof.
  unfold agrees. induction stack as [|top below IH]; intros result H;
    cbn [close_all]; [exact H|].
  apply IH. cbn [fst snd map] in *. rewrite (nesting_push _ _ _ _ H).
  cbn [nesting]. rewrite tag_close. now rewrite eqb_refl_type.
Qed.

Lemma list_step_agrees st line :
  list_tag line = None -> agrees st -> agrees (list_step st line).
Proof.
  intros Hl H. unfold list_step. destruct (classify line) as [t i text|].
  - now apply handleListItem_agrees.
  - destruct st as [result stack]. unfold agrees. cbn [fst snd map].
    rewrite (nesting_push _ _ _ _ (close_all_nested stack result H)).
    cbn [nesting]. now rewrite Hl.
Qed.

Lemma fold_agrees lines : forall st,
  Forall (fun l => list_tag l = None) lines ->
  agrees st -> agrees (fold_left list_step lines st).
Proof.
  induction lines as [|l lines IH]; intros st Hl H; cbn [fold_left]; [exact H|].
  inversion Hl; subst. apply IH; [assumption|]. now apply list_step_agrees.
Qed.

(** X4. Let no line of the text be itself one of the tags [<ul>], [<ol>],
    [</ul>], [</ol>].  Then the lines that [convertLists] joins into its
    result are well nested: read in order, every closing list tag closes the
    innermost list still open, of the same kind, and no list is left open at
    the end. *)
Theorem X4_convertLists_well_nested (content : string) :
  Forall (fun line => list_tag line = None) (split_on LF content) ->
  convertLists content = join nl (list_lines (split_on LF content))
  /\ nesting (list_lines (split_on LF content)) [] = Some [].
Proof.
  intros H. split; [apply convertLists_lines|].
  unfold list_lines.
  pose proof (fold_agrees (split_on LF content) ([], []) H eq_refl) as Hf.
  destruct (fold_left list_step (split_on LF content) ([], [])) as [result stack].
  now apply close_all_nested.
Qed.

(** A bullet list with a numbered list inside and a paragraph after it. *)
Lemma X4_convertLists_well_nested_witness :
  Forall (fun line => list_tag line = None)
         (split_on LF ("- a" ++ nl ++ "  1. b" ++ nl ++ "- c" ++ nl ++ "end"))
  /\ list_lines (split_on LF ("- a" ++ nl ++ "  1. b" ++ nl ++ "- c" ++ nl ++ "end"))
     = ["<ul>"; "<li>a</li>"; "<ol>"; "<li>b</li>"; "</ol>"; "<li>c</li>"; "</ul>";
        "end"]
  /\ nesting (list_lines
                (split_on LF ("- a" ++ nl ++ "  1. b" ++ nl ++ "- c" ++ nl ++ "end")))
             [] = Some [].
Proof.
  assert (H : Forall (fun line => list_tag line = None)
                (split_on LF ("- a" ++ nl ++ "  1. b" ++ nl ++ "- c" ++ nl ++ "end")))
    by (vm_compute; repeat constructor).
  split; [exact H|]. split; [vm_compute; reflexivity|].
  exact (proj2 (X4_convertLists_well_nested _ H)).
Defined.

End NestingFacts.

Module TableShapeFacts.

Import JS Regex Converter NormSpec NestingSpec StringFacts AnchorFacts.

Lemma is_row_needs_bar line : starts_with "|" line = false -> is_row line = false.
Proof.
  intros H. unfold is_row, test, re_row. cbn [cats]. rewrite search_bol; [reflexivity|].
  unfold exec_at. rewrite rmatch_bol_start, NormFacts.rmatch_cat.
  destruct line as [|c line]; [reflexivity|].
  rewrite NormFacts.rmatch_chr_miss; [reflexivity|].
  cbn in H. unfold is_char. rewrite Ascii.eqb_sym.
  now rewrite andb_true_r in H.
Qed.

Lemma table_run_inv (I : table_state -> Prop) lines :
  (forall st, t_i st < List.length lines -> I st -> I (table_step lines st)) ->
  forall fuel st, I st -> I (table_run fuel lines st).
Proof.
  intros Hstep. induction fuel as [|fuel IH]; intros st H; cbn [table_run]; [exact H|].
  destruct (Nat.ltb (t_i st) (List.length lines)) eqn:Hlt; [|exact H].
  apply IH, Hstep; [now apply Nat.ltb_lt | exact H].
Qed.

Lemma firstn_succ_nth {A} (d : A) : forall (l : list A) i,
  i < List.length l -> firstn (i + 1) l = (firstn i l ++ [nth i l d])%list.
Proof.
  induction l as [|x l IH]; intros i Hi; [cbn in Hi; lia|].
  destruct i as [|i]; [reflexivity|]. cbn in Hi.
  cbn [Nat.add firstn nth app]. f_equal. apply IH. lia.
Qed.

(** X7. A text in which no line starts with a bar goes through
    [convertTables] unchanged. *)
Theorem X7_convertTables_without_rows (content : string) :
  Forall (fun line => starts_with "|" line = false) (split_on LF content) ->
  convertTables content = content.
Proof.
  intros H. unfold convertTables.
  set (lines := split_on LF content) in *.
  assert (Hlines : table_lines lines = lines).
  { unfold table_lines. cbv zeta.
    pose proof (TableFacts.table_run_finishes lines) as Hfin.
    pose proof (table_run_inv
                  (fun st => t_inTable st = false /\ t_i st <= List.length lines
                             /\ t_result st = firstn (t_i st) lines) lines) as Hinv.
    destruct (Hinv) with (fuel := List.length lines) (st := table_init)
      as (Hin & Hle & Hres).
    - intros st Hlt (Hin & Hle & Hres). unfold table_step.
      rewrite is_row_needs_bar.
      2:{ rewrite Forall_forall in H. apply H. now apply nth_In. }
      rewrite Hin. cbn [t_inTable t_i t_result]. repeat split; [lia|].
      unfold push. rewrite Hres. symmetry. now apply firstn_succ_nth.
    - repeat split. cbn. lia.
    - rewrite Hin, Hres. apply firstn_all2. lia. }
  rewrite Hlines. apply join_split.
Qed.

Lemma X7_convertTables_without_rows_witness :
  Forall (fun line => starts_with "|" line = false)
         (split_on LF ("a | b" ++ nl ++ nl ++ " |---|"))
  /\ convertTables ("a | b" ++ nl ++ nl ++ " |---|") = "a | b" ++ nl ++ nl ++ " |---|".
Proof.
  assert (H : Forall (fun line => starts_with "|" line = false)
                (split_on LF ("a | b" ++ nl ++ nl ++ " |---|")))
    by (vm_compute; repeat constructor).
  exact (conj H (X7_convertTables_without_rows _ H)).
Defined.

Lemma table_nesting_app a : forall b inside,
  table_nesting (a ++ b) inside
  = match table_nesting a inside with
    | Some i => table_nesting b i
    | None => None
    end.
Proof.
  induction a as [|l a IH]; intros b inside; cbn [table_nesting app]; [reflexivity|].
  destruct (table_tag l) as [[]|]; destruct inside; auto.
Qed.

Lemma table_nesting_plain xs : forall inside,
  Forall (fun l => table_tag l = None) xs -> table_nesting xs inside = Some inside.
Proof.
  induction xs as [|x xs IH]; intros inside H; [reflexivity|].
  inversion H as [|? ? Hx Hxs]; subst. cbn [table_nesting]. rewrite Hx. now apply IH.
Qed.

Lemma th_plain cs : Forall (fun l => table_tag l = None) (map th cs).
Proof. induction cs; constructor; auto. Qed.

Lemma td_plain cs : Forall (fun l => table_tag l = None) (map td cs).
Proof. induction cs; constructor; auto. Qed.

Lemma header_row_plain line : Forall (fun l => table_tag l = None) (header_row line).
Proof.
  unfold header_row. constructor; [reflexivity|].
  apply Forall_app. split; [apply th_plain | repeat constructor].
Qed.

Lemma body_row_plain line : Forall (fun l => table_tag l = None) (body_row line).
Proof.
  unfold body_row. constructor; [reflexivity|].
  apply Forall_app. split; [apply td_plain | repeat constructor].
Qed.

Lemma nesting_push_plain res inside b line :
  table_nesting res inside = Some b -> table_tag line = None ->
  table_nesting (push res line) inside = Some b.
Proof.
  intros H Hl. unfold push. rewrite table_nesting_app, H. cbn. now rewrite Hl.
Qed.

Lemma nesting_more_plain res inside b xs :
  table_nesting res inside = Some b -> Forall (fun l => table_tag l = None) xs ->
  table_nesting (res ++ xs) inside = Some b.
Proof.
  intros H Hx. rewrite table_nesting_app, H. now apply table_nesting_plain.
Qed.

(** X6. Let no line of the text be itself [<table>] or [</table>].  Then in
    the lines that [convertTables] joins into its result the two tags
    alternate, starting with [<table>] and ending with [</table>]: a table
    is never opened inside a table, never closed twice, and never left
    open. *)
Theorem X6_convertTables_tables_closed (content : string) :
  Forall (fun line => table_tag line = None) (split_on LF content) ->
  convertTables content = join nl (table_lines (split_on LF content))
  /\ table_nesting (table_lines (split_on LF content)) false = Some false.
Proof.
  intros H. split; [reflexivity|].
  set (lines := split_on LF content) in *.
  unfold table_lines. cbv zeta.
  pose proof (table_run_inv
                (fun st => table_nesting (t_result st) false = Some (t_inTable st))
                lines) as Hinv.
  assert (Hrun : table_nesting (t_result (table_run (List.length lines) lines table_init))
                   false
                 = Some (t_inTable (table_run (List.length lines) lines table_init))).
  { apply Hinv; [|reflexivity].
    intros st Hlt Hst. unfold table_step.
    assert (Hline : table_tag (nth (t_i st) lines "") = None).
    { rewrite Forall_forall in H. apply H. now apply nth_In. }
    destruct (is_row _).
    - destruct (_ && _).
      + cbn [t_result t_inTable].
        apply nesting_push_plain; [|reflexivity].
        apply nesting_push_plain; [|reflexivity].
        apply nesting_more_plain; [|apply header_row_plain].
        destruct (t_inTable st); cbn [negb]; [exact Hst|].
        apply nesting_push_plain; [|reflexivity].
        unfold push. rewrite table_nesting_app, Hst. reflexivity.
      + destruct (t_inTable st) eqn:Hin; cbn [t_result t_inTable].
        * rewrite ?Hin. apply nesting_more_plain; [exact Hst|].
          apply body_row_plain.
        * rewrite ?Hin. apply nesting_push_plain; [exact Hst | exact Hline].
    - destruct (t_inTable st) eqn:Hin; cbn [t_result t_inTable].
      + apply nesting_push_plain; [|exact Hline].
        unfold push at 1. rewrite table_nesting_app.
        rewrite (nesting_push_plain _ _ _ "</tbody>" Hst eq_refl). reflexivity.
      + rewrite ?Hin. apply nesting_push_plain; [exact Hst | exact Hline]. }
  destruct (t_inTable _).
  - unfold push at 1. rewrite table_nesting_app.
    rewrite (nesting_push_plain _ _ _ "</tbody>" Hrun eq_refl). reflexivity.
  - exact Hrun.
Qed.

(** Two tables with a paragraph between them; the second runs to the end of
    the text. *)
Lemma X6_convertTables_tables_closed_witness :
  Forall (fun line => table_tag line = None)
         (split_on LF ("|a|" ++ nl ++ "|-|" ++ nl ++ "|1|" ++ nl ++ "text" ++ nl ++
                       "|b|" ++ nl ++ "|-|"))
  /\ table_nesting
       (table_lines (split_on LF ("|a|" ++ nl ++ "|-|" ++ nl ++ "|1|" ++ nl ++
                                  "text" ++ nl ++ "|b|" ++ nl ++ "|-|")))
       false = Some false.
Proof.
  assert (H : Forall (fun line => table_tag line = None)
                (split_on LF ("|a|" ++ nl ++ "|-|" ++ nl ++ "|1|" ++ nl ++ "text" ++
                              nl ++ "|b|" ++ nl ++ "|-|")))
    by (vm_compute; repeat constructor).
  exact (conj H (proj2 (X6_convertTables_tables_closed _ H))).
Defined.

End TableShapeFacts.

Module RowFacts.

Import JS Regex Converter NormSpec NestingSpec StringFacts AnchorFacts.

Lemma split_on_plain sep a :
  all_in (fun c => negb (is_char sep c)) a = true -> split_on sep a = [a].
Proof.
  induction a as [|c a IH]; intros H; [reflexivity|].
  cbn in H. apply andb_true_iff in H as [Hc Ha]. cbn [split_on].
  unfold is_char in Hc. rewrite Ascii.eqb_sym in Hc.
  apply negb_true_iff in Hc. rewrite Hc. now rewrite (IH Ha).
Qed.

Lemma split_on_app sep a b :
  all_in (fun c => negb (is_char sep c)) a = true ->
  split_on sep (a ++ String sep b) = a :: split_on sep b.
Proof.
  induction a as [|c a IH]; intros H.
  - cbn [String.append split_on]. now rewrite Ascii.eqb_refl.
  - cbn in H. apply andb_true_iff in H as [Hc Ha]. cbn [String.append split_on].
    unfold is_char in Hc. rewrite Ascii.eqb_sym in Hc.
    apply negb_true_iff in Hc. rewrite Hc. now rewrite (IH Ha).
Qed.

Lemma split_on_join sep cs :
  cs <> [] ->
  Forall (fun cell => all_in (fun c => negb (is_char sep c)) cell = true) cs ->
  split_on sep (join (String sep "") cs ++ String sep "") = (cs ++ [""])%list.
Proof.
  induction cs as [|x cs IH]; intros Hne H; [contradiction|].
  inversion H as [|? ? Hx Hcs]; subst.
  destruct cs as [|y cs].
  - cbn [join app]. now rewrite split_on_app.
  - change (join (String sep "") (x :: y :: cs))
      with (x ++ String sep (join (String sep "") (y :: cs))).
    rewrite NormFacts.append_assoc. cbn [String.append].
    rewrite split_on_app by exact Hx. cbn [app]. f_equal.
    apply IH; [discriminate | exact Hcs].
Qed.

Lemma cells_of_row cs :
  cs <> [] -> Forall (fun cell => no_bar cell = true) cs ->
  cells (row_of cs) = map trim cs.
Proof.
  intros Hne H. unfold cells, row_of, slice_1_m1. cbn [String.append split_on].
  cbn [Ascii.eqb Bool.eqb]. cbn [tl].
  rewrite (split_on_join "|" cs Hne H). now rewrite removelast_last.
Qed.

(** A greedy star that runs to the end of the text gives back its last
    character when the rest of the pattern needs it. *)
Lemma star_gives_back p k caps c r : forall s prev,
  all_in p s = true -> p c = true ->
  k (MState (Some c) "" caps) = None ->
  k (MState (last_char prev s) (String c "") caps) = Some r ->
  rmatch (Star true (Chr p)) (MState prev (s ++ String c "") caps) k = Some r.
Proof.
  induction s as [|a s IH]; intros prev Hs Hc Hend Hk.
  - cbn [String.append]. rewrite NormFacts.rmatch_star_cons, Hc.
    rewrite rmatch_star_nil, Hend. exact Hk.
  - cbn in Hs. apply andb_true_iff in Hs as [Ha Hs]. cbn [String.append].
    rewrite NormFacts.rmatch_star_cons, Ha.
    now rewrite (IH (Some a) Hs Hc Hend Hk).
Qed.

Lemma bar_is_dot : is_dot "|" = true.
Proof. reflexivity. Qed.

Lemma is_row_of body :
  all_in is_dot body = true -> is_row ("|" ++ body ++ "|") = true.
Proof.
  intros H. unfold is_row, test, re_row. cbn [cats String.append search last_char].
  unfold exec_at. rewrite rmatch_bol_start, NormFacts.rmatch_cat.
  rewrite NormFacts.rmatch_chr_hit by reflexivity.
  rewrite NormFacts.rmatch_cat.
  erewrite star_gives_back; [reflexivity | exact H | reflexivity | reflexivity |].
  reflexivity.
Qed.

Lemma all_in_join p sep cs :
  all_in p sep = true -> Forall (fun cell => all_in p cell = true) cs ->
  all_in p (join sep cs) = true.
Proof.
  intros Hsep. induction cs as [|x cs IH]; intros H; [reflexivity|].
  inversion H as [|? ? Hx Hcs]; subst. destruct cs as [|y cs]; [exact Hx|].
  change (join sep (x :: y :: cs)) with (x ++ sep ++ join sep (y :: cs)).
  rewrite !NormFacts.all_in_app, Hx, Hsep. now apply IH.
Qed.

(** X8. Write a row as a bar, then one or more cell texts separated by
    bars, then a bar, no cell holding a bar or a line terminator.  Then
    [convertTables] takes the line for a table row, and the cells it emits
    for it are the cell texts, each trimmed, in order. *)
Theorem X8_row_cells (cs : list string) :
  cs <> [] ->
  Forall (fun cell => no_bar cell = true) cs ->
  Forall (fun cell => all_in is_dot cell = true) cs ->
  is_row (row_of cs) = true /\ cells (row_of cs) = map trim cs.
Proof.
  intros Hne Hbar Hdot. split; [|now apply cells_of_row].
  apply is_row_of. now apply all_in_join.
Qed.

Lemma X8_row_cells_witness :
  row_of [" a "; ""; "b c"] = "| a ||b c|"
  /\ is_row "| a ||b c|" = true
  /\ cells "| a ||b c|" = ["a"; ""; "b c"].
Proof.
  assert (H0 : [" a "; ""; "b c"] <> []) by discriminate.
  assert (H1 : Forall (fun cell => no_bar cell = true) [" a "; ""; "b c"])
    by (repeat constructor).
  assert (H2 : Forall (fun cell => all_in is_dot cell = true) [" a "; ""; "b c"])
    by (repeat constructor).
  split; [reflexivity|].
  exact (X8_row_cells [" a "; ""; "b c"] H0 H1 H2).
Defined.

End RowFacts.

Module ProseFacts.

Import JS Regex Converter NormSpec ScanSpec EngineFacts ProseSpec StringFacts.

Lemma extract_chars block_of s st :
  extract_pieces block_of (chars Kept s) st = (s, st).
Proof. induction s as [|c s IH]; cbn; [reflexivity | now rewrite IH]. Qed.

Lemma tag_pass_lit r1 tpl :
  (forall m b a g b' a',
     get_substitution m b a g tpl = get_substitution m b' a' g tpl) ->
  tag_pass (Cat (Chr (is_char "<")) r1) tpl.
Proof.
  intros Ht. split; [|split]; [| |exact Ht].
  - intros prev prev' s. destruct s; reflexivity.
  - intros prev c s Hc. unfold exec_at. rewrite NormFacts.rmatch_cat.
    rewrite NormFacts.rmatch_chr_miss; [reflexivity|].
    unfold not_lt in Hc. now apply negb_true_iff in Hc.
Qed.

Lemma tag_pass_lit2 r1 r2 tpl :
  (forall m b a g b' a',
     get_substitution m b a g tpl = get_substitution m b' a' g tpl) ->
  tag_pass (Cat (Cat (Chr (is_char "<")) r1) r2) tpl.
Proof.
  intros Ht. split; [|split]; [| |exact Ht].
  - intros prev prev' s. destruct s; reflexivity.
  - intros prev c s Hc. unfold exec_at. rewrite !NormFacts.rmatch_cat.
    rewrite NormFacts.rmatch_chr_miss; [reflexivity|].
    unfold not_lt in Hc. now apply negb_true_iff in Hc.
Qed.

Lemma tag_pass_group n r1 r2 r3 tpl :
  (forall m b a g b' a',
     get_substitution m b a g tpl = get_substitution m b' a' g tpl) ->
  tag_pass (Cat (Group n (Cat (Cat (Chr (is_char "<")) r1) r2)) r3) tpl.
Proof.
  intros Ht. split; [|split]; [| |exact Ht].
  - intros prev prev' s. destruct s; reflexivity.
  - intros prev c s Hc. unfold exec_at.
    rewrite NormFacts.rmatch_cat, NormFacts.rmatch_group, !NormFacts.rmatch_cat.
    rewrite NormFacts.rmatch_chr_miss; [reflexivity|].
    unfold not_lt in Hc. now apply negb_true_iff in Hc.
Qed.

Lemma pass_empty_p : tag_pass re_empty_p "".
Proof. apply tag_pass_lit. reflexivity. Qed.

Lemma pass_p_heading : tag_pass re_p_heading "$1".
Proof. apply tag_pass_lit2. reflexivity. Qed.

Lemma pass_heading_p : tag_pass re_heading_p "$1".
Proof. apply tag_pass_group. reflexivity. Qed.

Section Outside.
Context (P : ascii -> bool).
Hypothesis Hneeds : forallb (needs P) markdown_regexes = true.
Hypothesis Hlt : forall c, P c = true -> is_char "<" c = false.
Hypothesis Hlf : forall c, P c = true -> is_char LF c = false.

Lemma needs_of r : In r markdown_regexes -> needs P r = true.
Proof. intros H. rewrite forallb_forall in Hneeds. now apply Hneeds. Qed.

Ltac listed := apply needs_of; unfold markdown_regexes; cbn [In]; tauto.

Lemma outside_not_lt s : all_in P s = true -> all_in not_lt s = true.
Proof.
  apply NormFacts.all_in_impl. intros c Hc. unfold not_lt. now rewrite (Hlt c Hc).
Qed.

Lemma outside_one_line s : all_in P s = true -> split_on LF s = [s].
Proof.
  intros H. apply RowFacts.split_on_plain.
  revert H. apply NormFacts.all_in_impl. intros c Hc. now rewrite (Hlf c Hc).
Qed.

Lemma convertLists_outside s : all_in P s = true -> convertLists s = s.
Proof.
  intros H. unfold convertLists. rewrite (outside_one_line s H).
  cbn [fold_left]. unfold list_step, classify.
  rewrite (search_outside P) by (first [listed | exact H]).
  rewrite (search_outside P) by (first [listed | exact H]).
  reflexivity.
Qed.

Lemma convertTables_outside s : all_in P s = true -> convertTables s = s.
Proof.
  intros H. unfold convertTables. rewrite (outside_one_line s H).
  unfold table_lines. cbn [List.length table_run table_init t_i].
  change (Nat.ltb 0 1) with true. cbv iota. unfold table_step.
  cbn [t_i nth t_inTable t_result t_headerRow]. unfold is_row, test.
  rewrite (search_outside P) by (first [listed | exact H]).
  reflexivity.
Qed.

Lemma miss_empty_p c s rest :
  not_lt c = true ->
  exec_at re_empty_p None (String "<" (("p>" ++ String c s) ++ rest)) = None.
Proof.
  intros Hc. unfold exec_at, re_empty_p. cbn [lit String.append].
  rewrite !NormFacts.rmatch_cat, NormFacts.rmatch_chr_hit by reflexivity.
  rewrite !NormFacts.rmatch_cat, NormFacts.rmatch_chr_hit by reflexivity.
  rewrite !NormFacts.rmatch_cat, NormFacts.rmatch_chr_hit by reflexivity.
  rewrite !NormFacts.rmatch_cat, NormFacts.rmatch_chr_miss; [reflexivity|].
  unfold not_lt in Hc. now apply negb_true_iff in Hc.
Qed.

Lemma miss_p_heading c s rest :
  not_lt c = true ->
  exec_at re_p_heading None (String "<" (("p>" ++ String c s) ++ rest)) = None.
Proof.
  intros Hc. unfold exec_at, re_p_heading. cbn [cats lit String.append].
  rewrite !NormFacts.rmatch_cat, NormFacts.rmatch_chr_hit by reflexivity.
  rewrite !NormFacts.rmatch_cat, NormFacts.rmatch_chr_hit by reflexivity.
  rewrite NormFacts.rmatch_chr_hit by reflexivity.
  rewrite NormFacts.rmatch_group, !NormFacts.rmatch_cat.
  rewrite NormFacts.rmatch_chr_miss; [reflexivity|].
  unfold not_lt in Hc. now apply negb_true_iff in Hc.
Qed.

Lemma miss_heading_p c s rest :
  exec_at re_heading_p None (String "<" (("p>" ++ String c s) ++ rest)) = None.
Proof. reflexivity. Qed.

Lemma paragraph_kept r tpl c s :
  tag_pass r tpl ->
  all_in P (String c s) = true ->
  exec_at r None (String "<" (("p>" ++ String c s) ++ "</p>")) = None ->
  replace_all r tpl "</p>" = "</p>" ->
  replace_all r tpl ("<p>" ++ String c s ++ "</p>") = "<p>" ++ String c s ++ "</p>".
Proof.
  intros Hpass Hs Hmiss Hend.
  change ("<p>" ++ String c s ++ "</p>")
    with ("" ++ String "<" ("p>" ++ String c s ++ "</p>")).
  rewrite <- (NormFacts.append_assoc "p>" (String c s) "</p>").
  rewrite (NormFacts.pass_miss r tpl Hpass "" ("p>" ++ String c s) "</p>");
    [now rewrite Hend | reflexivity | | exact Hmiss].
  rewrite NormFacts.all_in_app, (outside_not_lt _ Hs). reflexivity.
Qed.

Lemma convertMarkdownToConfluence_outside c s :
  all_in P (String c s) = true ->
  convertMarkdownToConfluence (String c s) = "<p>" ++ String c s ++ "</p>".
Proof.
  intros H. unfold convertMarkdownToConfluence. cbv zeta.
  repeat match goal with
         | |- context [replace_all ?r ?t (String c s)] =>
             rewrite (replace_all_outside P r t (String c s))
               by (first [listed | exact H])
         end.
  rewrite (convertLists_outside _ H), (convertTables_outside _ H).
  repeat match goal with
         | |- context [replace_all ?r ?t (String c s)] =>
             rewrite (replace_all_outside P r t (String c s))
               by (first [listed | exact H])
         end.
  assert (Hc : not_lt c = true).
  { cbn in H. apply andb_true_iff in H as [Hc _]. unfold not_lt.
    now rewrite (Hlt c Hc). }
  replace (starts_with "<" (String c s)) with false.
  2:{ change (starts_with "<" (String c s)) with (is_char "<" c && true).
      unfold not_lt in Hc. apply negb_true_iff in Hc. now rewrite Hc. }
  cbn [negb].
  rewrite (paragraph_kept re_empty_p "" c s pass_empty_p H
             (miss_empty_p c s _ Hc) eq_refl).
  rewrite (paragraph_kept re_p_heading "$1" c s pass_p_heading H
             (miss_p_heading c s _ Hc) eq_refl).
  rewrite (paragraph_kept re_heading_p "$1" c s pass_heading_p H
             (miss_heading_p c s _) eq_refl).
  reflexivity.
Qed.

Lemma convert_outside c s :
  all_in P (String c s) = true ->
  convert (String c s) = "<p>" ++ String c s ++ "</p>".
Proof.
  intros H. unfold convert, extractCodeBlocks.
  rewrite (pieces_outside P) by (first [listed | exact H]).
  rewrite extract_chars.
  rewrite (pieces_outside P) by (first [listed | exact H]).
  rewrite extract_chars.
  rewrite (convertMarkdownToConfluence_outside c s H). reflexivity.
Qed.

End Outside.

(** X9. Let a non-empty text hold none of the characters [#], [*], [_],
    [~], [[], [!], [-], [>], [+], [|], [<], the backtick and the line feed,
    and let it hold no full stop or no digit.  Then [convert] returns the
    text unchanged inside one [<p>] element. *)
Theorem X9_convert_prose (s : string) :
  prose s = true -> s <> EmptyString -> convert s = "<p>" ++ s ++ "</p>".
Proof.
  intros H Hne. destruct s as [|c s]; [contradiction|].
  unfold prose in H. apply orb_true_iff in H as [H|H].
  - apply (convert_outside no_stop); [vm_compute; reflexivity | | | exact H];
      intros d; destruct d as [[] [] [] [] [] [] [] []]; vm_compute; congruence.
  - apply (convert_outside no_digit); [vm_compute; reflexivity | | | exact H];
      intros d; destruct d as [[] [] [] [] [] [] [] []]; vm_compute; congruence.
Qed.

Lemma X9_convert_prose_witness :
  prose "Release notes, version 2 (draft)" = true
  /\ convert "Release notes, version 2 (draft)"
     = "<p>Release notes, version 2 (draft)</p>".
Proof.
  assert (H : prose "Release notes, version 2 (draft)" = true) by reflexivity.
  assert (Hne : "Release notes, version 2 (draft)" <> EmptyString) by discriminate.
  exact (conj H (X9_convert_prose _ H Hne)).
Defined.

End ProseFacts.

Module VoidFacts.

Import JS Regex Simple NormSpec ScanSpec BlockSpec EngineFacts.

(** A literal that is not a prefix of the text does not match it. *)
Lemma liti_miss p : forall s prev caps k,
  p <> EmptyString -> prefix_ci p s = false ->
  rmatch (liti p) (MState prev s caps) k = None.
Proof.
  induction p as [|a p IH]; intros s prev caps k Hne H; [contradiction|].
  destruct s as [|c s].
  - destruct p; reflexivity.
  - cbn [prefix_ci] in H. destruct p as [|b p].
    + cbn [liti prefix_ci] in *. rewrite andb_true_r in H.
      now rewrite NormFacts.rmatch_chr_miss.
    + change (liti (String a (String b p)))
        with (Cat (Chr (is_char_i a)) (liti (String b p))).
      rewrite NormFacts.rmatch_cat. destruct (is_char_i a c) eqn:Hc.
      * rewrite NormFacts.rmatch_chr_hit by exact Hc. apply IH; [discriminate|].
        exact H.
      * now rewrite NormFacts.rmatch_chr_miss.
Qed.

Lemma exec_liti_cat p r prev s :
  p <> EmptyString -> prefix_ci p s = false ->
  exec_at (Cat (liti p) r) prev s = None.
Proof.
  intros Hne H. unfold exec_at. rewrite NormFacts.rmatch_cat.
  now rewrite liti_miss.
Qed.

Lemma exec_liti p prev s :
  p <> EmptyString -> prefix_ci p s = false -> exec_at (liti p) prev s = None.
Proof. intros Hne H. unfold exec_at. now rewrite liti_miss. Qed.

Lemma no_void_suffix b : forall t, no_void (b ++ t) = true -> no_void t = true.
Proof.
  induction b as [|c b IH]; intros t H; [exact H|].
  cbn [String.append no_void] in H. apply andb_true_iff in H as [_ H]. now apply IH.
Qed.

Lemma no_void_here s : no_void s = true -> void_start s = false.
Proof.
  intros H. destruct s; cbn [no_void] in H; apply andb_true_iff in H as [H _];
    now apply negb_true_iff in H.
Qed.

Lemma replace_all_quiet r tpl s :
  (forall prev t, no_void t = true -> exec_at r prev t = None) ->
  no_void s = true -> replace_all r tpl s = s.
Proof.
  intros Hr Hs. unfold replace_all. rewrite scan_quiet.
  - apply concat_chars.
  - intros b t ->. apply Hr. now apply no_void_suffix in Hs.
Qed.

Ltac void_miss :=
  intros prev t Ht; apply no_void_here in Ht; unfold void_start in Ht;
  repeat match type of Ht with
         | (_ || _) = false => apply orb_false_iff in Ht as [Ht ?]
         end;
  first [ apply exec_liti_cat; [discriminate | assumption]
        | apply exec_liti; [discriminate | assumption] ].

Lemma cleanup_quiet (s : string) : no_void s = true -> cleanup s = s.
Proof.
  intros H. unfold cleanup.
  rewrite (replace_all_quiet (re_open "hr")) by (first [void_miss | exact H]).
  rewrite (replace_all_quiet (re_slashed "hr")) by (first [void_miss | exact H]).
  rewrite (replace_all_quiet (re_open "br")) by (first [void_miss | exact H]).
  rewrite (replace_all_quiet (re_slashed "br")) by (first [void_miss | exact H]).
  rewrite (replace_all_quiet re_img) by (first [void_miss | exact H]).
  rewrite (replace_all_quiet (re_closing "hr")) by (first [void_miss | exact H]).
  rewrite (replace_all_quiet (re_closing "br")) by (first [void_miss | exact H]).
  reflexivity.
Qed.

(** X19. The clean-up at the end of [convert] changes nothing in a text
    that nowhere starts, up to case, with [<hr], [<br], [<img], [</hr>] or
    [</br>]: all other markup, headings, paragraphs, macros and form
    controls among it, goes through untouched. *)
Theorem X19_cleanup_leaves_other_markup (s : string) :
  no_void s = true -> cleanup s = s.
Proof. apply cleanup_quiet. Qed.

Lemma X19_cleanup_leaves_other_markup_witness :
  no_void "<h1>Brief</h1><p>An <i>image</i>: <ac:image/></p><input type=x />" = true
  /\ cleanup "<h1>Brief</h1><p>An <i>image</i>: <ac:image/></p><input type=x />"
     = "<h1>Brief</h1><p>An <i>image</i>: <ac:image/></p><input type=x />".
Proof.
  assert (H : no_void "<h1>Brief</h1><p>An <i>image</i>: <ac:image/></p><input type=x />"
              = true) by reflexivity.
  exact (conj H (X19_cleanup_leaves_other_markup _ H)).
Defined.

End VoidFacts.

Module DocumentFacts.

Import JS Regex Simple NormSpec ScanSpec BlockSpec TagSpec EngineFacts.



(** A pass of the clean-up, over settled text in front of any text. *)
Section Pass.
Context (r : regex) (tpl : string).
Hypothesis Hpass : tag_pass r tpl.
Hypothesis Hvoid : forall prev t, void_start t = false -> exec_at r prev t = None.



End Pass.




Lemma spelled_void v : spelled (void_name v) (void_name v) = true.
Proof. now destruct v. Qed.



(** The sample document, before and after. *)
Example sample_document_source :
  source sample_document sample_rest
  = "<h1>Notes</h1><p>first<BR >second</p><hr / ><table><tr><td>" ++
    "<img src=a.png></img></td><td><IMG src=b.png /></td><td><img>" ++
    "</td></tr></table><p>end</br></p><ac:image/>".
Proof. reflexivity. Qed.

Example sample_document_normal :
  normal sample_document sample_rest
  = "<h1>Notes</h1><p>first<br/>second</p><hr/><table><tr><td>" ++
    "<img src=a.png/></img></td><td><IMG src=b.png /></td><td><img>" ++
    "</td></tr></table><p>end</p><ac:image/>".
Proof. reflexivity. Qed.


End DocumentFacts.

Module FenceFacts.

Import JS Regex NormSpec ScanSpec EngineFacts BlockSpec.

Lemma fence_needs_tick prev c t :
  no_tick c = true -> exec_at Mermaid.mermaidRegex prev (String c t) = None.
Proof.
  intros Hc. unfold exec_at, Mermaid.mermaidRegex. cbn [cats lit].
  rewrite !NormFacts.rmatch_cat, NormFacts.rmatch_chr_miss; [reflexivity|].
  unfold no_tick in Hc. now apply negb_true_iff in Hc.
Qed.

Lemma fence_not_empty prev : exec_at Mermaid.mermaidRegex prev EmptyString = None.
Proof. reflexivity. Qed.

Lemma fence_hit prev inner post :
  all_in no_tick inner = true ->
  exec_at Mermaid.mermaidRegex prev (diagram inner ++ post)
  = Some (Result (diagram inner) [Some inner] post).
Proof.
  intros Hin.
  rewrite (NormFacts.exec_at_hit _ prev (diagram inner) post (Some "`"%char)
             [(1, inner)]); [reflexivity|].
  unfold diagram, Mermaid.mermaidRegex. cbn [cats].
  rewrite !NormFacts.append_assoc.
  rewrite NormFacts.rmatch_cat, (rmatch_lit_hit "```mermaid").
  rewrite NormFacts.rmatch_cat.
  change (nl ++ inner ++ "```" ++ post) with (String LF (inner ++ "```" ++ post)).
  rewrite NormFacts.rmatch_chr_hit by reflexivity.
  rewrite NormFacts.rmatch_cat, NormFacts.rmatch_group.
  apply (lazy_until no_tick).
  - intros prev' c t Hc. cbn [m_prev m_rest m_caps lit].
    rewrite !NormFacts.rmatch_cat, NormFacts.rmatch_chr_miss; [reflexivity|].
    unfold no_tick in Hc. now apply negb_true_iff in Hc.
  - exact Hin.
  - cbn [m_prev m_rest m_caps]. rewrite (rmatch_lit_hit "```").
    rewrite NormFacts.consumed_app. reflexivity.
Qed.

Lemma diagram_cons inner : exists F, diagram inner = String "`" F.
Proof. eexists. reflexivity. Qed.

Lemma match_all_one pre inner post :
  all_in no_tick pre = true -> all_in no_tick inner = true ->
  all_in no_tick post = true ->
  match_all Mermaid.mermaidRegex (pre ++ diagram inner ++ post)
  = [Result (diagram inner) [Some inner] post].
Proof.
  intros Hpre Hin Hpost. unfold match_all.
  rewrite (scan_pass _ _ _ no_tick pre _ _ fence_needs_tick Hpre).
  destruct (diagram_cons inner) as [F HF].
  pose proof (fence_hit (last_char None ("" ++ pre)) inner post Hin) as Hhit.
  rewrite HF in *.
  rewrite (scan_hit _ _ _ "`" F post _ _ Hhit eq_refl).
  rewrite (scan_rest _ _ _ no_tick post _ fence_needs_tick fence_not_empty Hpost).
  rewrite concat_app. cbn [List.concat app].
  assert (Hnone : forall s, List.concat (chars (fun _ : ascii => @nil result) s) = []).
  { induction s as [|c s IH]; [reflexivity | exact IH]. }
  now rewrite !Hnone.
Qed.

Lemma starts_with_app p rest : starts_with p (p ++ rest) = true.
Proof.
  induction p as [|a p IH]; [reflexivity|]. cbn. now rewrite Ascii.eqb_refl, IH.
Qed.

Lemma drop_app p rest : drop (String.length p) (p ++ rest) = rest.
Proof. induction p as [|a p IH]; [reflexivity | exact IH]. Qed.

Lemma find_first_behind (P : ascii -> bool) a F pre : forall rest before,
  P a = false -> all_in P pre = true ->
  find_first (String a F) before (pre ++ String a F ++ rest)
  = Some (before ++ pre, rest).
Proof.
  induction pre as [|c pre IH]; intros rest before Ha Hpre.
  - cbn [String.append]. change (String a (F ++ rest)) with (String a F ++ rest).
    destruct (String a F ++ rest) as [|x y] eqn:Hs; [discriminate|].
    cbn [find_first]. rewrite <- Hs. rewrite starts_with_app, drop_app.
    now rewrite NormFacts.append_nil_r.
  - cbn in Hpre. apply andb_true_iff in Hpre as [Hc Hpre].
    cbn [String.append find_first starts_with].
    replace (Ascii.eqb a c) with false.
    2:{ symmetry. apply Ascii.eqb_neq. intros ->. congruence. }
    cbn [andb]. rewrite (IH rest _ Ha Hpre). now rewrite NormFacts.append_assoc.
Qed.

Lemma find_diagram pre inner post :
  all_in no_tick pre = true ->
  find_first (diagram inner) EmptyString (pre ++ diagram inner ++ post)
  = Some (pre, post).
Proof.
  intros Hpre. destruct (diagram_cons inner) as [F HF]. rewrite HF.
  apply (find_first_behind no_tick); [reflexivity | exact Hpre].
Qed.

End FenceFacts.

Module RendererFacts.

Import JS Regex NormSpec ScanSpec EngineFacts BlockSpec.

Lemma marker_hit prev body :
  plain body = true ->
  exec_at Simple.mermaidPlaceholderRegex prev
          ((Renderer.placeholder_start ++ body ++ Renderer.placeholder_end) ++ "")
  = Some (Result (Renderer.placeholder_start ++ body ++ Renderer.placeholder_end)
                 [Some body] "").
Proof.
  intros Hb.
  rewrite (NormFacts.exec_at_hit _ prev _ "" (Some ">"%char) [(1, body)]);
    [reflexivity|].
  unfold Simple.mermaidPlaceholderRegex, Renderer.placeholder_start,
    Renderer.placeholder_end. cbn [cats].
  rewrite !NormFacts.append_assoc.
  rewrite NormFacts.rmatch_cat,
    (rmatch_lit_hit "<!--MERMAID_BLOCK_PLACEHOLDER_START-->").
  rewrite NormFacts.rmatch_cat, NormFacts.rmatch_group.
  apply (lazy_until not_lt).
  - intros prev' c t Hc. cbn [m_prev m_rest m_caps lit].
    rewrite !NormFacts.rmatch_cat, NormFacts.rmatch_chr_miss; [reflexivity|].
    unfold not_lt in Hc. now apply negb_true_iff in Hc.
  - exact Hb.
  - cbn [m_prev m_rest m_caps].
    rewrite (rmatch_lit_hit "<!--MERMAID_BLOCK_PLACEHOLDER_END-->").
    rewrite NormFacts.consumed_app. reflexivity.
Qed.

(** X21. A code token whose language is [mermaid], in any case, and whose
    code holds no [<], is rendered by [renderer.code] between the two
    markers; the replacement that [convert] then makes finds exactly that
    block and turns it into [<pre><code>mermaid], a line feed, the code
    unchanged, and [</code></pre>]: the code comes through whole. *)
Theorem X21_mermaid_block_round_trip (text raw lang : string) :
  toLowerCase (or_else lang "text") = "mermaid" ->
  plain (or_else (or_else text raw) EmptyString) = true ->
  replace_all_with Simple.mermaidPlaceholderRegex Renderer.preformatted
    (Renderer.code text raw lang)
  = "<pre><code>mermaid" ++ nl ++ or_else (or_else text raw) EmptyString ++
    "</code></pre>".
Proof.
  intros Hlang Hplain. unfold Renderer.code. cbv zeta. rewrite Hlang.
  cbn [String.eqb Ascii.eqb Bool.eqb].
  set (body := or_else (or_else text raw) EmptyString) in *.
  unfold replace_all_with.
  pose proof (marker_hit None body Hplain) as Hhit.
  assert (Hcons : exists F, Renderer.placeholder_start ++ body ++ Renderer.placeholder_end
                            = String "<" F) by (eexists; reflexivity).
  destruct Hcons as [F HF].
  rewrite <- (NormFacts.append_nil_r (Renderer.placeholder_start ++ _)).
  rewrite HF in *.
  rewrite (scan_hit _ _ _ "<" F "" "" _ Hhit eq_refl).
  cbn [scan]. replace (exec_at _ _ "") with (@None result) by reflexivity.
  cbn [concat_all fold_right]. unfold Renderer.preformatted.
  change (group _ 1) with body. now rewrite !NormFacts.append_nil_r.
Qed.

Lemma X21_mermaid_block_round_trip_witness :
  replace_all_with Simple.mermaidPlaceholderRegex Renderer.preformatted
    (Renderer.code ("graph TD; A-->B" ++ nl) EmptyString "Mermaid")
  = "<pre><code>mermaid" ++ nl ++ "graph TD; A-->B" ++ nl ++ "</code></pre>".
Proof.
  assert (H1 : toLowerCase (or_else "Mermaid" "text") = "mermaid") by reflexivity.
  assert (H2 : plain (or_else (or_else ("graph TD; A-->B" ++ nl) EmptyString)
                        EmptyString) = true) by reflexivity.
  exact (X21_mermaid_block_round_trip ("graph TD; A-->B" ++ nl) EmptyString "Mermaid"
           H1 H2).
Defined.

Lemma no_void_plain a : forall b, plain a = true -> no_void (a ++ b) = no_void b.
Proof.
  induction a as [|c a IH]; intros b H; [reflexivity|].
  cbn in H. apply andb_true_iff in H as [Hc Ha].
  cbn [String.append no_void]. rewrite (IH b Ha).
  replace (void_start (String c (a ++ b))) with false; [reflexivity|].
  unfold not_lt in Hc. apply negb_true_iff in Hc.
  unfold void_start. cbn [prefix_ci]. rewrite !NormFacts.ci_lt, Hc. reflexivity.
Qed.

(** X22. A list item as [renderer.listitem] writes it, with or without the
    check box of a task list, goes through the clean-up of [convert]
    unchanged when its inline content holds no [<]: the self-closing
    [<input ... />] is kept as it is. *)
Theorem X22_listitem_passes_cleanup (parsed text : string) (task checked : bool) :
  plain parsed = true ->
  Simple.cleanup (Renderer.listitem (Some parsed) text task checked)
  = Renderer.listitem (Some parsed) text task checked.
Proof.
  intros H. apply VoidFacts.cleanup_quiet.
  unfold Renderer.listitem, Renderer.checkbox. cbv zeta.
  destruct task; [destruct checked|]; rewrite ?NormFacts.append_assoc;
    cbn; rewrite (no_void_plain parsed _ H); reflexivity.
Qed.

Lemma X22_listitem_passes_cleanup_witness :
  Simple.cleanup (Renderer.listitem (Some "buy milk") EmptyString true true)
  = "<li><input type=" ++ dq ++ "checkbox" ++ dq ++ " checked=" ++ dq ++ "checked" ++
    dq ++ " disabled=" ++ dq ++ "disabled" ++ dq ++ " /> buy milk</li>" ++ nl.
Proof.
  assert (H : plain "buy milk" = true) by reflexivity.
  exact (X22_listitem_passes_cleanup "buy milk" EmptyString true true H).
Defined.

End RendererFacts.

Module UrlFacts.

Import JS Regex World NormSpec SettingTab.

Lemma exec_slash_end prev :
  exec_at re_trailing_slash prev "/" = Some (Result "/" [] EmptyString).
Proof. reflexivity. Qed.

Lemma exec_slash_inside prev c d s :
  exec_at re_trailing_slash prev (String c (String d s)) = None.
Proof.
  unfold exec_at, re_trailing_slash. cbn [cats]. rewrite NormFacts.rmatch_cat.
  destruct (is_char "/" c) eqn:Hc.
  - rewrite NormFacts.rmatch_chr_hit by exact Hc. reflexivity.
  - now rewrite NormFacts.rmatch_chr_miss.
Qed.

Lemma search_cons r before c s :
  search r before (String c s)
  = match exec_at r (last_char None before) (String c s) with
    | Some m => Some (before, m)
    | None => search r (before ++ String c EmptyString) s
    end.
Proof. reflexivity. Qed.

Lemma search_slash_end s : forall before,
  search re_trailing_slash before (s ++ "/")
  = Some (before ++ s, Result "/" [] EmptyString).
Proof.
  induction s as [|c s IH]; intros before.
  - cbn [String.append search]. rewrite exec_slash_end.
    now rewrite NormFacts.append_nil_r.
  - cbn [String.append].
    destruct (s ++ "/") as [|d s'] eqn:Hs; [destruct s; discriminate|].
    rewrite search_cons, exec_slash_inside, IH.
    now rewrite NormFacts.append_assoc.
Qed.

Lemma search_no_slash_end s : forall before,
  ends_with_slash s = false -> search re_trailing_slash before s = None.
Proof.
  induction s as [|c s IH]; intros before H; [reflexivity|].
  rewrite search_cons. destruct s as [|d s].
  - unfold ends_with_slash in H. cbn in H.
    unfold exec_at, re_trailing_slash. cbn [cats]. rewrite NormFacts.rmatch_cat.
    rewrite NormFacts.rmatch_chr_miss by exact H. reflexivity.
  - rewrite exec_slash_inside. apply IH. exact H.
Qed.

Lemma base_url_normalized (s : string) :
  normalize_baseUrl (s ++ "/") = s
  /\ (ends_with_slash s = false -> normalize_baseUrl s = s).
Proof.
  unfold normalize_baseUrl, replace_first. split.
  - rewrite search_slash_end. cbn. now rewrite !NormFacts.append_nil_r.
  - intros H. now rewrite search_no_slash_end.
Qed.

End UrlFacts.

Module HeadingFacts.
Import JS Regex Converter NormSpec ScanSpec EngineFacts StringFacts HeadingSpec.

Lemma exec_bol_behind R x t :
  is_line_terminator x = false -> exec_at (Cat (Bol true) R) (Some x) t = None.
Proof.
  intros Hx. unfold exec_at. rewrite NormFacts.rmatch_cat.
  cbn [rmatch at_bol m_prev]. now rewrite Hx.
Qed.

Lemma prefix_last (p : ascii -> bool) b t :
  all_in p (b ++ t) = true -> b <> EmptyString ->
  exists x, last_char None b = Some x /\ p x = true.
Proof.
  intros H Hb. apply NormFacts.all_in_last; [|exact Hb].
  rewrite NormFacts.all_in_app in H. now apply andb_true_iff in H.
Qed.

(** A regex anchored at the start of a line, on a text of one line: if it
    does not match the whole text from its start, it matches nowhere. *)
Lemma bol_quiet R tpl s :
  all_in same_line s = true ->
  exec_at (Cat (Bol true) R) None s = None ->
  replace_all (Cat (Bol true) R) tpl s = s.
Proof.
  intros Hs H0. unfold replace_all. rewrite scan_quiet; [apply concat_chars|].
  intros b t ->. destruct b as [|x b]; [exact H0|].
  destruct (prefix_last same_line (String x b) t Hs) as (y & Hy & Hsame);
    [discriminate|].
  cbn [String.append] in Hy |- *. rewrite Hy. apply exec_bol_behind.
  unfold same_line in Hsame. now apply negb_true_iff in Hsame.
Qed.

(** And if it matches the whole text, the text is replaced as a whole. *)
Lemma bol_whole R tpl c F g :
  all_in same_line (String c F) = true ->
  exec_at (Cat (Bol true) R) None (String c F ++ "") = Some (Result (String c F) g "") ->
  replace_all (Cat (Bol true) R) tpl (String c F)
  = get_substitution (String c F) "" "" g tpl.
Proof.
  intros Hs H0. unfold replace_all.
  rewrite <- (NormFacts.append_nil_r (String c F)) at 1.
  rewrite (scan_hit _ _ _ c F "" "" _ H0 eq_refl).
  cbn [scan matched after groups]. 
  destruct (prefix_last same_line (String c F) "" ) as (y & Hy & Hsame);
    [now rewrite NormFacts.append_nil_r | discriminate |].
  cbn [String.append] in Hy |- *. rewrite Hy.
  rewrite exec_bol_behind
    by (unfold same_line in Hsame; now apply negb_true_iff in Hsame).
  cbn [concat_all fold_right]. now rewrite NormFacts.append_nil_r.
Qed.

Lemma star_to_end p k caps r : forall t prev,
  all_in p t = true ->
  k (MState (last_char prev t) "" caps) = Some r ->
  rmatch (Star true (Chr p)) (MState prev t caps) k = Some r.
Proof.
  induction t as [|a t IH]; intros prev Ht Hk.
  - exact Hk.
  - cbn in Ht. apply andb_true_iff in Ht as [Ha Ht].
    rewrite NormFacts.rmatch_star_cons, Ha. now rewrite (IH (Some a) Ht Hk).
Qed.

Lemma title_same_line s : all_in title_char s = true -> all_in same_line s = true.
Proof.
  apply NormFacts.all_in_impl. intros c H. unfold title_char in H.
  now apply andb_true_iff in H.
Qed.

Lemma title_is_dot s : all_in title_char s = true -> all_in is_dot s = true.
Proof. apply title_same_line. Qed.

Lemma rmatch_bol_first m s caps k :
  rmatch (Bol m) (MState None s caps) k = k (MState None s caps).
Proof. reflexivity. Qed.

Lemma rmatch_eol_last m prev caps k :
  rmatch (Eol m) (MState prev "" caps) k = k (MState prev "" caps).
Proof. reflexivity. Qed.

Lemma consumed_all p s caps p' caps' :
  consumed (MState p s caps) (MState p' "" caps') = s.
Proof.
  unfold consumed. cbn [m_rest]. change (String.length "") with 0.
  rewrite Nat.sub_0_r. induction s as [|a s IH]; [reflexivity|]. cbn. now rewrite IH.
Qed.

Lemma ngroups_lit s : ngroups (lit s) = 0.
Proof.
  induction s as [|a s IH]; [reflexivity|].
  destruct s as [|b s]; [reflexivity|].
  change (lit (String a (String b s))) with (Cat (Chr (is_char a)) (lit (String b s))).
  cbn [ngroups]. now rewrite IH.
Qed.

Lemma ngroups_heading m : ngroups (re_heading m) = 1.
Proof. unfold re_heading. cbn [cats ngroups Plus]. now rewrite ngroups_lit. Qed.

(** The heading regex of level [n] on a heading line of level [n]. *)
Lemma heading_hit n c t :
  is_space c = false -> all_in title_char (String c t) = true ->
  exec_at (re_heading (marks n)) None (heading_line n (String c t) ++ "")
  = Some (Result (heading_line n (String c t)) [Some (String c t)] "").
Proof.
  intros Hc Ht.
  rewrite (NormFacts.exec_at_hit _ None _ "" (last_char (Some c) t)
             [(1, String c t)]); [now rewrite ngroups_heading|].
  unfold re_heading, heading_line. cbn [cats]. rewrite !NormFacts.append_assoc.
  rewrite NormFacts.rmatch_cat, rmatch_bol_first.
  rewrite NormFacts.rmatch_cat, (rmatch_lit_hit (marks n)).
  unfold Plus. rewrite !NormFacts.rmatch_cat.
  change (" " ++ String c t ++ "") with (String " " (String c (t ++ ""))).
  rewrite NormFacts.rmatch_chr_hit by reflexivity.
  rewrite NormFacts.rmatch_star_cons, Hc.
  rewrite NormFacts.rmatch_cat, NormFacts.rmatch_group, NormFacts.rmatch_cat.
  pose proof (title_is_dot _ Ht) as Hdot. cbn in Hdot.
  apply andb_true_iff in Hdot as [Hdc Hdt].
  rewrite NormFacts.rmatch_chr_hit by exact Hdc.
  rewrite NormFacts.append_nil_r.
  apply star_to_end; [exact Hdt|].
  cbn [m_prev m_rest m_caps]. rewrite rmatch_eol_last.
  now rewrite consumed_all.
Qed.

Lemma heading_quiet m tpl s :
  all_in same_line s = true ->
  exec_at (re_heading m) None s = None ->
  replace_all (re_heading m) tpl s = s.
Proof. apply bol_quiet. Qed.

Lemma blockquote_quiet tpl s :
  all_in same_line s = true ->
  exec_at re_blockquote None s = None ->
  replace_all re_blockquote tpl s = s.
Proof. apply bol_quiet. Qed.

Lemma heading_pass n c t tpl :
  is_space c = false -> all_in title_char (String c t) = true ->
  all_in same_line (heading_line n (String c t)) = true ->
  n <> 0 ->
  replace_all (re_heading (marks n)) tpl (heading_line n (String c t))
  = get_substitution (heading_line n (String c t)) "" "" [Some (String c t)] tpl.
Proof.
  intros Hc Ht Hl Hn. destruct n as [|n]; [contradiction|].
  pose proof (heading_hit (S n) c t Hc Ht) as Hhit.
  unfold heading_line in *. cbn [marks String.append] in *.
  now apply (bol_whole _ tpl "#").
Qed.

Lemma all_in_marks p n : p "#"%char = true -> all_in p (marks n) = true.
Proof. intros H. induction n; cbn; [reflexivity | now rewrite H]. Qed.

Lemma title_line c : title_char c = true -> line_char c = true.
Proof. intros H. unfold line_char. now rewrite H. Qed.

Lemma title_element c : title_char c = true -> element_char c = true.
Proof. intros H. unfold element_char. now rewrite H. Qed.

Lemma line_chars n title :
  all_in title_char title = true ->
  all_in line_char (heading_line n title) = true.
Proof.
  intros H. unfold heading_line. rewrite !NormFacts.all_in_app.
  rewrite all_in_marks by reflexivity.
  now rewrite (NormFacts.all_in_impl _ _ _ title_line H).
Qed.

Lemma line_same_line n title :
  all_in title_char title = true ->
  all_in same_line (heading_line n title) = true.
Proof.
  intros H. unfold heading_line. rewrite !NormFacts.all_in_app.
  rewrite all_in_marks by reflexivity. now rewrite (title_same_line _ H).
Qed.

Lemma element_chars n title :
  1 <= n <= 6 ->
  all_in title_char title = true ->
  all_in element_char (heading_element n title) = true.
Proof.
  intros Hn H. unfold heading_element.
  assert (Hd : element_char (level_digit n) = true).
  { assert (Hc : n = 1 \/ n = 2 \/ n = 3 \/ n = 4 \/ n = 5 \/ n = 6) by lia.
    destruct Hc as [->|[->|[->|[->|[->| ->]]]]]; reflexivity. }
  cbn [String.append all_in]. rewrite !NormFacts.all_in_app. cbn [all_in].
  rewrite Hd, (NormFacts.all_in_impl _ _ _ title_element H). reflexivity.
Qed.

Lemma element_same_line s : all_in element_char s = true -> all_in same_line s = true.
Proof.
  apply NormFacts.all_in_impl. intros c.
  destruct c as [[] [] [] [] [] [] [] []]; vm_compute; congruence.
Qed.

Lemma element_not_lf c : element_char c = true -> is_char LF c = false.
Proof. destruct c as [[] [] [] [] [] [] [] []]; vm_compute; congruence. Qed.

Lemma inline_needs r : In r inline_regexes -> needs element_char r = true.
Proof.
  assert (H : forallb (needs element_char) inline_regexes = true)
    by (vm_compute; reflexivity).
  rewrite forallb_forall in H. apply H.
Qed.

Lemma element_one_line s : all_in element_char s = true -> split_on LF s = [s].
Proof.
  intros H. apply RowFacts.split_on_plain.
  revert H. apply NormFacts.all_in_impl. intros c Hc. now rewrite (element_not_lf c Hc).
Qed.

Ltac inline := apply inline_needs; unfold inline_regexes; cbn [In]; tauto.

Lemma convertLists_element s : all_in element_char s = true -> convertLists s = s.
Proof.
  intros H. unfold convertLists. rewrite (element_one_line s H).
  cbn [fold_left]. unfold list_step, classify.
  rewrite (search_outside element_char) by (first [inline | exact H]).
  rewrite (search_outside element_char) by (first [inline | exact H]).
  reflexivity.
Qed.

Lemma convertTables_element s : all_in element_char s = true -> convertTables s = s.
Proof.
  intros H. unfold convertTables. rewrite (element_one_line s H).
  unfold table_lines. cbn [List.length table_run table_init t_i].
  change (Nat.ltb 0 1) with true. cbv iota. unfold table_step.
  cbn [t_i nth t_inTable t_result t_headerRow]. unfold is_row, test.
  rewrite (search_outside element_char) by (first [inline | exact H]).
  reflexivity.
Qed.

(** The last three passes on an element: two tags, text between them. *)
Lemma element_kept r tpl n title :
  tag_pass r tpl ->
  not_lt (level_digit n) = true ->
  all_in title_char title = true ->
  exec_at r None (heading_element n title) = None ->
  replace_all r tpl ("</h" ++ String (level_digit n) ">")
  = "</h" ++ String (level_digit n) ">" ->
  replace_all r tpl (heading_element n title) = heading_element n title.
Proof.
  intros Hpass Hd Ht Hmiss Hend. unfold heading_element in *.
  pose proof (NormFacts.pass_miss r tpl Hpass ""
                (String "h" (String (level_digit n) (String ">" title)))
                ("</h" ++ String (level_digit n) ">")) as H.
  cbn [String.append] in H, Hmiss, Hend |- *. rewrite H; clear H.
  - now rewrite Hend.
  - reflexivity.
  - cbn [all_in]. rewrite Hd. cbn.
    revert Ht. apply NormFacts.all_in_impl. intros c.
    destruct c as [[] [] [] [] [] [] [] []]; vm_compute; congruence.
  - exact Hmiss.
Qed.

Lemma element_starts n title : starts_with "<" (heading_element n title) = true.
Proof. reflexivity. Qed.

Lemma convert_level n c t :
  1 <= n <= 6 -> is_space c = false -> all_in title_char (String c t) = true ->
  get_substitution (heading_line n (String c t)) "" "" [Some (String c t)]
    ("<h" ++ String (level_digit n) (">$1</h" ++ String (level_digit n) ">"))
  = heading_element n (String c t).
Proof.
  intros Hn _ _.
  assert (Hc : n = 1 \/ n = 2 \/ n = 3 \/ n = 4 \/ n = 5 \/ n = 6) by lia.
  destruct Hc as [->|[->|[->|[->|[->| ->]]]]]; reflexivity.
Qed.

Lemma line_needs r :
  In r [re_fenced; re_inline] -> needs line_char r = true.
Proof.
  assert (H : forallb (needs line_char) [re_fenced; re_inline] = true)
    by (vm_compute; reflexivity).
  rewrite forallb_forall in H. apply H.
Qed.

Lemma extract_line n title st :
  all_in title_char title = true ->
  extractCodeBlocks (heading_line n title) st = (heading_line n title, st).
Proof.
  intros H. pose proof (line_chars n title H) as Hl. unfold extractCodeBlocks.
  rewrite (pieces_outside line_char) by (first [apply line_needs; cbn; tauto | exact Hl]).
  rewrite ProseFacts.extract_chars.
  rewrite (pieces_outside line_char) by (first [apply line_needs; cbn; tauto | exact Hl]).
  now rewrite ProseFacts.extract_chars.
Qed.

(** The passes behind the heading passes, on a heading element. *)
Lemma element_through n title :
  1 <= n <= 6 -> all_in title_char title = true ->
  forall s, s = heading_element n title ->
  (let content := replace_all (re_delimited "***") "<strong><em>$1</em></strong>" s in
  let content := replace_all (re_delimited "**") "<strong>$1</strong>" content in
  let content := replace_all (re_delimited "*") "<em>$1</em>" content in
  let content := replace_all (re_delimited "___") "<strong><em>$1</em></strong>" content in
  let content := replace_all (re_delimited "__") "<strong>$1</strong>" content in
  let content := replace_all (re_delimited "_") "<em>$1</em>" content in
  let content := replace_all (re_delimited "~~") "<del>$1</del>" content in
  let content :=
    replace_all re_link ("<a href=" ++ dq ++ "$2" ++ dq ++ ">$1</a>") content in
  let content :=
    replace_all re_image
      ("<ac:image><ri:url ri:value=" ++ dq ++ "$2" ++ dq ++ " /></ac:image>")
      content in
  let content := replace_all (re_rule "-") "<hr />" content in
  let content := replace_all (re_rule "*") "<hr />" content in
  let content := replace_all re_blockquote "<blockquote>$1</blockquote>" content in
  let content := convertLists content in
  let content := convertTables content in
  let content := replace_all re_blank_lines "</p><p>" content in
  let content := replace_all re_newline "<br />" content in
  let content :=
    if negb (starts_with "<" content) then "<p>" ++ content ++ "</p>" else content in
  let content := replace_all re_empty_p "" content in
  let content := replace_all re_p_heading "$1" content in
  let content := replace_all re_heading_p "$1" content in
  content) = s.
Proof.
  intros Hn Ht s Hs. cbv zeta.
  pose proof (element_chars n title Hn Ht) as He. rewrite <- Hs in He.
  pose proof (element_same_line s He) as Hsame.
  repeat match goal with
         | |- context [replace_all ?r ?tpl s] =>
             rewrite (replace_all_outside element_char r tpl s)
               by (first [inline | exact He])
         end.
  rewrite blockquote_quiet by (first [exact Hsame | subst s; reflexivity]).
  rewrite (convertLists_element s He), (convertTables_element s He).
  repeat match goal with
         | |- context [replace_all ?r ?tpl s] =>
             rewrite (replace_all_outside element_char r tpl s)
               by (first [inline | exact He])
         end.
  subst s. rewrite element_starts. cbn [negb].
  assert (Hc : n = 1 \/ n = 2 \/ n = 3 \/ n = 4 \/ n = 5 \/ n = 6) by lia.
  rewrite (element_kept re_empty_p "" n title ProseFacts.pass_empty_p);
    [| destruct Hc as [->|[->|[->|[->|[->| ->]]]]]; reflexivity | exact Ht
     | reflexivity | destruct Hc as [->|[->|[->|[->|[->| ->]]]]]; reflexivity].
  rewrite (element_kept re_p_heading "$1" n title ProseFacts.pass_p_heading);
    [| destruct Hc as [->|[->|[->|[->|[->| ->]]]]]; reflexivity | exact Ht
     | reflexivity | destruct Hc as [->|[->|[->|[->|[->| ->]]]]]; reflexivity].
  rewrite (element_kept re_heading_p "$1" n title ProseFacts.pass_heading_p);
    [| destruct Hc as [->|[->|[->|[->|[->| ->]]]]]; reflexivity | exact Ht
     | reflexivity | destruct Hc as [->|[->|[->|[->|[->| ->]]]]]; reflexivity].
  reflexivity.
Qed.

(** The heading passes run from level six down to level one: the passes
    above the level of the line miss it, the pass of its level replaces the
    whole line, and the passes below no longer find a number sign. *)
Ltac heading_miss Hl :=
  rewrite (heading_quiet _ _ _ Hl) by reflexivity.

Ltac heading_done He :=
  repeat match goal with
         | |- context [replace_all ?r ?tpl (heading_element ?n ?title)] =>
             rewrite (replace_all_outside element_char r tpl (heading_element n title))
               by (first [inline | exact He])
         end.

(** X24. A line of one to six number signs, one space and a title converts to
    the heading element of that level around the title, when the title starts
    with a character that is not white space and holds no markup character,
    no full stop and no line terminator. *)
Theorem X24_convert_heading n c t :
  1 <= n <= 6 -> is_space c = false -> all_in title_char (String c t) = true ->
  convert (heading_line n (String c t)) = heading_element n (String c t).
Proof.
  intros Hn Hc Ht. unfold convert.
  rewrite (extract_line n _ _ Ht).
  pose proof (line_same_line n _ Ht) as Hl.
  pose proof (element_chars n _ Hn Ht) as He.
  pose proof (element_through n _ Hn Ht _ eq_refl) as Hthrough.
  cbv zeta in Hthrough.
  assert (Hhead :
    replace_all (re_heading "#") "<h1>$1</h1>"
      (replace_all (re_heading "##") "<h2>$1</h2>"
        (replace_all (re_heading "###") "<h3>$1</h3>"
          (replace_all (re_heading "####") "<h4>$1</h4>"
            (replace_all (re_heading "#####") "<h5>$1</h5>"
              (replace_all (re_heading "######") "<h6>$1</h6>"
                 (heading_line n (String c t)))))))
    = heading_element n (String c t)).
  { assert (Hk : n = 1 \/ n = 2 \/ n = 3 \/ n = 4 \/ n = 5 \/ n = 6) by lia.
    destruct Hk as [->|[->|[->|[->|[->| ->]]]]].
    all: repeat heading_miss Hl.
    all: match goal with
         | |- context [replace_all (re_heading ?m) ?tpl (heading_line ?k ?title)] =>
             change (re_heading m) with (re_heading (marks k));
             rewrite (heading_pass k c t tpl Hc Ht Hl) by discriminate;
             change tpl
               with ("<h" ++ String (level_digit k) (">$1</h" ++ String (level_digit k) ">"));
             rewrite (convert_level k c t) by (first [lia | assumption])
         end.
    all: heading_done He.
    all: reflexivity. }
  unfold convertMarkdownToConfluence. cbv zeta.
  rewrite Hhead, Hthrough. reflexivity.
Qed.

Lemma X24_convert_heading_witness :
  convert "## Release notes" = "<h2>Release notes</h2>".
Proof.
  apply (X24_convert_heading 2 "R" "elease notes"); [lia | reflexivity | reflexivity].
Defined.

End HeadingFacts.

(** Reduction in the proofs about runs stops at the string functions. *)
#[local] Arguments String.append : simpl never.
#[local] Arguments String.eqb : simpl never.
#[local] Arguments JS.of_nat : simpl never.
#[local] Arguments JS.replace_str : simpl never.
#[local] Arguments JS.trim : simpl never.
#[local] Arguments Nat.leb : simpl never.
#[local] Arguments Nat.ltb : simpl never.
#[local] Arguments Nat.eqb : simpl never.
#[local] Arguments Regex.group : simpl never.
#[local] Arguments Regex.match_all : simpl never.
#[local] Arguments Regex.replace_all : simpl never.
#[local] Arguments Regex.replace_all_with : simpl never.
#[local] Arguments Mermaid.generateConfluenceMarkup : simpl never.
#[local] Arguments Mermaid.placeholder : simpl never.
#[local] Arguments Mermaid.mermaidRegex : simpl never.
#[local] Arguments Simple.cleanup : simpl never.
#[local] Arguments Simple.mermaidPlaceholderRegex : simpl never.

(** Unfold the monad and the API client down to the calls of the
    environment. *)
Ltac run_api :=
  unfold Api.uploadAttachment, Api.updatePage, Api.getPage, Api.getHeaders,
    Api.requestUrl, Api.page_url, Api.getPageUrl, Api.rethrow,
    World.bind, World.try_catch, World.ret, World.throw, World.emit, World.get,
    World.tick, World.set_lastPageId, World.lift_outcome,
    World.next_renderCounter, World.result_of, World.events_of, World.state_of.

(** Split on a [match] whose scrutinee is not itself a [match]. *)
Ltac break_match :=
  match goal with
  | |- context [match ?x with _ => _ end] =>
      lazymatch x with
      | context [match _ with _ => _ end] => fail
      | _ => destruct x eqn:?
      end
  end.

Module ApiFacts.

Import JS World Api TraceSpec.

Lemma is_2xx_spec (st : nat) :
  is_2xx st = negb (Nat.ltb st 200 || Nat.leb 300 st).
Proof.
  unfold is_2xx.
  destruct (Nat.leb 200 st) eqn:H1, (Nat.ltb st 300) eqn:H2,
           (Nat.ltb st 200) eqn:H3, (Nat.leb 300 st) eqn:H4; simpl; try reflexivity;
    repeat match goal with
           | H : Nat.leb _ _ = true |- _ => apply Nat.leb_le in H
           | H : Nat.leb _ _ = false |- _ => apply Nat.leb_gt in H
           | H : Nat.ltb _ _ = true |- _ => apply Nat.ltb_lt in H
           | H : Nat.ltb _ _ = false |- _ => apply Nat.ltb_ge in H
           end; lia.
Qed.

Section WithEnv.
Context (E : env).

Lemma next_version_safe (v : N) :
  (v < 9007199254740992)%N -> next_version v = Some (v + 1)%N.
Proof.
  intros H. unfold next_version, to_double.
  replace (v <=? 9007199254740992)%N with true by (symmetry; apply N.leb_le; lia).
  unfold plus_one, to_double.
  replace (v + 1 <=? 9007199254740992)%N with true by (symmetry; apply N.leb_le; lia).
  reflexivity.
Qed.

(** C9 (amended). Every run of [updatePage] has one of three shapes: no
    request at all (it failed on its arguments or settings); a single GET of
    the page that failed; or a GET of the page answered with status 200,
    followed by exactly one PUT to the same page whose version is the next
    version after the one just read.  So no PUT goes out without the read
    before it, and when the PUT is answered outside 2xx (a version conflict,
    say) the call throws and sends nothing more.  The next version is the
    version read plus one for every version below 2^53. *)
Theorem C9_update_reads_then_writes (pageId content title0 : string) (s : state) :
  update_shape (baseUrl (settings s)) pageId content title0
    (result_of (updatePage E pageId content title0 s))
    (https (events_of (updatePage E pageId content title0 s)))
  /\ (forall v, (v < 9007199254740992)%N -> next_version v = Some (v + 1)%N).
Proof.
  split; [|exact next_version_safe].
  run_api. cbn.
  destruct (truthy pageId) eqn:Hid; cbn.
  2:{ apply shape_no_request. eexists; reflexivity. }
  destruct (headers_of (settings s)) as [h|e] eqn:Hh; cbn.
  2:{ destruct e; cbn; apply shape_no_request; eexists; reflexivity. }
  match goal with
  | |- context [http E ?n ?r] =>
      set (get := r); destruct (http E n get) as [cur|e] eqn:Hget
  end; cbn.
  2:{ destruct e; cbn;
      (eapply shape_read_failed;
       [reflexivity | reflexivity | eexists; reflexivity | discriminate]). }
  destruct (Nat.leb 400 (status cur)) eqn:H400; cbn.
  { eapply shape_read_failed; [reflexivity | reflexivity | eexists; reflexivity |].
    intros c [= <-] H200. rewrite H200 in H400. discriminate. }
  destruct (Nat.eqb (status cur) 200) eqn:H200; cbn.
  2:{ eapply shape_read_failed; [reflexivity | reflexivity | eexists; reflexivity |].
      intros c [= <-] H. rewrite H in H200. discriminate. }
  rewrite Hh. cbn.
  match goal with
  | |- context [http E ?n ?r] =>
      set (put := r); destruct (http E n put) as [resp|e] eqn:Hput
  end; cbn.
  - pose proof (is_2xx_spec (status resp)) as H2.
    destruct (Nat.ltb (status resp) 200 || Nat.leb 300 (status resp)) eqn:Hst; cbn;
      (eapply shape_read_then_write; try reflexivity;
       [apply Nat.eqb_eq; exact H200 | unfold update_outcome; rewrite H2; reflexivity]).
  - destruct e; cbn;
      (eapply shape_read_then_write; try reflexivity; apply Nat.eqb_eq; exact H200).
Qed.

(** [uploadAttachment] and [updatePage] each count as one call, whatever
    happens inside, and leave the [enableMermaid] setting alone. *)
Lemma uploadAttachment_calls (p f c m : string) (s : state) :
  calls (events_of (uploadAttachment E p f c m s)) = [CallUploadAttachment p f c]
  /\ enableMermaid (settings (state_of (uploadAttachment E p f c m s)))
     = enableMermaid (settings s).
Proof.
  run_api. cbn. repeat (break_match; cbn); split; reflexivity.
Qed.

Lemma updatePage_calls (p c t : string) (s : state) :
  calls (events_of (updatePage E p c t s)) = [CallUpdatePage p c]
  /\ enableMermaid (settings (state_of (updatePage E p c t s)))
     = enableMermaid (settings s).
Proof.
  run_api. cbn. repeat (break_match; cbn); split; reflexivity.
Qed.

End WithEnv.

(** A run of [updatePage] against the sample server: version 7 is read,
    version 8 is written. *)
Example update_sample :
  https (events_of (updatePage Samples.E_ok "123" "<p>x</p>" EmptyString
                      (Samples.start true)))
  = [(Req "GET" "https://wiki.example/rest/api/content/123?expand=version,body.storage"
          (Bearer "token") NoBody,
      Samples.answer 200 0);
     (Req "PUT" "https://wiki.example/rest/api/content/123" (Bearer "token")
          (UpdateRequest (Some 8%N) "Note" "<p>x</p>"),
      Samples.answer 200 0)].
Proof. vm_compute. reflexivity. Qed.

(** C9, the claim as first stated: a page that has gone through 2^53
    revisions is read, and the update that follows carries the same number
    2^53, not 2^53 + 1, which no JavaScript number holds. *)
Lemma C9_counterexample :
  version_number Samples.old_page = 9007199254740992%N /\
  https (events_of (updatePage Samples.E_old "123" "<p>x</p>" EmptyString
                      (Samples.start true)))
  = [(Req "GET" "https://wiki.example/rest/api/content/123?expand=version,body.storage"
          (Bearer "token") NoBody,
      Samples.old_answer);
     (Req "PUT" "https://wiki.example/rest/api/content/123" (Bearer "token")
          (UpdateRequest (Some 9007199254740992%N) "Note" "<p>x</p>"),
      Samples.old_answer)].
Proof. split; vm_compute; reflexivity. Qed.

End ApiFacts.

Module PipelineFacts.

Import JS World TraceSpec PipelineSpec EffectSpec.

Lemma calls_app (a b : list event) : calls (a ++ b) = (calls a ++ calls b)%list.
Proof. apply filter_app. Qed.

Lemma calls_renders (codes : list string) :
  calls (map CallRender codes) = map CallRender codes.
Proof.
  induction codes as [|c rest IH]; [reflexivity|].
  unfold calls in *. cbn. now rewrite IH.
Qed.

Lemma publishes_calls (evs : list event) : publishes (calls evs) = publishes evs.
Proof.
  induction evs as [|ev rest IH]; [reflexivity|].
  unfold publishes, calls in *.
  destruct ev; cbn; rewrite ?IH; reflexivity.
Qed.

Section WithEnv.
Context (E : env).

(** One call of [renderToSvg]: one render attempt and one tick of the
    clock; the settings stay. *)
Lemma renderToSvg_run_eq (code0 : string) (s : state) :
  Mermaid.renderToSvg E code0 s
  = (render_outcome (mermaid E (clock s) code0),
     St (S (clock s)) (settings s)
        (if document_available (mermaid E (clock s) code0)
         then S (renderCounter s) else renderCounter s),
     [CallRender code0]).
Proof.
  unfold Mermaid.renderToSvg, render_outcome, render_failure, svg_of. run_api. cbn.
  destruct (document_available _); cbn; [|reflexivity].
  destruct (parse_ok _); cbn; [|reflexivity].
  destruct (render _) as [v|e]; cbn; [reflexivity|].
  destruct (init_svg _); cbn; [reflexivity|].
  destruct e; reflexivity.
Qed.

Lemma render_failure_error (run : mermaid_run) (t : exn) :
  render_failure run = Some t -> is_Error t = true.
Proof.
  unfold render_failure.
  destruct (document_available run && parse_ok run); [|discriminate].
  destruct (render run) as [v|e]; [discriminate|].
  destruct (init_svg run); [discriminate|].
  destruct (nullish e); [|discriminate]. now intros [= <-].
Qed.

(** The loop of [processMermaidBlocks] renders the blocks in document
    order.  Either every render call resolves, and the loop returns one
    entry per block, numbered from [idx] upwards; or a render call throws,
    and the loop stops there. *)
Lemma process_matches_run (matches : list Regex.result) :
  forall idx md data s,
  let codes := map (fun m => trim (Regex.group m 1)) matches in
  let run := Mermaid.process_matches E matches idx md data s in
  settings (state_of run) = settings s /\
  match result_of run with
  | Return out =>
      exists items,
        snd out = (data ++ items)%list
        /\ events_of run = map CallRender codes
        /\ map Mermaid.index items = seq idx (List.length matches)
        /\ map Mermaid.code items = codes
        /\ Forall (fun it => Mermaid.svg it = None
                             \/ Mermaid.truthy_opt (Mermaid.svg it) = true) items
  | Throw e =>
      is_Error e = true /\
      exists k, k < List.length matches
                /\ events_of run = map CallRender (firstn (S k) codes)
  end.
Proof.
  induction matches as [|m rest IH]; intros idx md data s; cbv zeta.
  - unfold result_of, events_of, state_of. cbn.
    split; [reflexivity|]. exists []. rewrite app_nil_r. repeat split; auto.
  - cbn [Mermaid.process_matches]. unfold bind. rewrite !renderToSvg_run_eq.
    unfold render_outcome.
    destruct (render_failure _) as [t|] eqn:Hf.
    + unfold result_of, events_of, state_of. cbn.
      split; [reflexivity|]. split; [exact (render_failure_error _ _ Hf)|].
      exists 0. split; [lia | reflexivity].
    + match goal with
      | |- context [Mermaid.process_matches E rest ?i ?md1 ?d1 ?s1] =>
          pose proof (IH i md1 d1 s1) as [Hs Hr];
          destruct (Mermaid.process_matches E rest i md1 d1 s1) as [[r s'] t']
      end.
      unfold state_of, result_of, events_of in *. cbn [fst snd] in *.
      split; [exact Hs|]. destruct r as [out|e].
      * destruct Hr as (items & Hout & Hev & Hidx & Hcode & Hsvg).
        eexists (_ :: items). rewrite Hout, <- app_assoc.
        split; [reflexivity|]. split; [cbn; now rewrite Hev|].
        split; [|split; [|constructor; [|exact Hsvg]]].
        -- cbn [map seq List.length]. rewrite Hidx. f_equal.
           destruct (Mermaid.truthy_opt _); reflexivity.
        -- cbn [map]. rewrite Hcode. f_equal.
           destruct (Mermaid.truthy_opt _); reflexivity.
        -- destruct (Mermaid.truthy_opt _) eqn:Ht; cbn;
             [right; exact Ht | left; reflexivity].
      * destruct Hr as (He & k & Hk & Hev). split; [exact He|].
        exists (S k). split; [cbn; lia|]. cbn. now rewrite Hev.
Qed.

(** When no render call throws, the loop returns. *)
Lemma process_matches_returns (matches : list Regex.result) :
  (forall n code0, render_failure (mermaid E n code0) = None) ->
  forall idx md data s,
  returned (result_of (Mermaid.process_matches E matches idx md data s)) = true.
Proof.
  intros Hok. induction matches as [|m rest IH]; intros idx md data s.
  - reflexivity.
  - cbn [Mermaid.process_matches]. unfold bind. rewrite renderToSvg_run_eq.
    unfold render_outcome. rewrite Hok.
    match goal with
    | |- context [Mermaid.process_matches E rest ?i ?md1 ?d1 ?s1] =>
        pose proof (IH i md1 d1 s1) as Hr;
        destruct (Mermaid.process_matches E rest i md1 d1 s1) as [[r s'] t']
    end.
    exact Hr.
Qed.

#[local] Arguments Mermaid.process_matches : simpl never.
#[local] Arguments Mermaid.renderToSvg : simpl never.

(** [processMermaidBlocks], as [convert] sees it. *)
Lemma processMermaidBlocks_run (md : string) (s : state) :
  let run := Mermaid.processMermaidBlocks E md s in
  settings (state_of run) = settings s /\
  match result_of run with
  | Return out =>
      events_of run = map CallRender (diagram_blocks md)
      /\ map Mermaid.index (snd out) = seq 0 (List.length (diagram_blocks md))
      /\ map Mermaid.code (snd out) = diagram_blocks md
      /\ Forall (fun it => Mermaid.svg it = None
                           \/ Mermaid.truthy_opt (Mermaid.svg it) = true) (snd out)
  | Throw e =>
      is_Error e = true /\
      exists k, k < List.length (diagram_blocks md)
                /\ events_of run = map CallRender (firstn (S k) (diagram_blocks md))
  end.
Proof.
  cbv zeta. unfold Mermaid.processMermaidBlocks, diagram_blocks.
  pose proof (process_matches_run (Regex.match_all Mermaid.mermaidRegex md) 0 md [] s)
    as [Hs Hr]. cbv zeta in Hr.
  split; [exact Hs|].
  destruct (result_of _) as [out|e].
  - destruct Hr as (items & Hout & Hev & Hidx & Hcode & Hsvg).
    cbn [app] in Hout. rewrite Hout, length_map. auto.
  - rewrite length_map. exact Hr.
Qed.

(** With diagram processing on, a conversion that does not fall back has
    made one render attempt per diagram block and yields one entry per
    block, numbered from 0 in document order. *)
Lemma convert_enabled (md : string) (s : state) (c : Simple.converted) :
  enableMermaid (settings s) = true ->
  result_of (Simple.convert_try E md s) = Return c ->
  exists items s',
    Simple.convert E md s = (Return c, s', map CallRender (diagram_blocks md))
    /\ Simple.mermaidData c = Some items
    /\ settings s' = settings s
    /\ map Mermaid.index items = seq 0 (List.length (diagram_blocks md))
    /\ map Mermaid.code items = diagram_blocks md.
Proof.
  intros Hen.
  unfold Simple.convert, Simple.convert_try, Simple.getMermaidRenderer.
  pose proof (processMermaidBlocks_run md s) as [Hs Hr]. cbv zeta in Hr.
  run_api. cbn. rewrite Hen. cbn.
  destruct (Mermaid.processMermaidBlocks E md s) as [[r s1] t1].
  unfold state_of, result_of, events_of in *. cbn [fst snd] in *.
  destruct r as [out|e]; cbn; [|discriminate].
  destruct Hr as (Hev & Hidx & Hcode & _).
  destruct (marked_parse E (fst out)) as [h|e]; cbn; [|discriminate].
  intros [= <-]. rewrite ?app_nil_r. exists (snd out), s1. cbn. rewrite Hev. auto.
Qed.

(** With diagram processing off, or when the conversion falls back, the
    diagram list is null; the render attempts made before are the first
    ones of the document, none at all when processing is off. *)
Lemma convert_fallback (md : string) (s : state) :
  enableMermaid (settings s) && returned (result_of (Simple.convert_try E md s))
  = false ->
  exists c s' k,
    Simple.convert E md s
    = (Return c, s', map CallRender (firstn k (diagram_blocks md)))
    /\ Simple.mermaidData c = None
    /\ settings s' = settings s
    /\ (enableMermaid (settings s) = false -> k = 0).
Proof.
  unfold Simple.convert, Simple.convert_try, Simple.getMermaidRenderer.
  pose proof (processMermaidBlocks_run md s) as [Hs Hr]. cbv zeta in Hr.
  run_api. cbn.
  destruct (enableMermaid (settings s)) eqn:Hen; cbn.
  - destruct (Mermaid.processMermaidBlocks E md s) as [[r s1] t1].
    unfold state_of, result_of, events_of in *. cbn [fst snd] in *.
    destruct r as [out|e]; cbn.
    + destruct Hr as (Hev & _).
      destruct (marked_parse E (fst out)) as [h|e]; cbn; [discriminate|].
      intros _. rewrite ?app_nil_r, Hev.
      exists (Simple.fallback md), s1, (List.length (diagram_blocks md)).
      rewrite firstn_all. repeat split; auto. discriminate.
    + destruct Hr as (_ & k & _ & Hev). intros _. rewrite ?app_nil_r, Hev.
      exists (Simple.fallback md), s1, (S k). repeat split; auto. discriminate.
  - intros _.
    destruct (marked_parse E md) as [h|e]; cbn;
      (eexists; exists s, 0; repeat split; reflexivity).
Qed.

(** [convert] always returns, and all it emits are render calls.  Without a
    diagram block there is none, and the diagram list is null or empty. *)
Lemma convert_returns (md : string) (s : state) :
  exists c s' codes,
    Simple.convert E md s = (Return c, s', map CallRender codes)
    /\ settings s' = settings s
    /\ (diagram_blocks md = [] ->
        codes = [] /\
        (Simple.mermaidData c = None \/ Simple.mermaidData c = Some [])).
Proof.
  destruct (enableMermaid (settings s)
            && returned (result_of (Simple.convert_try E md s))) eqn:Hcase.
  - apply andb_true_iff in Hcase as [Hen Hret].
    destruct (result_of (Simple.convert_try E md s)) as [c|e] eqn:Hc; [|discriminate].
    destruct (convert_enabled md s c Hen Hc) as (items & s' & Hrun & Hd & Hs' & Hidx & Hcode).
    exists c, s', (diagram_blocks md). split; [exact Hrun|]. split; [exact Hs'|].
    intros Hnone. split; [exact Hnone|]. right. rewrite Hd. f_equal.
    rewrite Hnone in Hcode. now destruct items.
  - destruct (convert_fallback md s Hcase) as (c & s' & k & Hrun & Hd & Hs' & _).
    exists c, s', (firstn k (diagram_blocks md)). split; [exact Hrun|].
    split; [exact Hs'|]. intros ->. split; [now destruct k | now left].
Qed.

(** What the [try] block of [convert] throws, if it throws, is an [Error]
    of a render call or whatever [marked.parse] threw. *)
Lemma convert_try_throws (md : string) (s : state) (e : exn) :
  result_of (Simple.convert_try E md s) = Throw e ->
  is_Error e = true \/ exists x, marked_parse E x = Throw e.
Proof.
  unfold Simple.convert_try, Simple.getMermaidRenderer.
  pose proof (processMermaidBlocks_run md s) as [Hs Hr]. cbv zeta in Hr.
  run_api. cbn.
  destruct (enableMermaid (settings s)); cbn.
  - destruct (Mermaid.processMermaidBlocks E md s) as [[r s1] t1].
    unfold state_of, result_of, events_of in *. cbn [fst snd] in *.
    destruct r as [out|e']; cbn.
    + destruct (marked_parse E (fst out)) as [h|e'] eqn:Hp; cbn; [discriminate|].
      intros [= <-]. right. exists (fst out). exact Hp.
    + intros [= <-]. left. exact (proj1 Hr).
  - destruct (marked_parse E md) as [h|e'] eqn:Hp; cbn; [discriminate|].
    intros [= <-]. right. exists md. exact Hp.
Qed.

(** C10. [convert] returns for every input, environment and state: the
    value of its [try] block if that block returns, and otherwise the
    degraded value of the [catch] block, which is the input inside one [<p>]
    element with every line feed rewritten to [<br />], and a null diagram
    list. *)
Theorem C10_convert_never_throws (md : string) (s : state) :
  result_of (Simple.convert E md s)
  = Return (match result_of (Simple.convert_try E md s) with
            | Return c => c
            | Throw _ =>
                Simple.Converted
                  ("<p>" ++ Regex.replace_all (Regex.Chr (is_char LF)) "<br />" md
                   ++ "</p>")
                  None
            end).
Proof.
  unfold Simple.convert, try_catch, result_of.
  destruct (Simple.convert_try E md s) as [[r s1] t1].
  destruct r; reflexivity.
Qed.

(** One diagram of the loop of [performUpload]: it never throws, it puts
    [resolved_markup] in the place of the diagram's placeholder by
    [String.replace], and it makes an upload attempt exactly when the
    diagram has an image. *)
Lemma resolve_item_run (pageId : string) (it : Mermaid.item) (html : string)
      (s : state) :
  exists s' evs,
    Plugin.resolve_item E pageId it html s
    = (Return (replace_str html (Mermaid.placeholder (Mermaid.index it))
                 (resolved_markup it (uploaded E pageId it s))), s', evs)
    /\ enableMermaid (settings s') = enableMermaid (settings s)
    /\ calls evs = (if Mermaid.truthy_opt (Mermaid.svg it)
                    then [upload_call pageId it] else []).
Proof.
  unfold Plugin.resolve_item, resolved_markup, uploaded.
  destruct (Mermaid.truthy_opt (Mermaid.svg it)) eqn:Hsvg.
  - unfold try_catch, bind.
    match goal with
    | |- context [Api.uploadAttachment E ?p ?f ?c ?m s] =>
        pose proof (ApiFacts.uploadAttachment_calls E p f c m s) as [Hc Hs];
        destruct (Api.uploadAttachment E p f c m s) as [[r s1] t1]
    end.
    unfold events_of, state_of in Hc, Hs. cbn in Hc, Hs.
    destruct r as [f|e]; cbn; do 2 eexists; (split; [reflexivity|]);
      rewrite ?app_nil_r; split; auto.
  - cbn. do 2 eexists. split; [reflexivity|]. split; reflexivity.
Qed.

(** The whole loop: no failure of a diagram stops it; it returns, having
    made one upload attempt per diagram with an image, in the order of the
    list. *)
Lemma resolve_items_run (pageId : string) (items : list Mermaid.item) :
  forall html s,
  exists html' s' evs,
    Plugin.resolve_items E pageId items html s = (Return html', s', evs)
    /\ enableMermaid (settings s') = enableMermaid (settings s)
    /\ calls evs = map (upload_call pageId) (rendered items).
Proof.
  induction items as [|it rest IH]; intros html s.
  - cbn. do 3 eexists. split; [reflexivity|]. split; reflexivity.
  - cbn [Plugin.resolve_items]. unfold bind.
    destruct (resolve_item_run pageId it html s) as (s1 & e1 & Hrun1 & Hs1 & Hc1).
    rewrite Hrun1.
    match goal with
    | |- context [Plugin.resolve_items E pageId rest ?h1 s1] =>
        destruct (IH h1 s1) as (h2 & s2 & e2 & Hrun2 & Hs2 & Hc2)
    end.
    rewrite Hrun2. do 3 eexists. split; [reflexivity|]. split; [congruence|].
    rewrite calls_app, Hc1, Hc2. unfold rendered. cbn [filter].
    destruct (Mermaid.truthy_opt (Mermaid.svg it)); reflexivity.
Qed.

#[local] Arguments Plugin.publish : simpl never.
#[local] Arguments Plugin.resolve_items : simpl never.
#[local] Arguments Simple.convert : simpl never.
#[local] Arguments Api.updatePage : simpl never.

(** What follows the publishing in [performUpload] (settings, notices,
    clipboard) makes no call to the renderer or the API client. *)
Lemma performUpload_calls (pageId md title0 : string) (s : state) :
  calls (events_of (Plugin.performUpload E pageId md title0 s))
  = calls (events_of (Plugin.publish E pageId md s)).
Proof.
  unfold Plugin.performUpload, Plugin.saveSettings, Plugin.host_call.
  run_api. cbn.
  destruct (Plugin.publish E pageId md s) as [[r s1] t1]. cbn.
  destruct r as [[]|e]; cbn.
  - destruct (saveData E (clock s1)) as [e|]; cbn.
    + destruct e; cbn; rewrite ?calls_app; cbn; now rewrite ?app_nil_r.
    + destruct (clipboard E (S (clock s1))) as [e|]; cbn; [destruct e; cbn|];
        rewrite ?calls_app; cbn; now rewrite ?app_nil_r.
  - destruct e; cbn; rewrite ?calls_app; cbn; now rewrite ?app_nil_r.
Qed.

Lemma publish_one (pageId md : string) (s : state) :
  diagram_blocks md = [] ->
  exists html,
    calls (events_of (Plugin.publish E pageId md s)) = [CallUpdatePage pageId html].
Proof.
  intros Hnone. unfold Plugin.publish.
  destruct (convert_returns md s) as (c & s1 & codes & Hrun & Hs1 & Hcodes).
  destruct (Hcodes Hnone) as [-> Hdata].
  unfold bind at 1. rewrite Hrun. exists (Simple.html c).
  assert (Hone : forall X : outcome unit * state * list event,
             calls (snd X) = [CallUpdatePage pageId (Simple.html c)] ->
             calls (events_of (let '(r, s2, t2) := X in (r, s2, ([] ++ t2)%list)))
             = [CallUpdatePage pageId (Simple.html c)]).
  { intros [[r s2] t2] H. exact H. }
  destruct Hdata as [Hd|Hd]; rewrite Hd; apply Hone;
    apply ApiFacts.updatePage_calls.
Qed.

(** C3. When the source text holds no diagram block, one upload action
    makes exactly one publish call, against the given page, whether diagram
    processing is on or off and whether the conversion fell back or not. *)
Theorem C3_single_publish (pageId md title0 : string) (s : state) :
  diagram_blocks md = [] ->
  exists html,
    publishes (events_of (Plugin.performUpload E pageId md title0 s))
    = [(pageId, html)].
Proof.
  intros Hnone. destruct (publish_one pageId md s Hnone) as [html Hc].
  exists html. rewrite <- publishes_calls, performUpload_calls, Hc. reflexivity.
Qed.

End WithEnv.

End PipelineFacts.

Module OrchestratorFacts.

Import JS World TraceSpec PipelineSpec PipelineFacts.

#[local] Arguments Plugin.publish : simpl never.
#[local] Arguments Plugin.resolve_items : simpl never.
#[local] Arguments Simple.convert : simpl never.
#[local] Arguments Api.updatePage : simpl never.

Section WithEnv.
Context (E : env).

(** C2 (amended). Let the source hold N > 0 diagram blocks.  If diagram
    processing is enabled and the conversion does not fall back, the calls
    of one upload action are, in this order: N render attempts, one per
    block in document order, all made by the conversion; the initial
    publish; and, if that publish returns, one upload attempt for each
    diagram that has an image, in ascending ordinal order, followed by the
    final publish against the same page.  If the initial publish throws,
    nothing follows it.  If diagram processing is disabled or the conversion
    falls back, the diagram list is null and the calls are the render
    attempts made before the fallback, for the first blocks of the document
    (none when processing is disabled), and a single publish. *)
Theorem C2_call_sequence (pageId md title0 : string) (s : state) :
  diagram_blocks md <> [] ->
  exists c,
    result_of (Simple.convert E md s) = Return c /\
    if enableMermaid (settings s)
       && returned (result_of (Simple.convert_try E md s))
    then
      exists items html1,
        Simple.mermaidData c = Some items
        /\ map Mermaid.index items = seq 0 (List.length (diagram_blocks md))
        /\ map Mermaid.code items = diagram_blocks md
        /\ calls (events_of (Plugin.performUpload E pageId md title0 s))
           = (map CallRender (diagram_blocks md) ++
              CallUpdatePage pageId (Simple.html c) ::
              match result_of (Api.updatePage E pageId (Simple.html c) EmptyString
                                 (state_of (Simple.convert E md s))) with
              | Return _ =>
                  map (upload_call pageId) (rendered items) ++
                  [CallUpdatePage pageId html1]
              | Throw _ => []
              end)%list
    else
      exists k,
        Simple.mermaidData c = None
        /\ (enableMermaid (settings s) = false -> k = 0)
        /\ calls (events_of (Plugin.performUpload E pageId md title0 s))
           = (map CallRender (firstn k (diagram_blocks md)) ++
              [CallUpdatePage pageId (Simple.html c)])%list.
Proof.
  intros Hsome. rewrite performUpload_calls.
  destruct (enableMermaid (settings s)
            && returned (result_of (Simple.convert_try E md s))) eqn:Hcase.
  - apply andb_true_iff in Hcase as [Hen Hret].
    destruct (result_of (Simple.convert_try E md s)) as [c|e] eqn:Hconv;
      [|discriminate].
    destruct (convert_enabled E md s c Hen Hconv)
      as (items & s1 & Hrun & Hdata & Hs1 & Hidx & Hcode).
    exists c. rewrite Hrun. unfold result_of, state_of. cbn [fst snd].
    split; [reflexivity|].
    destruct items as [|first others].
    { exfalso. apply Hsome. rewrite <- Hcode. reflexivity. }
    unfold Plugin.publish. unfold bind at 1. rewrite Hrun, Hdata.
    unfold bind at 1.
    pose proof (ApiFacts.updatePage_calls E pageId (Simple.html c) EmptyString s1)
      as [Hc1 He1].
    destruct (Api.updatePage E pageId (Simple.html c) EmptyString s1)
      as [[r s2] t2] eqn:Hup.
    unfold events_of, state_of in Hc1, He1. cbn [fst snd] in Hc1, He1.
    destruct r as [[]|e].
    + unfold Simple.getMermaidRenderer, bind, get, ret, events_of. cbn.
      rewrite He1, Hs1, Hen.
      destruct (resolve_items_run E pageId (first :: others) (Simple.html c) s2)
        as (html1 & s3 & t3 & Hrun3 & Hs3 & Hc3).
      rewrite Hrun3.
      pose proof (ApiFacts.updatePage_calls E pageId html1 EmptyString s3) as [Hc4 _].
      destruct (Api.updatePage E pageId html1 EmptyString s3) as [[r4 s4] t4].
      unfold events_of in Hc4. cbn [fst snd] in Hc4.
      exists (first :: others), html1.
      repeat (split; [first [reflexivity | assumption]|]).
      cbn. rewrite !calls_app, calls_renders, Hc1, Hc3, Hc4, ?app_nil_r.
      cbn. reflexivity.
    + exists (first :: others), EmptyString.
      repeat (split; [first [reflexivity | assumption]|]).
      cbn. rewrite !calls_app, calls_renders, Hc1. reflexivity.
  - destruct (convert_fallback E md s Hcase) as (c & s1 & k & Hrun & Hd & Hs1 & Hk).
    exists c. rewrite Hrun. unfold result_of. cbn [fst]. split; [reflexivity|].
    exists k. split; [exact Hd|]. split; [exact Hk|].
    unfold Plugin.publish. unfold bind at 1. rewrite Hrun, Hd.
    pose proof (ApiFacts.updatePage_calls E pageId (Simple.html c) EmptyString s1)
      as [Hc1 _].
    destruct (Api.updatePage E pageId (Simple.html c) EmptyString s1)
      as [[r s2] t2].
    unfold events_of in *. cbn [fst snd] in *.
    rewrite calls_app, calls_renders, Hc1. reflexivity.
Qed.

End WithEnv.

Lemma marked_total_ok : marked_total Samples.E_ok.
Proof. intros x. exists x. reflexivity. Qed.

(** The theorem applies to two diagrams against the sample server. *)
Lemma C2_call_sequence_witness :
  diagram_blocks Samples.two_diagrams <> [] /\
  exists c,
    result_of (Simple.convert Samples.E_ok Samples.two_diagrams (Samples.start true))
    = Return c /\
    if enableMermaid (settings (Samples.start true))
       && returned (result_of (Simple.convert_try Samples.E_ok Samples.two_diagrams
                                 (Samples.start true)))
    then
      exists items html1,
        Simple.mermaidData c = Some items
        /\ map Mermaid.index items
           = seq 0 (List.length (diagram_blocks Samples.two_diagrams))
        /\ map Mermaid.code items = diagram_blocks Samples.two_diagrams
        /\ calls (events_of (Plugin.performUpload Samples.E_ok "123"
                               Samples.two_diagrams EmptyString (Samples.start true)))
           = (map CallRender (diagram_blocks Samples.two_diagrams) ++
              CallUpdatePage "123" (Simple.html c) ::
              match result_of (Api.updatePage Samples.E_ok "123" (Simple.html c)
                                 EmptyString
                                 (state_of (Simple.convert Samples.E_ok
                                              Samples.two_diagrams
                                              (Samples.start true)))) with
              | Return _ =>
                  map (upload_call "123") (rendered items) ++
                  [CallUpdatePage "123" html1]
              | Throw _ => []
              end)%list
    else
      exists k,
        Simple.mermaidData c = None
        /\ (enableMermaid (settings (Samples.start true)) = false -> k = 0)
        /\ calls (events_of (Plugin.performUpload Samples.E_ok "123"
                               Samples.two_diagrams EmptyString (Samples.start true)))
           = (map CallRender (firstn k (diagram_blocks Samples.two_diagrams)) ++
              [CallUpdatePage "123" (Simple.html c)])%list.
Proof.
  assert (H : diagram_blocks Samples.two_diagrams <> []) by (vm_compute; discriminate).
  split; [exact H|].
  exact (C2_call_sequence Samples.E_ok "123" Samples.two_diagrams EmptyString
           (Samples.start true) H).
Defined.

(** The claim as first stated fails on two counts.  With diagram processing
    switched off, a source with one diagram block is published once, not
    twice.  With it switched on, the render of the second diagram comes
    before the upload of the first: all renders are made by the conversion,
    ahead of the initial publish. *)
Lemma C2_counterexample :
  diagram_blocks Samples.one_diagram = ["graph TD; A-->B"] /\
  publishes (events_of (Plugin.performUpload Samples.E_ok "123" Samples.one_diagram
                          EmptyString (Samples.start false)))
  = [("123", Samples.one_diagram)] /\
  calls (events_of (Plugin.performUpload Samples.E_ok "123" Samples.two_diagrams
                      EmptyString (Samples.start true)))
  = [CallRender "graph TD; A-->B";
     CallRender "graph TD; C-->D";
     CallUpdatePage "123"
       (Mermaid.placeholder 0 ++ nl ++ "and" ++ nl ++ Mermaid.placeholder 1);
     CallUploadAttachment "123" "mermaid-0.svg" "<svg/>";
     CallUploadAttachment "123" "mermaid-1.svg" "<svg/>";
     CallUpdatePage "123"
       (Mermaid.generateConfluenceMarkup (Some "mermaid-0.svg") EmptyString
        ++ nl ++ "and" ++ nl ++
        Mermaid.generateConfluenceMarkup (Some "mermaid-1.svg") EmptyString)].
Proof. vm_compute. repeat split. Qed.

(** A note without diagrams is published once. *)
Lemma C3_single_publish_witness :
  diagram_blocks "hello" = [] /\
  exists html,
    publishes (events_of (Plugin.performUpload Samples.E_ok "123" "hello"
                            EmptyString (Samples.start true)))
    = [("123", html)].
Proof.
  assert (H : diagram_blocks "hello" = []) by reflexivity.
  split; [exact H|].
  exact (C3_single_publish Samples.E_ok "123" "hello" EmptyString
           (Samples.start true) H).
Defined.

(** When the replacement holds no [$], [String.replace] puts it in place of
    the first occurrence of the pattern as it is. *)
Lemma get_substitution_plain (matched before after tpl : string) :
  dollar_free tpl = true ->
  get_substitution matched before after [] tpl = tpl.
Proof.
  induction tpl as [|c t IH]; [reflexivity|].
  cbn [dollar_free get_substitution]. intros H.
  apply andb_true_iff in H as [Hc Ht]. rewrite Hc. f_equal. auto.
Qed.

Lemma replace_str_plain (s pattern replacement before after : string) :
  dollar_free replacement = true ->
  find_first pattern EmptyString s = Some (before, after) ->
  replace_str s pattern replacement = before ++ replacement ++ after.
Proof.
  intros Hfree Hfind. unfold replace_str. rewrite Hfind.
  now rewrite get_substitution_plain.
Qed.

(** C1. A diagram whose source holds [$$], rendered but refused on upload
    (status 403): the batch goes on and the final publish is made, but the
    fallback block that replaces the placeholder holds the source with a
    single [$]: [String.replace] has read [$$] in the replacement as an
    escape. *)
Theorem C1_fallback_source_altered :
  diagram_blocks Samples.priced_diagram = ["graph TD; A[Cost in $$]-->B"] /\
  publishes (events_of (Plugin.performUpload Samples.E_forbidden "123"
                          Samples.priced_diagram EmptyString (Samples.start true)))
  = [("123", Mermaid.placeholder 0);
     ("123", Mermaid.generateConfluenceMarkup None "graph TD; A[Cost in $]-->B")] /\
  Mermaid.generateConfluenceMarkup None "graph TD; A[Cost in $]-->B"
  <> Mermaid.generateConfluenceMarkup None "graph TD; A[Cost in $$]-->B".
Proof.
  split; [vm_compute; reflexivity|]. split; [vm_compute; reflexivity|].
  vm_compute. discriminate.
Qed.

End OrchestratorFacts.

Module EffectFacts.

Import JS World EffectSpec TraceSpec.

Section Only.
Context (P : event -> bool).

Lemma only_ret {A} (a : A) : only P (ret a).
Proof. intros s. reflexivity. Qed.

Lemma only_throw {A} e : only P (@throw A e).
Proof. intros s. reflexivity. Qed.

Lemma only_get : only P get.
Proof. intros s. reflexivity. Qed.

Lemma only_tick : only P tick.
Proof. intros s. reflexivity. Qed.

Lemma only_set_lastPageId p : only P (set_lastPageId p).
Proof. intros s. reflexivity. Qed.

Lemma only_next_renderCounter : only P next_renderCounter.
Proof. intros s. reflexivity. Qed.

Lemma only_lift {A} (o : outcome A) : only P (lift_outcome o).
Proof. destruct o; intros s; reflexivity. Qed.

Lemma only_emit ev : P ev = true -> only P (emit ev).
Proof. intros H s. cbn. now rewrite H. Qed.

Lemma only_bind {A B} (c : M A) (k : A -> M B) :
  only P c -> (forall a, only P (k a)) -> only P (bind c k).
Proof.
  intros Hc Hk s. unfold bind, events_of. specialize (Hc s). unfold events_of in Hc.
  destruct (c s) as [[r s1] t1]. cbn [snd] in Hc. destruct r as [a|e]; [|exact Hc].
  specialize (Hk a s1). unfold events_of in Hk.
  destruct (k a s1) as [[r2 s2] t2]. cbn [snd] in *.
  rewrite forallb_app, Hc, Hk. reflexivity.
Qed.

Lemma only_try {A} (c : M A) (h : exn -> M A) :
  only P c -> (forall e, only P (h e)) -> only P (try_catch c h).
Proof.
  intros Hc Hh s. unfold try_catch, events_of. specialize (Hc s).
  unfold events_of in Hc.
  destruct (c s) as [[r s1] t1]. cbn [snd] in Hc. destruct r as [a|e]; [exact Hc|].
  specialize (Hh e s1). unfold events_of in Hh.
  destruct (h e s1) as [[r2 s2] t2]. cbn [snd] in *.
  rewrite forallb_app, Hc, Hh. reflexivity.
Qed.

End Only.

Lemma only_weaken {A} (P Q : event -> bool) (c : M A) :
  (forall ev, P ev = true -> Q ev = true) -> only P c -> only Q c.
Proof.
  intros HPQ Hc s. specialize (Hc s). rewrite forallb_forall in *.
  intros ev Hin. apply HPQ. now apply Hc.
Qed.

(** No event of a run that satisfies [only P] passes a filter that [P]
    excludes. *)
Lemma only_filter {A} (P F : event -> bool) (c : M A) s :
  only P c -> (forall ev, P ev = true -> F ev = false) ->
  filter F (events_of (c s)) = [].
Proof.
  intros Hc HPF. specialize (Hc s). rewrite forallb_forall in Hc.
  induction (events_of (c s)) as [|ev evs IH]; [reflexivity|].
  cbn [filter]. rewrite (HPF ev) by (apply Hc; now left).
  apply IH. intros x Hx. apply Hc. now right.
Qed.

Lemma touched_refl p c : touched p c c.
Proof. now left. Qed.

Lemma touched_trans p c1 c2 c3 :
  touched p c1 c2 -> touched p c2 c3 -> touched p c1 c3.
Proof.
  unfold touched. intros [->| ->] [->| ->]; auto.
Qed.

Section Within.
Context (p : string).

Lemma within_ret {A} (a : A) : within p (ret a).
Proof. intros s. apply touched_refl. Qed.

Lemma within_throw {A} e : within p (@throw A e).
Proof. intros s. apply touched_refl. Qed.

Lemma within_get : within p get.
Proof. intros s. apply touched_refl. Qed.

Lemma within_tick : within p tick.
Proof. intros s. apply touched_refl. Qed.

Lemma within_emit ev : within p (emit ev).
Proof. intros s. apply touched_refl. Qed.

Lemma within_next_renderCounter : within p next_renderCounter.
Proof. intros s. apply touched_refl. Qed.

Lemma within_lift {A} (o : outcome A) : within p (lift_outcome o).
Proof. destruct o; intros s; apply touched_refl. Qed.

Lemma within_set_lastPageId : within p (set_lastPageId p).
Proof. intros s. right. reflexivity. Qed.

Lemma within_bind {A B} (c : M A) (k : A -> M B) :
  within p c -> (forall a, within p (k a)) -> within p (bind c k).
Proof.
  intros Hc Hk s. unfold bind, state_of. specialize (Hc s). unfold state_of in Hc.
  destruct (c s) as [[r s1] t1]. cbn [fst snd] in Hc. destruct r as [a|e]; [|exact Hc].
  specialize (Hk a s1). unfold state_of in Hk.
  destruct (k a s1) as [[r2 s2] t2]. cbn [fst snd] in *.
  eapply touched_trans; eassumption.
Qed.

Lemma within_try {A} (c : M A) (h : exn -> M A) :
  within p c -> (forall e, within p (h e)) -> within p (try_catch c h).
Proof.
  intros Hc Hh s. unfold try_catch, state_of. specialize (Hc s). unfold state_of in Hc.
  destruct (c s) as [[r s1] t1]. cbn [fst snd] in Hc. destruct r as [a|e]; [exact Hc|].
  specialize (Hh e s1). unfold state_of in Hh.
  destruct (h e s1) as [[r2 s2] t2]. cbn [fst snd] in *.
  eapply touched_trans; eassumption.
Qed.

End Within.

Lemma throws_ret {A} (a : A) : throws_errors (ret a).
Proof. intros s e; discriminate. Qed.

Lemma throws_throw {A} e : is_Error e = true -> throws_errors (@throw A e).
Proof. intros H s e' [= <-]. exact H. Qed.

Lemma throws_emit ev : throws_errors (emit ev).
Proof. intros s e; discriminate. Qed.

Lemma throws_get : throws_errors get.
Proof. intros s e; discriminate. Qed.

Lemma throws_tick : throws_errors tick.
Proof. intros s e; discriminate. Qed.

Lemma throws_set_lastPageId p : throws_errors (set_lastPageId p).
Proof. intros s e; discriminate. Qed.

Lemma throws_bind {A B} (c : M A) (k : A -> M B) :
  throws_errors c -> (forall a, throws_errors (k a)) -> throws_errors (bind c k).
Proof.
  intros Hc Hk s e. unfold bind, result_of. specialize (Hc s). unfold result_of in Hc.
  destruct (c s) as [[r s1] t1]. cbn [fst] in Hc. destruct r as [a|e1].
  - specialize (Hk a s1 e). unfold result_of in Hk.
    destruct (k a s1) as [[r2 s2] t2]. exact Hk.
  - cbn. intros [= <-]. now apply Hc.
Qed.

(** A [try] whose handler throws nothing but [Error]s throws nothing but
    [Error]s, whatever its block does. *)
Lemma throws_try {A} (c : M A) (h : exn -> M A) :
  (forall e, throws_errors (h e)) -> throws_errors (try_catch c h).
Proof.
  intros Hh s e. unfold try_catch, result_of.
  destruct (c s) as [[r s1] t1]. destruct r as [a|e1]; [discriminate|].
  specialize (Hh e1 s1 e). unfold result_of in Hh.
  destruct (h e1 s1) as [[r2 s2] t2]. exact Hh.
Qed.

Lemma throws_rethrow {A} prefix (c : M A) : throws_errors (Api.rethrow prefix c).
Proof.
  unfold Api.rethrow. apply throws_try. intros e.
  destruct (is_Error e) eqn:He; apply throws_throw; [exact He | reflexivity].
Qed.

End EffectFacts.

(** Break a computation down to its primitive steps. *)
Ltac only_step :=
  first
    [ apply EffectFacts.only_ret | apply EffectFacts.only_throw
    | apply EffectFacts.only_get | apply EffectFacts.only_tick
    | apply EffectFacts.only_set_lastPageId
    | apply EffectFacts.only_next_renderCounter
    | apply EffectFacts.only_lift
    | apply EffectFacts.only_emit; reflexivity
    | apply EffectFacts.only_bind; [|intros ?]
    | apply EffectFacts.only_try; [|intros ?]
    | match goal with
      | |- EffectSpec.only _ (if ?b then _ else _) => destruct b
      | |- EffectSpec.only _ (match ?x with _ => _ end) => destruct x
      end ].

Ltac within_step :=
  first
    [ apply EffectFacts.within_ret | apply EffectFacts.within_throw
    | apply EffectFacts.within_get | apply EffectFacts.within_tick
    | apply EffectFacts.within_emit
    | apply EffectFacts.within_set_lastPageId
    | apply EffectFacts.within_next_renderCounter
    | apply EffectFacts.within_lift
    | apply EffectFacts.within_bind; [|intros ?]
    | apply EffectFacts.within_try; [|intros ?]
    | match goal with
      | |- EffectSpec.within _ (if ?b then _ else _) => destruct b
      | |- EffectSpec.within _ (match ?x with _ => _ end) => destruct x
      end ].

Module ClientFacts.

Import JS World Api EffectSpec TraceSpec EffectFacts PipelineSpec.

Section WithEnv.
Context (E : env).

Lemma only_getHeaders P : only P getHeaders.
Proof. unfold getHeaders. repeat only_step. Qed.

Lemma only_requestUrl b req : only api_event (requestUrl E b req).
Proof. unfold requestUrl. repeat only_step. Qed.

Lemma only_getPage p : only api_event (getPage E p).
Proof.
  unfold getPage, rethrow, page_url.
  repeat first [apply only_getHeaders | apply only_requestUrl | only_step].
Qed.

Lemma only_updatePage p c t : only api_event (updatePage E p c t).
Proof.
  unfold updatePage, rethrow, page_url.
  repeat first [apply only_getHeaders | apply only_requestUrl | apply only_getPage
               | only_step].
Qed.

Lemma only_uploadAttachment p f c m : only api_event (uploadAttachment E p f c m).
Proof.
  unfold uploadAttachment, rethrow.
  repeat first [apply only_getHeaders | apply only_requestUrl | only_step].
Qed.

Lemma only_testConnection : only api_event (Api.testConnection E).
Proof.
  unfold testConnection, rethrow.
  repeat first [apply only_getHeaders | apply only_requestUrl | only_step].
Qed.

Lemma headers_without_token c :
  apiToken c = EmptyString -> exists m, headers_of c = Throw (Err m).
Proof.
  intros H. unfold headers_of, getAuthToken. rewrite H.
  destruct (authType c); cbn; [eexists; reflexivity|].
  rewrite orb_true_r. eexists; reflexivity.
Qed.

(** X10. With an empty API token in the settings, no call of the client
    sends a request: [getPage], [updatePage], [uploadAttachment] and
    [testConnection] all throw before the first request, whatever their
    arguments and whichever authentication type is set. *)
Theorem X10_no_token_no_request
        (pageId content title0 fileName mime : string) (s : state) :
  apiToken (settings s) = EmptyString ->
  (https (events_of (getPage E pageId s)) = []
   /\ returned (result_of (getPage E pageId s)) = false)
  /\ (https (events_of (updatePage E pageId content title0 s)) = []
      /\ returned (result_of (updatePage E pageId content title0 s)) = false)
  /\ (https (events_of (uploadAttachment E pageId fileName content mime s)) = []
      /\ returned (result_of (uploadAttachment E pageId fileName content mime s)) = false)
  /\ (https (events_of (Api.testConnection E s)) = []
      /\ returned (result_of (Api.testConnection E s)) = false).
Proof.
  intros Htok. destruct (headers_without_token _ Htok) as [m Hm].
  unfold testConnection. run_api. cbn.
  repeat split; repeat (break_match; cbn; try congruence); reflexivity.
Qed.

Lemma testConnection_result (s : state) :
  match result_of (Api.testConnection E s) with
  | Return b => b = true
  | Throw e => is_Error e = true
  end.
Proof.
  unfold testConnection. run_api. cbn.
  repeat (break_match; cbn); first [reflexivity | assumption].
Qed.

(** X11. [testConnection] never returns [false].  It returns [true], after
    exactly one GET that was answered with a 2xx status, or it throws; and
    what it throws is always an [Error]. *)
Theorem X11_testConnection_true_or_throws (s : state) :
  match result_of (Api.testConnection E s) with
  | Return b =>
      b = true /\
      exists req resp,
        https (events_of (Api.testConnection E s)) = [(req, Return resp)]
        /\ method req = "GET" /\ is_2xx (status resp) = true
  | Throw e => is_Error e = true
  end.
Proof.
  unfold testConnection. run_api. cbn.
  destruct (headers_of (settings s)) as [h|e] eqn:Hh; cbn.
  2:{ now destruct e. }
  match goal with
  | |- context [http E ?n ?r] => destruct (http E n r) as [resp|e] eqn:Hget
  end; cbn.
  2:{ now destruct e. }
  destruct (Nat.leb 400 (status resp)); cbn; [reflexivity|].
  destruct (is_2xx (status resp)) eqn:H2; cbn.
  - split; [reflexivity|]. do 2 eexists. split; [reflexivity|]. split; [reflexivity|].
    exact H2.
  - repeat (break_match; cbn); reflexivity.
Qed.

Lemma updatePage_settings (pageId content title0 : string) (s : state) :
  settings (state_of (updatePage E pageId content title0 s))
  = if returned (result_of (updatePage E pageId content title0 s))
    then with_lastPageId (settings s) pageId
    else settings s.
Proof.
  run_api. cbn. repeat (break_match; cbn); reflexivity.
Qed.

Lemma keeps_getPage p : keeps_settings (getPage E p).
Proof. intros s. run_api. cbn. repeat (break_match; cbn); reflexivity. Qed.

Lemma keeps_uploadAttachment p f c m : keeps_settings (uploadAttachment E p f c m).
Proof. intros s. run_api. cbn. repeat (break_match; cbn); reflexivity. Qed.

Lemma keeps_testConnection : keeps_settings (Api.testConnection E).
Proof.
  intros s. unfold testConnection. run_api. cbn.
  repeat (break_match; cbn); reflexivity.
Qed.

(** X12. The only setting that a call of the client can change is
    [lastPageId], and only [updatePage] changes it: to the id of the page,
    exactly when the call returns.  A failed [updatePage], and every call of
    [getPage], [uploadAttachment] and [testConnection], leave the settings
    as they were. *)
Theorem X12_settings_after_client_calls
        (pageId content title0 fileName mime : string) (s : state) :
  settings (state_of (updatePage E pageId content title0 s))
  = (if returned (result_of (updatePage E pageId content title0 s))
     then with_lastPageId (settings s) pageId
     else settings s)
  /\ settings (state_of (getPage E pageId s)) = settings s
  /\ settings (state_of (uploadAttachment E pageId fileName content mime s))
     = settings s
  /\ settings (state_of (Api.testConnection E s)) = settings s.
Proof.
  split; [apply updatePage_settings|].
  split; [apply keeps_getPage|].
  split; [apply keeps_uploadAttachment | apply keeps_testConnection].
Qed.

(** X13. The requests of a call of [uploadAttachment] are, in order: the
    check for an attachment of the same name (GET); its removal (DELETE),
    if the check found one; the upload (POST); the upload again through the
    older endpoint (POST), if the first was refused as an XSRF failure.  The
    call returns only the file name it was given, and only when its last
    request was a POST answered with a 2xx status.  If the DELETE is answered
    with a status other than 200 and 204, nothing more is sent and the call
    throws, the failure being worded as a network error. *)
Theorem X13_uploadAttachment_shape
        (pageId fileName content mime : string) (s : state) :
  let run := uploadAttachment E pageId fileName content mime s in
  In (methods (events_of run)) upload_sequences
  /\ (forall f, result_of run = Return f ->
        f = fileName /\
        exists req resp,
          final (https (events_of run)) = Some (req, Return resp)
          /\ method req = "POST" /\ is_2xx (status resp) = true)
  /\ (forall get a del resp rest,
        https (events_of run) = (get, a) :: (del, Return resp) :: rest ->
        method del = "DELETE" ->
        negb (Nat.eqb (status resp) 204) && negb (Nat.eqb (status resp) 200) = true ->
        rest = [] /\
        result_of run
        = Throw (Err ("Network error: Failed to delete existing attachment: " ++
                      of_nat (status resp)))).
Proof.
  cbv zeta. run_api. unfold methods, upload_sequences, final. cbn.
  repeat (break_match; cbn).
  all: try match goal with
         | H : truthy (_ ++ _) = false |- _ => discriminate H
         end.
  all: (split; [auto 9|]); split.
  all: try (intros f Hf; discriminate Hf).
  all: try (intros f Hf; injection Hf as <-;
            split; [reflexivity|]; do 2 eexists; split; [reflexivity|];
            split; [reflexivity|];
            first [ assumption
                  | rewrite ApiFacts.is_2xx_spec; apply negb_true_iff; assumption ]).
  all: intros rq0 an0 rq1 rs1 tail0 Hsh Hdel Hst; try discriminate Hsh;
       injection Hsh as; subst; first [discriminate Hdel | congruence | idtac].
  all: split; reflexivity.
Qed.

End WithEnv.

(** Without a token, an update of a page stops at the headers. *)
Lemma X10_no_token_no_request_witness :
  apiToken (settings start_without_token) = EmptyString
  /\ https (events_of (updatePage Samples.E_ok "123" "<p>x</p>" EmptyString
                         start_without_token)) = []
  /\ result_of (updatePage Samples.E_ok "123" "<p>x</p>" EmptyString
                  start_without_token)
     = Throw (Err "API token not configured. Please check settings.").
Proof.
  assert (H : apiToken (settings start_without_token) = EmptyString) by reflexivity.
  pose proof (X10_no_token_no_request Samples.E_ok "123" "<p>x</p>" EmptyString
                "mermaid-0.svg" "image/svg+xml" start_without_token H)
    as (_ & (Hu & _) & _).
  split; [exact H|]. split; [exact Hu | vm_compute; reflexivity].
Defined.

End ClientFacts.

Module PublishFacts.

Import JS World EffectSpec TraceSpec EffectFacts PipelineSpec.

Section WithEnv.
Context (E : env).

Lemma inner_api ev : api_event ev = true -> inner_event ev = true.
Proof. now destruct ev. Qed.

Lemma only_renderToSvg code0 : only inner_event (Mermaid.renderToSvg E code0).
Proof. unfold Mermaid.renderToSvg. repeat only_step. Qed.

Lemma only_process_matches matches : forall i md data,
  only inner_event (Mermaid.process_matches E matches i md data).
Proof.
  induction matches as [|m rest IH]; intros i md data; cbn [Mermaid.process_matches].
  - apply only_ret.
  - apply only_bind; [apply only_renderToSvg | intros v; apply IH].
Qed.

Lemma only_convert md : only inner_event (Simple.convert E md).
Proof.
  unfold Simple.convert, Simple.convert_try, Simple.getMermaidRenderer,
    Mermaid.processMermaidBlocks.
  repeat first [apply only_process_matches | only_step].
Qed.

Lemma only_update p c t : only inner_event (Api.updatePage E p c t).
Proof. eapply only_weaken; [apply inner_api | apply ClientFacts.only_updatePage]. Qed.

Lemma only_upload p f c m : only inner_event (Api.uploadAttachment E p f c m).
Proof. eapply only_weaken; [apply inner_api | apply ClientFacts.only_uploadAttachment]. Qed.

Lemma only_resolve_items p items : forall html,
  only inner_event (Plugin.resolve_items E p items html).
Proof.
  induction items as [|it rest IH]; intros html; cbn [Plugin.resolve_items].
  - apply only_ret.
  - apply only_bind; [|intros h; apply IH]. unfold Plugin.resolve_item.
    repeat first [apply only_upload | only_step].
Qed.

Lemma only_publish p md : only inner_event (Plugin.publish E p md).
Proof.
  unfold Plugin.publish, Simple.getMermaidRenderer.
  repeat first [apply only_convert | apply only_update | apply only_resolve_items
               | only_step].
Qed.

Lemma within_renderToSvg p code0 : within p (Mermaid.renderToSvg E code0).
Proof. unfold Mermaid.renderToSvg. repeat within_step. Qed.

Lemma within_process_matches p matches : forall i md data,
  within p (Mermaid.process_matches E matches i md data).
Proof.
  induction matches as [|m rest IH]; intros i md data; cbn [Mermaid.process_matches].
  - apply within_ret.
  - apply within_bind; [apply within_renderToSvg | intros v; apply IH].
Qed.

Lemma within_convert p md : within p (Simple.convert E md).
Proof.
  unfold Simple.convert, Simple.convert_try, Simple.getMermaidRenderer,
    Mermaid.processMermaidBlocks.
  repeat first [apply within_process_matches | within_step].
Qed.

Lemma within_requestUrl p b req : within p (Api.requestUrl E b req).
Proof. unfold Api.requestUrl. repeat within_step. Qed.

Lemma within_getHeaders p : within p Api.getHeaders.
Proof. unfold Api.getHeaders. repeat within_step. Qed.

Lemma within_updatePage p c t : within p (Api.updatePage E p c t).
Proof.
  unfold Api.updatePage, Api.getPage, Api.rethrow, Api.page_url.
  repeat first [apply within_requestUrl | apply within_getHeaders | within_step].
Qed.

Lemma within_uploadAttachment p q f c m : within p (Api.uploadAttachment E q f c m).
Proof.
  unfold Api.uploadAttachment, Api.rethrow.
  repeat first [apply within_requestUrl | apply within_getHeaders | within_step].
Qed.

Lemma within_resolve_items p items : forall html,
  within p (Plugin.resolve_items E p items html).
Proof.
  induction items as [|it rest IH]; intros html; cbn [Plugin.resolve_items].
  - apply within_ret.
  - apply within_bind; [|intros h; apply IH]. unfold Plugin.resolve_item.
    repeat first [apply within_uploadAttachment | within_step].
Qed.

Lemma within_publish p md : within p (Plugin.publish E p md).
Proof.
  unfold Plugin.publish, Simple.getMermaidRenderer.
  repeat first [apply within_convert | apply within_updatePage
               | apply within_resolve_items | within_step].
Qed.

(** X14. Whatever happens during [performUpload], the settings afterwards
    are the settings before, or differ from them only in [lastPageId], which
    is then the id of the page; and when the publishing part returned, they
    do hold that id. *)
Theorem X14_performUpload_settings (pageId md title0 : string) (s : state) :
  let s' := state_of (Plugin.performUpload E pageId md title0 s) in
  (settings s' = settings s \/ settings s' = with_lastPageId (settings s) pageId)
  /\ (returned (result_of (Plugin.publish E pageId md s)) = true ->
      settings s' = with_lastPageId (settings s) pageId).
Proof.
  cbv zeta. split.
  - revert s. change (within pageId (Plugin.performUpload E pageId md title0)).
    unfold Plugin.performUpload, Plugin.saveSettings, Plugin.host_call, Api.getPageUrl.
    repeat first [apply within_publish | within_step].
  - pose proof (within_publish pageId md s) as Hp.
    unfold Plugin.performUpload, Plugin.saveSettings, Plugin.host_call, Api.getPageUrl.
    run_api. cbn.
    destruct (Plugin.publish E pageId md s) as [[r s1] t1]. cbn in *.
    destruct r as [[]|e]; cbn; [|discriminate]. intros _.
    assert (Hs1 : with_lastPageId (settings s1) pageId
                  = with_lastPageId (settings s) pageId).
    { destruct Hp as [->| ->]; reflexivity. }
    destruct (saveData E (clock s1)) as [e|]; cbn; [destruct e; exact Hs1|].
    destruct (clipboard E (S (clock s1))) as [e|]; cbn; [destruct e|]; exact Hs1.
Qed.

Lemma throws_updatePage p c t : throws_errors (Api.updatePage E p c t).
Proof.
  unfold Api.updatePage. apply throws_bind; [apply throws_emit | intros _].
  destruct (negb (truthy p)); [now apply throws_throw | apply throws_rethrow].
Qed.

Lemma throws_resolve_items p items : forall html,
  throws_errors (Plugin.resolve_items E p items html).
Proof.
  induction items as [|it rest IH]; intros html; cbn [Plugin.resolve_items].
  - apply throws_ret.
  - apply throws_bind; [|intros h; apply IH]. unfold Plugin.resolve_item.
    destruct (Mermaid.truthy_opt _); [|apply throws_ret].
    apply throws_try. intros e. apply throws_ret.
Qed.

(** The publishing part of [performUpload] throws nothing but [Error]s:
    the conversion and the diagrams never throw, and [updatePage] wraps
    whatever it catches. *)
Lemma throws_publish p md : throws_errors (Plugin.publish E p md).
Proof.
  unfold Plugin.publish, Simple.convert, Simple.getMermaidRenderer.
  apply throws_bind; [apply throws_try; intros e; apply throws_ret | intros c].
  destruct (Simple.mermaidData c) as [[|first others]|];
    try apply throws_updatePage.
  apply throws_bind; [apply throws_updatePage | intros _].
  apply throws_bind; [apply throws_bind; [apply throws_get | intros ?; apply throws_ret]
                     | intros r].
  destruct r; [|apply throws_ret].
  apply throws_bind; [apply throws_resolve_items | intros h; apply throws_updatePage].
Qed.

(** X15. What the user and the host see of [performUpload], and how the
    call ends.  If the publishing part throws, what it throws is an [Error]:
    one failure notice with its message, nothing is saved or copied, and the
    call returns.  Otherwise the settings are saved; if saving is rejected,
    one failure notice follows and the call returns; otherwise the success
    notice, then the page URL (base URL, [/pages/viewpage.action?pageId=],
    page id) is written to the clipboard; and if that write is rejected, the
    success notice is followed by a failure notice, else by the notice that
    the URL was copied.  A rejection of the save or of the clipboard write
    with [null] or [undefined] is the exception: the handler fails on
    reading its [message], no failure notice is shown, and the call throws a
    [TypeError]. *)
Theorem X15_performUpload_host_events (pageId md title0 : string) (s : state) :
  let run := Plugin.performUpload E pageId md title0 s in
  host_events (events_of run)
  = match Plugin.publish E pageId md s with
    | (Throw e, _, _) => [upload_failed e]
    | (Return _, s1, _) =>
        SaveData ::
        match saveData E (clock s1) with
        | Some e => failure_notice e
        | None =>
            Notice true "Page updated successfully!" ::
            ClipboardWrite
              (baseUrl (settings s) ++ "/pages/viewpage.action?pageId=" ++ pageId) ::
            match clipboard E (S (clock s1)) with
            | Some e => failure_notice e
            | None => [Notice true "Page URL copied to clipboard"]
            end
        end
    end
  /\ result_of run
     = match Plugin.publish E pageId md s with
       | (Throw e, _, _) => Return tt
       | (Return _, s1, _) =>
           match saveData E (clock s1) with
           | Some e => failure_result e
           | None =>
               match clipboard E (S (clock s1)) with
               | Some e => failure_result e
               | None => Return tt
               end
           end
       end.
Proof.
  cbv zeta.
  pose proof (only_filter inner_event is_host _ s (only_publish pageId md)) as Hq.
  pose proof (within_publish pageId md s) as Hp.
  pose proof (throws_publish pageId md s) as Ht.
  unfold Plugin.performUpload, Plugin.saveSettings, Plugin.host_call, Api.getPageUrl.
  run_api.
  unfold host_events, upload_failed, failure_notice, failure_result in *. cbn.
  destruct (Plugin.publish E pageId md s) as [[r s1] t1]. cbn in *.
  assert (Hbase : baseUrl (settings s1) = baseUrl (settings s)).
  { destruct Hp as [->| ->]; reflexivity. }
  specialize (Hq (fun ev H => proj1 (negb_true_iff _) H)).
  destruct r as [[]|e]; cbn.
  - destruct (saveData E (clock s1)) as [e|]; cbn.
    + destruct e; cbn; rewrite ?filter_app, Hq; split; reflexivity.
    + destruct (clipboard E (S (clock s1))) as [e|]; cbn; [destruct e; cbn|];
        rewrite ?filter_app, Hq, Hbase; split; reflexivity.
  - specialize (Ht e eq_refl). destruct e; try discriminate. cbn.
    rewrite ?filter_app, Hq. split; reflexivity.
Qed.

End WithEnv.

(** A save that the host rejects with [undefined]: the page is published,
    no notice is shown, and [performUpload] throws. *)
Example save_rejected_with_undefined :
  let run := Plugin.performUpload Samples.E_save_undefined "123" "hello" EmptyString
               (Samples.start true) in
  publishes (events_of run) = [("123", "hello")]
  /\ host_events (events_of run) = [SaveData]
  /\ result_of run
     = Throw (Err "Cannot read properties of undefined (reading 'message')").
Proof. vm_compute. repeat split. Qed.

End PublishFacts.

Module RenderFacts.

Import JS World EffectSpec TraceSpec PipelineSpec.

Section WithEnv.
Context (E : env).

(** X16. [renderToSvg] makes one render attempt, and it throws in one case
    only: when [mermaid.render] is rejected with [null] or [undefined] and
    [mermaid.init] leaves no image, the outer [catch] fails on reading the
    message of what it caught, and the call throws that [TypeError].  In
    every other case it resolves: to [null] when there is no document or
    when [mermaid.parse] rejects the code; to the image of [mermaid.render]
    when that returns; and when [mermaid.render] throws, to the image left
    by [mermaid.init] if there is one and to [null] otherwise.  The render
    counter moves on by one exactly when a document is available, and
    nothing else of the state changes. *)
Theorem X16_renderToSvg_resolves (code0 : string) (s : state) :
  let run := mermaid E (clock s) code0 in
  Mermaid.renderToSvg E code0 s
  = (match render_failure run with
     | Some t => Throw t
     | None => Return (svg_of run)
     end,
     St (S (clock s)) (settings s)
        (if document_available run then S (renderCounter s) else renderCounter s),
     [CallRender code0])
  /\ (forall t, render_failure run = Some t ->
        exists e, render run = Throw e /\ nullish e = true
                  /\ init_svg run = None /\ t = type_error e "message").
Proof.
  cbv zeta. split; [apply PipelineFacts.renderToSvg_run_eq|].
  unfold render_failure. intros t.
  destruct (document_available _ && parse_ok _); [|discriminate].
  destruct (render _) as [v|e]; [discriminate|].
  destruct (init_svg _); [discriminate|].
  destruct (nullish e) eqn:He; [|discriminate].
  intros [= <-]. exists e. auto.
Qed.

(** X17. [processMermaidBlocks] renders the diagram blocks once each, in
    document order.  When it returns, its list holds one entry per block:
    the entries are numbered 0, 1, 2, ... in document order, each carries
    the trimmed body of its block, and its [svg] field is an image or
    [null], never an empty string.  It throws only when a render call
    throws: it has then rendered the first blocks of the document, up to
    the one that failed, and what it throws is an [Error].  When no render
    call throws, it returns. *)
Theorem X17_processMermaidBlocks_entries (markdown : string) (s : state) :
  let run := Mermaid.processMermaidBlocks E markdown s in
  match result_of run with
  | Return out =>
      events_of run = map CallRender (diagram_blocks markdown)
      /\ map Mermaid.index (snd out) = seq 0 (List.length (diagram_blocks markdown))
      /\ map Mermaid.code (snd out) = diagram_blocks markdown
      /\ Forall (fun it => Mermaid.svg it = None
                           \/ Mermaid.truthy_opt (Mermaid.svg it) = true) (snd out)
  | Throw e =>
      is_Error e = true /\
      exists k, k < List.length (diagram_blocks markdown)
                /\ events_of run
                   = map CallRender (firstn (S k) (diagram_blocks markdown))
  end
  /\ ((forall n code0, render_failure (mermaid E n code0) = None) ->
      returned (result_of run) = true).
Proof.
  cbv zeta. split; [apply (PipelineFacts.processMermaidBlocks_run E markdown s)|].
  intros Hok. apply PipelineFacts.process_matches_returns. exact Hok.
Qed.

(** X18. A click on the Test button of the settings tab shows exactly one
    notice: the success notice when [testConnection] returned, and otherwise
    [Connection failed:] followed by the message of what was thrown.  The
    notice of the branch for a [false] result is never shown. *)
Theorem X18_test_button_notice (s : state) :
  notices (events_of (SettingTab.test_button E s))
  = match result_of (Api.testConnection E s) with
    | Return _ => [Notice true "Connection successful!"]
    | Throw e =>
        [Notice false
           ("Connection failed: " ++ or_else (Api.message_of' e) "Unknown error")]
    end.
Proof.
  pose proof (ClientFacts.testConnection_result E s) as Ht.
  pose proof (EffectFacts.only_filter api_event is_notice _ s
                (ClientFacts.only_testConnection E)) as Hq.
  unfold SettingTab.test_button, notices. run_api. cbn.
  destruct (Api.testConnection E s) as [[r s1] t1]. cbn in *.
  specialize (Hq (fun ev => ltac:(destruct ev; cbn; congruence))).
  destruct r as [b|e]; cbn.
  - rewrite Ht. cbn. rewrite filter_app, Hq. reflexivity.
  - destruct e; try discriminate Ht. cbn. rewrite filter_app, Hq. reflexivity.
Qed.

End WithEnv.

(** A render that is rejected with [null]: [renderToSvg] throws, the
    conversion falls back, and the note is published once, as it is, inside
    a paragraph. *)
Example render_rejected_with_null :
  result_of (Mermaid.renderToSvg Samples.E_render_null "graph TD; A-->B"
               (Samples.start true))
  = Throw (Err "Cannot read properties of null (reading 'message')")
  /\ result_of (Simple.convert Samples.E_render_null Samples.one_diagram
                  (Samples.start true))
     = Return (Simple.fallback Samples.one_diagram)
  /\ calls (events_of (Plugin.performUpload Samples.E_render_null "123"
                         Samples.one_diagram EmptyString (Samples.start true)))
     = [CallRender "graph TD; A-->B";
        CallUpdatePage "123" (Simple.html (Simple.fallback Samples.one_diagram))].
Proof. vm_compute. repeat split. Qed.

End RenderFacts.

Module DiagramFacts.

Import JS World EffectSpec TraceSpec PipelineSpec NormSpec BlockSpec.

Section WithEnv.
Context (E : env).

(** X20. Let a text hold one diagram block, no backtick standing before
    it, inside it or behind it.  Then [processMermaidBlocks] renders the
    trimmed body of the block once and, unless that render call throws,
    returns the text with the block replaced by
    [<!--MERMAID_PLACEHOLDER_0-->] and everything else unchanged, and a list
    of one entry, numbered 0, that holds the trimmed body and the image (or
    [null]).  If the render call throws, so does [processMermaidBlocks]. *)
Theorem X20_single_diagram (pre inner post : string) (s : state) :
  all_in no_tick pre = true -> all_in no_tick inner = true ->
  all_in no_tick post = true ->
  let run := mermaid E (clock s) (trim inner) in
  Mermaid.processMermaidBlocks E (pre ++ diagram inner ++ post) s
  = (match render_failure run with
     | Some t => Throw t
     | None =>
         Return (pre ++ Mermaid.placeholder 0 ++ post,
                 [Mermaid.Item 0
                    (if Mermaid.truthy_opt (svg_of run) then svg_of run else None)
                    (trim inner)])
     end,
     St (S (clock s)) (settings s)
        (if document_available run then S (renderCounter s) else renderCounter s),
     [CallRender (trim inner)]).
Proof.
  intros Hpre Hin Hpost. cbv zeta. unfold Mermaid.processMermaidBlocks.
  rewrite (FenceFacts.match_all_one pre inner post Hpre Hin Hpost).
  cbn [Mermaid.process_matches Regex.matched].
  change (Regex.group (Regex.Result (diagram inner) [Some inner] post) 1) with inner.
  unfold bind. rewrite PipelineFacts.renderToSvg_run_eq. unfold render_outcome.
  destruct (render_failure _); [reflexivity|].
  rewrite (OrchestratorFacts.replace_str_plain _ _ _ pre post);
    [| reflexivity | now apply FenceFacts.find_diagram].
  cbn. destruct (Mermaid.truthy_opt _); reflexivity.
Qed.

End WithEnv.

Lemma X20_single_diagram_witness :
  Mermaid.processMermaidBlocks Samples.E_ok
    ("Intro" ++ nl ++ diagram ("graph TD; A-->B" ++ nl) ++ nl ++ "Outro")
    (Samples.start true)
  = (Return ("Intro" ++ nl ++ "<!--MERMAID_PLACEHOLDER_0-->" ++ nl ++ "Outro",
             [Mermaid.Item 0 (Some "<svg/>") "graph TD; A-->B"]),
     St 1 (settings (Samples.start true)) 1,
     [CallRender "graph TD; A-->B"]).
Proof.
  assert (H1 : all_in no_tick ("Intro" ++ nl) = true) by reflexivity.
  assert (H2 : all_in no_tick ("graph TD; A-->B" ++ nl) = true) by reflexivity.
  assert (H3 : all_in no_tick (nl ++ "Outro") = true) by reflexivity.
  pose proof (X20_single_diagram Samples.E_ok _ _ _ (Samples.start true) H1 H2 H3)
    as H.
  vm_compute in H. vm_compute. exact H.
Defined.

End DiagramFacts.

Module SettingFacts.

Import JS World NormSpec SettingTab.

Section WithEnv.
Context (E : env).

Lemma baseUrl_stored (value : string) (s : state) :
  baseUrl (settings (state_of (baseUrl_changed E value s))) = normalize_baseUrl value.
Proof.
  unfold baseUrl_changed, set_baseUrl, Plugin.saveSettings, Plugin.host_call.
  run_api. cbn. destruct (saveData E (clock s)); reflexivity.
Qed.

(** X23. What the base URL field stores: a value that ends in a slash is
    stored without that one slash, whether saving succeeds or not, and a
    value that does not end in a slash is stored as it is. *)
Theorem X23_base_url_stored (value : string) (s : state) :
  baseUrl (settings (state_of (baseUrl_changed E (value ++ "/") s))) = value
  /\ (ends_with_slash value = false ->
      baseUrl (settings (state_of (baseUrl_changed E value s))) = value).
Proof.
  rewrite !baseUrl_stored. apply UrlFacts.base_url_normalized.
Qed.

End WithEnv.

End SettingFacts.
